(** * MiraCars booking front end: pricing engine, configuration store and
      admin authentication, embedded from [script.js].

    The development follows the source file section by section.

    Modelling conventions.
    - A JavaScript string is the list of its UTF-16 code units ([jsstring]),
      so that [.length], [.trim()] and [===] are what the engine computes.
      String literals of the source are written [js "..."]: the literal's
      UTF-8 bytes are decoded to code units.
    - A JavaScript Number is [NaN], an infinity or a finite value.  Finite
      values are exact rationals: binary rounding, overflow and the sign of
      zero are not modelled.
    - Plain objects used as dictionaries ([carCategories], [extras],
      [PAYMENT_INSTRUCTIONS]) are association lists in insertion order that
      hold own properties only; [localStorage] is a finite map from keys to
      strings.
    - The settings cached in memory have the types of the values the script
      itself writes ([Config]).
    - DOM reads are the arguments of the handlers, DOM writes and [alert]
      calls are their results. *)

From Stdlib Require Import ZArith QArith Qcanon Qround List Ascii String Lia Lqa.
From stdpp Require Import base numbers option list gmap.

Local Open Scope Z_scope.

(** ** Strings *)

Abbreviation jsstring := (list N).

Module Utf16.

(** Code units of the code point [cp] (a surrogate pair above the BMP). *)
Definition of_code_point (cp : N) : jsstring :=
  if (cp <? 65536)%N then [cp]
  else
    let v := (cp - 65536)%N in
    [(55296 + N.shiftr v 10)%N; (56320 + N.land v 1023)%N].

Definition cont (b : N) : N := N.land b 63.

(** Decoder for the UTF-8 bytes of a source literal. *)
Fixpoint of_utf8 (bs : list N) : jsstring :=
  match bs with
  | [] => []
  | b :: r1 =>
      if (b <? 128)%N then b :: of_utf8 r1
      else
        match r1 with
        | [] => [b]
        | c1 :: r2 =>
            if (b <? 224)%N then
              (N.shiftl (N.land b 31) 6 + cont c1)%N :: of_utf8 r2
            else
              match r2 with
              | [] => [b; c1]
              | c2 :: r3 =>
                  if (b <? 240)%N then
                    (N.shiftl (N.land b 15) 12 + N.shiftl (cont c1) 6
                     + cont c2)%N :: of_utf8 r3
                  else
                    match r3 with
                    | [] => [b; c1; c2]
                    | c3 :: r4 =>
                        of_code_point
                          (N.shiftl (N.land b 7) 18
                           + N.shiftl (cont c1) 12
                           + N.shiftl (cont c2) 6 + cont c3)%N
                        ++ of_utf8 r4
                    end
              end
        end
  end.

Fixpoint bytes (s : string) : list N :=
  match s with
  | EmptyString => []
  | String a s' => N_of_ascii a :: bytes s'
  end.

End Utf16.

(** The JavaScript string denoted by a source literal. *)
Definition js (s : string) : jsstring := Utf16.of_utf8 (Utf16.bytes s).

(** WhiteSpace and LineTerminator code units, as removed by [trim]. *)
Definition is_white_space (c : N) : bool :=
  ((9 <=? c) && (c <=? 13) || (c =? 32) || (c =? 160) || (c =? 5760)
   || (8192 <=? c) && (c <=? 8202) || (c =? 8232) || (c =? 8233)
   || (c =? 8239) || (c =? 8287) || (c =? 12288) || (c =? 65279))%N.

Fixpoint trimStart (s : jsstring) : jsstring :=
  match s with
  | [] => []
  | c :: s' => if is_white_space c then trimStart s' else s
  end.

Definition trimEnd (s : jsstring) : jsstring := rev (trimStart (rev s)).

Definition trim (s : jsstring) : jsstring := trimEnd (trimStart s).

(** [s.split(sep)] for a separator of one code unit. *)
Fixpoint split (sep : N) (s : jsstring) : list jsstring :=
  match s with
  | [] => [[]]
  | c :: s' =>
      if (c =? sep)%N then [] :: split sep s'
      else
        match split sep s' with
        | x :: xs => (c :: x) :: xs
        | [] => [[c]]
        end
  end.

(** Simple case mapping of one code unit (Basic Latin, Latin-1, Greek and
    Cyrillic capitals); other code units are left as they are. *)
Definition lower_unit (c : N) : N :=
  (if (65 <=? c) && (c <=? 90) then c + 32
   else if (192 <=? c) && (c <=? 222) && negb (c =? 215) then c + 32
   else if (913 <=? c) && (c <=? 939) && negb (c =? 930) then c + 32
   else if (c =? 902) then 940
   else if (904 <=? c) && (c <=? 906) then c + 37
   else if (c =? 908) then 972
   else if (910 <=? c) && (c <=? 911) then c + 63
   else if (1040 <=? c) && (c <=? 1071) then c + 32
   else if (1024 <=? c) && (c <=? 1039) then c + 80
   else c)%N.

Definition toLowerCase (s : jsstring) : jsstring := map lower_unit s.

(** Truthiness of a string: non-empty. *)
Definition nonempty (s : jsstring) : bool :=
  match s with [] => false | _ => true end.

(** ** Numbers *)

Inductive number :=
| NaN
| PInf
| NInf
| Fin (q : Qc).

Module Num.

Definition of_Z (z : Z) : number := Fin (Qc_of_Z z).

Definition Qc_ltb (x y : Qc) : bool :=
  match (x ?= y)%Qc with Lt => true | _ => false end.

Definition Qc_eqb (x y : Qc) : bool :=
  match (x ?= y)%Qc with Eq => true | _ => false end.

Definition Qc_leb (x y : Qc) : bool :=
  match (x ?= y)%Qc with Gt => false | _ => true end.

Definition neg (a : number) : number :=
  match a with
  | NaN => NaN
  | PInf => NInf
  | NInf => PInf
  | Fin x => Fin (- x)%Qc
  end.

Definition add (a b : number) : number :=
  match a, b with
  | NaN, _ | _, NaN => NaN
  | PInf, NInf | NInf, PInf => NaN
  | PInf, _ | _, PInf => PInf
  | NInf, _ | _, NInf => NInf
  | Fin x, Fin y => Fin (x + y)%Qc
  end.

Definition sub (a b : number) : number := add a (neg b).

(** An infinity scaled by the finite factor [y]. *)
Definition scale_inf (pos : bool) (y : Qc) : number :=
  if Qc_eqb y 0 then NaN
  else if Bool.eqb pos (Qc_ltb 0 y) then PInf else NInf.

Definition mul (a b : number) : number :=
  match a, b with
  | NaN, _ | _, NaN => NaN
  | Fin x, Fin y => Fin (x * y)%Qc
  | PInf, Fin y | Fin y, PInf => scale_inf true y
  | NInf, Fin y | Fin y, NInf => scale_inf false y
  | PInf, PInf | NInf, NInf => PInf
  | PInf, NInf | NInf, PInf => NInf
  end.

Definition div (a b : number) : number :=
  match a, b with
  | NaN, _ | _, NaN => NaN
  | Fin x, Fin y =>
      if Qc_eqb y 0 then
        (if Qc_eqb x 0 then NaN else if Qc_ltb 0 x then PInf else NInf)
      else Fin (x / y)%Qc
  | Fin _, _ => of_Z 0
  | PInf, Fin y => if Qc_ltb y 0 then NInf else PInf
  | NInf, Fin y => if Qc_ltb y 0 then PInf else NInf
  | _, _ => NaN
  end.

(** [a < b]; every comparison with [NaN] is false. *)
Definition lt (a b : number) : bool :=
  match a, b with
  | NaN, _ | _, NaN => false
  | _, NInf => false
  | NInf, _ => true
  | PInf, _ => false
  | _, PInf => true
  | Fin x, Fin y => Qc_ltb x y
  end.

Definition gt (a b : number) : bool := lt b a.

Definition le (a b : number) : bool :=
  match a, b with
  | NaN, _ | _, NaN => false
  | NInf, _ => true
  | _, PInf => true
  | _, NInf => false
  | PInf, _ => false
  | Fin x, Fin y => Qc_leb x y
  end.

Definition ge (a b : number) : bool := le b a.

Definition isNaN (a : number) : bool :=
  match a with NaN => true | _ => false end.

Definition isFinite (a : number) : bool :=
  match a with Fin _ => true | _ => false end.

(** ToBoolean: [0] and [NaN] are falsy. *)
Definition truthy (a : number) : bool :=
  match a with
  | NaN => false
  | Fin x => negb (Qc_eqb x 0)
  | _ => true
  end.

Definition Math_ceil (a : number) : number :=
  match a with
  | Fin x => of_Z (Qceiling x)
  | _ => a
  end.

(** [Math.round]: the nearest integer, ties towards positive infinity. *)
Definition Math_round (a : number) : number :=
  match a with
  | Fin x => of_Z (Qfloor (x + Q2Qc (1 # 2))%Qc)
  | _ => a
  end.

End Num.

Abbreviation num := Num.of_Z.


(** ** Decimal literals *)

Definition ch (a : ascii) : N := N_of_ascii a.
Arguments ch a%_char : simpl never.

Definition is_digit (c : N) : bool := ((48 <=? c) && (c <=? 57))%N.

(** Longest prefix of [s] whose code units satisfy [p], and the rest. *)
Fixpoint span (p : N -> bool) (s : jsstring) : jsstring * jsstring :=
  match s with
  | [] => ([], [])
  | c :: r => if p c then let '(a, b) := span p r in (c :: a, b) else ([], s)
  end.

Definition digits_val (ds : jsstring) : N :=
  fold_left (fun a c => (a * 10 + (c - 48))%N) ds 0%N.

Fixpoint digits_fuel (fuel : nat) (n : N) : jsstring :=
  match fuel with
  | O => []
  | S f =>
      (if (n / 10 =? 0)%N then [] else digits_fuel f (n / 10)%N)
      ++ [(48 + n mod 10)%N]
  end.

(** Decimal digits of [n], without leading zeros. *)
Definition digits (n : N) : jsstring := digits_fuel (S (N.to_nat (N.size n))) n.

(** The [k] low decimal digits of [n], zero padded. *)
Fixpoint fixed_digits (k : nat) (n : N) : jsstring :=
  match k with
  | O => []
  | S k' => fixed_digits k' (n / 10)%N ++ [(48 + n mod 10)%N]
  end.

(** The number [(-1)^neg * mant * 10^e]. *)
Definition decimal (neg : bool) (mant : N) (e : Z) : Qc :=
  let m := Qc_of_Z (if neg then - Z.of_N mant else Z.of_N mant) in
  if 0 <=? e then (m * Qc_of_Z (10 ^ e))%Qc else (m / Qc_of_Z (10 ^ (- e)))%Qc.

(** Least [k' >= k] within the fuel such that [d] divides [10^k']. *)
Fixpoint find_scale (fuel k : nat) (d : Z) : nat :=
  match fuel with
  | O => k
  | S f => if (10 ^ Z.of_nat k) mod d =? 0 then k else find_scale f (S k) d
  end.

(** Number of fraction digits of the decimal expansion of a fraction with
    denominator [d]. *)
Definition scale_of (d : positive) : nat :=
  find_scale (Pos.size_nat d) 0 (Z.pos d).

(** The finite number [q] has a finite decimal expansion (as every double
    has): its denominator divides a power of ten. *)
Definition is_decimal (q : Qc) : Prop :=
  exists k : nat, (Z.pos (Qden q) | 10 ^ Z.of_nat k).

(** [Number::toString] of a finite number, in positional notation at every
    magnitude (an engine switches to exponent notation from 1e21 on and
    below 1e-6; both texts denote the same number). *)
Definition Number_toString (q : Qc) : jsstring :=
  let n := Qnum q in
  let d := Z.pos (Qden q) in
  let k := scale_of (Qden q) in
  let scaled := Z.to_N (Z.abs n * 10 ^ Z.of_nat k / d) in
  let p := (10 ^ N.of_nat k)%N in
  (if n <? 0 then [ch "-"] else [])
  ++ digits (scaled / p)%N
  ++ (match k with O => [] | _ => ch "." :: fixed_digits k (scaled mod p)%N end).

(** Optional sign at the head of [s]. *)
Definition read_sign (plus : bool) (s : jsstring) : bool * jsstring :=
  match s with
  | c :: r =>
      if (c =? ch "-")%N then (true, r)
      else if plus && (c =? ch "+")%N then (false, r)
      else (false, s)
  | [] => (false, s)
  end.

(** Exponent part [e[+-]ddd] at the head of [s], if there is one. *)
Definition read_exponent (s : jsstring) : Z * jsstring :=
  match s with
  | c :: r =>
      if (c =? ch "e")%N || (c =? ch "E")%N then
        let '(eneg, r1) := read_sign true r in
        let '(ed, r2) := span is_digit r1 in
        match ed with
        | [] => (0, s)
        | _ => ((if eneg then - Z.of_N (digits_val ed) else Z.of_N (digits_val ed)), r2)
        end
      else (0, s)
  | [] => (0, s)
  end.

Fixpoint starts_with (p s : jsstring) : bool :=
  match p, s with
  | [], _ => true
  | a :: p', b :: s' => (a =? b)%N && starts_with p' s'
  | _ :: _, [] => false
  end.

(** [parseFloat]: the longest prefix that is a decimal literal. *)
Definition parseFloat (s : jsstring) : number :=
  let s := trimStart s in
  let '(neg, s) := read_sign true s in
  if starts_with (js "Infinity") s then (if neg then NInf else PInf)
  else
    let '(ip, s1) := span is_digit s in
    let '(fp, s2) :=
      match s1 with
      | c :: r => if (c =? ch ".")%N then span is_digit r else ([], s1)
      | [] => ([], s1)
      end in
    match ip ++ fp with
    | [] => NaN
    | ds =>
        let '(e, _) := read_exponent s2 in
        Fin (decimal neg (digits_val ds) (e - Z.of_nat (length fp)))
    end.

(** ** Dictionary objects *)

(** Property lookup [o[k]] on a dictionary object; [None] is [undefined]. *)
Fixpoint obj_get {A : Type} (k : jsstring) (o : list (jsstring * A)) : option A :=
  match o with
  | [] => None
  | (k', v) :: o' => if bool_decide (k = k') then Some v else obj_get k o'
  end.

(** Assignment [o[k] = v]: an existing property keeps its place. *)
Fixpoint obj_set {A : Type} (k : jsstring) (v : A) (o : list (jsstring * A))
  : list (jsstring * A) :=
  match o with
  | [] => [(k, v)]
  | (k', v') :: o' =>
      if bool_decide (k = k') then (k', v) :: o' else (k', v') :: obj_set k v o'
  end.

Definition obj_keys {A : Type} (o : list (jsstring * A)) : list jsstring :=
  map fst o.

(** ** Values and JSON *)

#[local] Set Warnings "-register-all".

Inductive value :=
| VUndefined
| VNull
| VBool (b : bool)
| VNum (n : number)
| VStr (s : jsstring)
| VArr (l : list value)
| VObj (o : list (jsstring * value)).

Module Json.

Definition hex_digit (n : N) : N := (if n <? 10 then 48 + n else 87 + n)%N.

Definition escape_u (c : N) : jsstring :=
  [ ch "\"; ch "u"; hex_digit (c / 4096); hex_digit ((c / 256) mod 16);
    hex_digit ((c / 16) mod 16); hex_digit (c mod 16) ]%N.

Definition is_high (c : N) : bool := ((55296 <=? c) && (c <=? 56319))%N.
Definition is_low (c : N) : bool := ((56320 <=? c) && (c <=? 57343))%N.

(** Escape of a code unit that is not part of a surrogate pair. *)
Definition quote_unit (c : N) : jsstring :=
  (if c =? 34 then [ch "\"; 34]
   else if c =? ch "\" then [ch "\"; ch "\"]
   else if c =? 8 then [ch "\"; ch "b"]
   else if c =? 9 then [ch "\"; ch "t"]
   else if c =? 10 then [ch "\"; ch "n"]
   else if c =? 12 then [ch "\"; ch "f"]
   else if c =? 13 then [ch "\"; ch "r"]
   else if c <? 32 then escape_u c
   else if is_high c || is_low c then escape_u c
   else [c])%N.

Fixpoint quote_units (s : jsstring) : jsstring :=
  match s with
  | [] => []
  | c :: r =>
      if is_high c then
        match r with
        | d :: r' => if is_low d then c :: d :: quote_units r'
                     else quote_unit c ++ quote_units r
        | [] => quote_unit c
        end
      else quote_unit c ++ quote_units r
  end.

(** [QuoteJSONString] *)
Definition quote (s : jsstring) : jsstring := 34%N :: quote_units s ++ [34%N].

(** [SerializeJSONProperty] for a value other than [undefined]; inside an
    array [undefined] is written [null], inside an object its property
    is left out. *)
Fixpoint serialize (v : value) : jsstring :=
  match v with
  | VUndefined | VNull => js "null"
  | VBool true => js "true"
  | VBool false => js "false"
  | VNum (Fin q) => Number_toString q
  | VNum _ => js "null"
  | VStr s => quote s
  | VArr l =>
      ch "[" ::
      (fix elements (l : list value) : jsstring :=
         match l with
         | [] => []
         | [v] => serialize v
         | v :: l' => serialize v ++ ch "," :: elements l'
         end) l
      ++ [ch "]"]
  | VObj o =>
      ch "{" ::
      (fix members (first : bool) (o : list (jsstring * value)) : jsstring :=
         match o with
         | [] => []
         | (_, VUndefined) :: o' => members first o'
         | (k, v) :: o' =>
             (if first then [] else [ch ","])
             ++ quote k ++ ch ":" :: serialize v ++ members false o'
         end) true o
      ++ [ch "}"]
  end.

(** [JSON.stringify(v)]; [None] is the result [undefined]. *)
Definition stringify (v : value) : option jsstring :=
  match v with
  | VUndefined => None
  | _ => Some (serialize v)
  end.

Definition is_ws (c : N) : bool :=
  ((c =? 32) || (c =? 9) || (c =? 10) || (c =? 13))%N.

Fixpoint skip_ws (s : jsstring) : jsstring :=
  match s with
  | c :: r => if is_ws c then skip_ws r else s
  | [] => []
  end.

Definition hex_val (c : N) : option N :=
  (if is_digit c then Some (c - 48)
   else if (97 <=? c) && (c <=? 102) then Some (c - 87)
   else if (65 <=? c) && (c <=? 70) then Some (c - 55)
   else None)%N.

Definition hex4 (a b c d : N) : option N :=
  match hex_val a, hex_val b, hex_val c, hex_val d with
  | Some a, Some b, Some c, Some d => Some (a * 4096 + b * 256 + c * 16 + d)%N
  | _, _, _, _ => None
  end.

(** The characters of a string literal after its opening quote. *)
Fixpoint parse_chars (s : jsstring) : option (jsstring * jsstring) :=
  let cons c r :=
    match r with Some (t, rest) => Some (c :: t, rest) | None => None end in
  match s with
  | [] => None
  | c :: r =>
      if (c =? 34)%N then Some ([], r)
      else if (c =? ch "\")%N then
        match r with
        | [] => None
        | e :: r1 =>
            if (e =? 34)%N || (e =? ch "\")%N || (e =? ch "/")%N
            then cons e (parse_chars r1)
            else if (e =? ch "b")%N then cons 8%N (parse_chars r1)
            else if (e =? ch "t")%N then cons 9%N (parse_chars r1)
            else if (e =? ch "n")%N then cons 10%N (parse_chars r1)
            else if (e =? ch "f")%N then cons 12%N (parse_chars r1)
            else if (e =? ch "r")%N then cons 13%N (parse_chars r1)
            else if (e =? ch "u")%N then
              match r1 with
              | h1 :: h2 :: h3 :: h4 :: r2 =>
                  match hex4 h1 h2 h3 h4 with
                  | Some u => cons u (parse_chars r2)
                  | None => None
                  end
              | _ => None
              end
            else None
        end
      else if (c <? 32)%N then None
      else cons c (parse_chars r)
  end.

(** A number literal at the head of [s]. *)
Definition parse_number (s : jsstring) : option (Qc * jsstring) :=
  let '(neg, s0) := read_sign false s in
  let '(ip, s1) := span is_digit s0 in
  let int_ok :=
    match ip with
    | [] => false
    | [_] => true
    | c :: _ => negb (c =? 48)%N
    end in
  if int_ok then
    match
      match s1 with
      | c :: r =>
          if (c =? ch ".")%N then
            match span is_digit r with
            | ([], _) => None
            | (fp, s2) => Some (fp, s2)
            end
          else Some ([], s1)
      | [] => Some ([], s1)
      end
    with
    | Some (fp, s2) =>
        let '(e, s3) := read_exponent s2 in
        Some (decimal neg (digits_val (ip ++ fp)) (e - Z.of_nat (length fp)), s3)
    | None => None
    end
  else None.

Definition parse_literal (lit : jsstring) (v : value) (s : jsstring)
  : option (value * jsstring) :=
  if starts_with lit s then Some (v, drop (length lit) s) else None.

Fixpoint parse_value (fuel : nat) (s : jsstring) : option (value * jsstring) :=
  match fuel with
  | O => None
  | S fuel =>
      match skip_ws s with
      | [] => None
      | c :: r =>
          if (c =? ch "{")%N then
            match skip_ws r with
            | c' :: r' =>
                if (c' =? ch "}")%N then Some (VObj [], r')
                else
                  match parse_members fuel r with
                  | Some (o, rest) => Some (VObj o, rest)
                  | None => None
                  end
            | [] => None
            end
          else if (c =? ch "[")%N then
            match skip_ws r with
            | c' :: r' =>
                if (c' =? ch "]")%N then Some (VArr [], r')
                else
                  match parse_elements fuel r with
                  | Some (l, rest) => Some (VArr l, rest)
                  | None => None
                  end
            | [] => None
            end
          else if (c =? 34)%N then
            match parse_chars r with
            | Some (t, rest) => Some (VStr t, rest)
            | None => None
            end
          else if (c =? ch "t")%N then parse_literal (js "true") (VBool true) (c :: r)
          else if (c =? ch "f")%N then parse_literal (js "false") (VBool false) (c :: r)
          else if (c =? ch "n")%N then parse_literal (js "null") VNull (c :: r)
          else
            match parse_number (c :: r) with
            | Some (q, rest) => Some (VNum (Fin q), rest)
            | None => None
            end
      end
  end
with parse_elements (fuel : nat) (s : jsstring) : option (list value * jsstring) :=
  match fuel with
  | O => None
  | S fuel =>
      match parse_value fuel s with
      | Some (v, r) =>
          match skip_ws r with
          | c :: r' =>
              if (c =? ch ",")%N then
                match parse_elements fuel r' with
                | Some (l, rest) => Some (v :: l, rest)
                | None => None
                end
              else if (c =? ch "]")%N then Some ([v], r')
              else None
          | [] => None
          end
      | None => None
      end
  end
with parse_members (fuel : nat) (s : jsstring)
  : option (list (jsstring * value) * jsstring) :=
  match fuel with
  | O => None
  | S fuel =>
      match skip_ws s with
      | c :: r =>
          if (c =? 34)%N then
            match parse_chars r with
            | Some (k, r0) =>
                match skip_ws r0 with
                | c0 :: r1 =>
                    if (c0 =? ch ":")%N then
                      match parse_value fuel r1 with
                      | Some (v, r2) =>
                          match skip_ws r2 with
                          | c2 :: r3 =>
                              if (c2 =? ch ",")%N then
                                match parse_members fuel r3 with
                                | Some (o, rest) => Some ((k, v) :: o, rest)
                                | None => None
                                end
                              else if (c2 =? ch "}")%N then Some ([(k, v)], r3)
                              else None
                          | [] => None
                          end
                      | None => None
                      end
                    else None
                | [] => None
                end
            | None => None
            end
          else None
      | [] => None
      end
  end.

(** Properties in source order; a repeated name keeps its first place and
    takes the last value. *)
Definition build_object (o : list (jsstring * value)) : list (jsstring * value) :=
  fold_left (fun acc '(k, v) => obj_set k v acc) o [].

Fixpoint normalize (v : value) : value :=
  match v with
  | VArr l => VArr (map normalize l)
  | VObj o => VObj (build_object (map (fun '(k, v) => (k, normalize v)) o))
  | _ => v
  end.

(** [JSON.parse(s)]; [None] is a thrown [SyntaxError]. *)
Definition parse (s : jsstring) : option value :=
  match parse_value (S (length s)) s with
  | Some (v, rest) =>
      match skip_ws rest with
      | [] => Some (normalize v)
      | _ => None
      end
  | None => None
  end.

End Json.

(** ** Settings and their defaults *)


(** The settings cached in memory ([let phoneNumber = ...] and so on). *)
Record Config := {
  phoneNumber : jsstring;
  vipCode : jsstring;
  vipGreeting : jsstring;
  useWhatsApp : bool;
  paymentMethods : list jsstring;
  carCategories : list (jsstring * number);
  extras : list (jsstring * number);
  depositPercent : number;
  adminEmail : jsstring
}.

Definition DEFAULTS : Config := {|
  phoneNumber := js "+302101234567";
  vipCode := js "VIP2025";
  vipGreeting := js "Καλώς ήρθες VIP επισκέπτη!";
  useWhatsApp := false;
  paymentMethods :=
    [ js "Πληρωμή στην παραλαβή"; js "Κάρτα (Stripe)"; js "PayPal";
      js "Κατάθεση σε Τράπεζα"; js "Apple Pay"; js "Google Pay";
      js "Revolut"; js "Viva Wallet"; js "Crypto" ];
  carCategories := [ (js "Economy", (num 30)); (js "SUV", (num 50)); (js "Luxury", (num 90)) ];
  extras :=
    [ (js "GPS", (num 5)); (js "Παιδικό Κάθισμα", (num 6));
      (js "Πρόσθετος Οδηγός", (num 7)); (js "Πλήρης Ασφάλεια", (num 10)) ];
  depositPercent := (num 30);
  adminEmail := js "info@miracars.example.com"
|}.

Definition PAYMENT_INSTRUCTIONS : list (jsstring * jsstring) :=
  [ (js "Πληρωμή στην παραλαβή",
     js "Καμία προπληρωμή – πληρώνετε το πλήρες ποσό κατά την παραλαβή του οχήματος.");
    (js "Κάρτα (Stripe)",
     js "Θα λάβετε σύνδεσμο πληρωμής μέσω email για να ολοκληρώσετε την προκαταβολή με κάρτα μέσω Stripe.");
    (js "PayPal",
     js "Θα σας σταλεί σύνδεσμος PayPal για την πληρωμή της προκαταβολής.");
    (js "Κατάθεση σε Τράπεζα",
     js "Θα σας δοθούν τα στοιχεία IBAN για την τραπεζική κατάθεση.");
    (js "Apple Pay",
     js "Θα σας σταλεί αίτημα Apple Pay για την πληρωμή της προκαταβολής.");
    (js "Google Pay",
     js "Θα λάβετε σύνδεσμο Google Pay για την πληρωμή.");
    (js "Revolut",
     js "Θα σας σταλεί σύνδεσμος πληρωμής Revolut.");
    (js "Viva Wallet",
     js "Θα σας δοθεί σύνδεσμος Viva Wallet για την προκαταβολή.");
    (js "Crypto",
     js "Θα σας δοθεί διεύθυνση πορτοφολιού (BTC/ETH) για πληρωμή σε κρυπτονομίσματα.") ].

Definition GENERIC_INSTRUCTIONS : jsstring :=
  js "Θα επικοινωνήσουμε μαζί σας για λεπτομέρειες πληρωμής.".

Definition PRICE_PROMPT : jsstring :=
  js "Επιλέξτε ημερομηνίες και κατηγορία οχήματος για να υπολογίσετε την τιμή.".

(** ** Pricing engine *)

(** [x || 0] for the result [x] of a price lookup. *)
Definition or_zero (x : option number) : number :=
  match x with
  | Some n => if Num.truthy n then n else (num 0)
  | None => (num 0)
  end.

(** [x || fallback] for the result of a string lookup. *)
Definition or_string (x : option jsstring) (fallback : jsstring) : jsstring :=
  match x with
  | Some s => if nonempty s then s else fallback
  | None => fallback
  end.

(** [1000 * 60 * 60 * 24] *)
Definition MS_PER_DAY : number :=
  Num.mul (Num.mul (Num.mul (num 1000) (num 60)) (num 60)) (num 24).

(** The fields of the booking form read by the two handlers. *)
Record BookingForm := {
  f_name : jsstring;
  f_email : jsstring;
  f_phone : jsstring;
  f_pickup : jsstring;
  f_dropoff : jsstring;
  f_category : jsstring;
  f_payment : jsstring;
  f_notes : jsstring;
  f_checked : list jsstring
}.

(** The locals that the price summary renders, and which of its optional
    lines it has. *)
Record Summary := {
  s_days : number;
  s_category : jsstring;
  s_basePricePerDay : number;
  s_baseTotal : number;
  s_selectedExtras : list jsstring;
  s_extrasTotal : number;
  s_extrasLine : bool;
  s_total : number;
  s_depositAmount : number;
  s_depositLine : bool;
  s_payment : option (jsstring * jsstring)
}.

(** Content of [#price-summary] after [calculatePrice]. *)
Inductive PriceSummary :=
| Prompt (message : jsstring)
| Shown (s : Summary).

(** The locals that the booking mail renders, and which of its optional
    lines it has. *)
Record BookingMail := {
  m_name : jsstring;
  m_email : jsstring;
  m_phone : jsstring;
  m_category : jsstring;
  m_extras : list jsstring;
  m_pickup : jsstring;
  m_dropoff : jsstring;
  m_days : number;
  m_basePerDay : number;
  m_baseTotal : number;
  m_extrasTotal : number;
  m_extrasLine : bool;
  m_total : number;
  m_depositAmount : number;
  m_depositLine : bool;
  m_payment : jsstring;
  m_notes : option jsstring;
  m_to : jsstring
}.

Section Host.

(** [Date.parse] of the host: the time value in milliseconds, [None] for
    an invalid date. *)
Variable Date_parse : jsstring -> option Z.

(** Time value of [new Date(s)]. *)
Definition new_Date (s : jsstring) : number :=
  match Date_parse s with
  | Some t => (num t)
  | None => NaN
  end.

Definition calculatePrice (cfg : Config) (f : BookingForm) : PriceSummary :=
  let pickup := if nonempty (f_pickup f) then Some (new_Date (f_pickup f)) else None in
  let dropoff := if nonempty (f_dropoff f) then Some (new_Date (f_dropoff f)) else None in
  let category := f_category f in
  let payment := f_payment f in
  match pickup, dropoff, nonempty category with
  | Some pickup, Some dropoff, true =>
      let days := Num.Math_ceil (Num.div (Num.sub dropoff pickup) MS_PER_DAY) in
      let days := if negb (Num.isFinite days) || Num.lt days (num 1) then (num 1) else days in
      let basePricePerDay := or_zero (obj_get category (carCategories cfg)) in
      let baseTotal := Num.mul basePricePerDay days in
      let '(extrasTotal, selectedExtras) :=
        fold_left
          (fun '(extrasTotal, selectedExtras) key =>
             let price := or_zero (obj_get key (extras cfg)) in
             (Num.add extrasTotal (Num.mul price days), selectedExtras ++ [key]))
          (f_checked f) ((num 0), []) in
      let subTotal := Num.add baseTotal extrasTotal in
      let depositAmount :=
        if Num.gt (depositPercent cfg) (num 0)
        then Num.div
               (Num.Math_round
                  (Num.mul (Num.div (Num.mul subTotal (depositPercent cfg)) (num 100)) (num 100)))
               (num 100)
        else (num 0) in
      let total := Num.div (Num.Math_round (Num.mul subTotal (num 100))) (num 100) in
      Shown {|
        s_days := days;
        s_category := category;
        s_basePricePerDay := basePricePerDay;
        s_baseTotal := baseTotal;
        s_selectedExtras := selectedExtras;
        s_extrasTotal := extrasTotal;
        s_extrasLine := (0 <? length selectedExtras)%nat;
        s_total := total;
        s_depositAmount := depositAmount;
        s_depositLine := Num.gt (depositPercent cfg) (num 0);
        s_payment :=
          if nonempty payment
          then Some (payment,
                     or_string (obj_get payment PAYMENT_INSTRUCTIONS)
                       GENERIC_INSTRUCTIONS)
          else None
      |}
  | _, _, _ => Prompt PRICE_PROMPT
  end.

Definition handleBookingSubmit (cfg : Config) (f : BookingForm) : BookingMail :=
  let name := trim (f_name f) in
  let email := trim (f_email f) in
  let phone := trim (f_phone f) in
  let pickup := f_pickup f in
  let dropoff := f_dropoff f in
  let category := f_category f in
  let payment := f_payment f in
  let notes := trim (f_notes f) in
  let selectedExtras := f_checked f in
  let startDate := if nonempty pickup then Some (new_Date pickup) else None in
  let endDate := if nonempty dropoff then Some (new_Date dropoff) else None in
  let days :=
    match startDate, endDate with
    | Some startDate, Some endDate =>
        let days := Num.Math_ceil (Num.div (Num.sub endDate startDate) MS_PER_DAY) in
        if negb (Num.isFinite days) || Num.lt days (num 1) then (num 1) else days
    | _, _ => (num 1)
    end in
  let basePerDay := or_zero (obj_get category (carCategories cfg)) in
  let baseTotal := Num.mul basePerDay days in
  let extrasTotal :=
    fold_left
      (fun extrasTotal ex =>
         Num.add extrasTotal (Num.mul (or_zero (obj_get ex (extras cfg))) days))
      selectedExtras (num 0) in
  let subtotal := Num.add baseTotal extrasTotal in
  let depositAmount :=
    if Num.gt (depositPercent cfg) (num 0)
    then Num.div
           (Num.Math_round
              (Num.mul (Num.div (Num.mul subtotal (depositPercent cfg)) (num 100)) (num 100)))
           (num 100)
    else (num 0) in
  let total := Num.div (Num.Math_round (Num.mul subtotal (num 100))) (num 100) in
  {|
    m_name := name;
    m_email := email;
    m_phone := phone;
    m_category := category;
    m_extras := selectedExtras;
    m_pickup := pickup;
    m_dropoff := dropoff;
    m_days := days;
    m_basePerDay := basePerDay;
    m_baseTotal := baseTotal;
    m_extrasTotal := extrasTotal;
    m_extrasLine := Num.gt extrasTotal (num 0);
    m_total := total;
    m_depositAmount := depositAmount;
    m_depositLine := Num.gt (depositPercent cfg) (num 0);
    m_payment := payment;
    m_notes := if nonempty notes then Some notes else None;
    m_to := adminEmail cfg
  |}.

End Host.

(** ** Configuration store *)

Abbreviation Storage := (gmap jsstring jsstring).

Module localStorage.

Definition getItem (ls : Storage) (key : jsstring) : option jsstring := ls !! key.

Definition setItem (ls : Storage) (key value : jsstring) : Storage :=
<[key := value]> ls.

Definition removeItem (ls : Storage) (key : jsstring) : Storage := delete key ls.

End localStorage.

Definition strings_value (l : list jsstring) : value := VArr (map VStr l).

Definition prices_value (o : list (jsstring * number)) : value :=
  VObj (map (fun '(k, n) => (k, VNum n)) o).

(** The object literal [DEFAULTS] as a dictionary of values. *)
Definition DEFAULTS_object : list (jsstring * value) :=
  [ (js "phoneNumber", VStr (phoneNumber DEFAULTS));
    (js "vipCode", VStr (vipCode DEFAULTS));
    (js "vipGreeting", VStr (vipGreeting DEFAULTS));
    (js "useWhatsApp", VBool (useWhatsApp DEFAULTS));
    (js "paymentMethods", strings_value (paymentMethods DEFAULTS));
    (js "carCategories", prices_value (carCategories DEFAULTS));
    (js "extras", prices_value (extras DEFAULTS));
    (js "depositPercent", VNum (depositPercent DEFAULTS));
    (js "adminEmail", VStr (adminEmail DEFAULTS)) ].

(** [DEFAULTS[key]] *)
Definition DEFAULTS_get (key : jsstring) : value :=
  match obj_get key DEFAULTS_object with
  | Some v => v
  | None => VUndefined
  end.

Definition loadSetting (ls : Storage) (key : jsstring) : value :=
  match localStorage.getItem ls key with
  | Some stored =>
      if nonempty stored then
        match Json.parse stored with
        | Some v => v
        | None => VStr stored
        end
      else DEFAULTS_get key
  | None => DEFAULTS_get key
  end.

(** [setItem] stores the string conversion of its argument. *)
Definition saveSetting (ls : Storage) (key : jsstring) (v : value) : Storage :=
  localStorage.setItem ls key
    (match Json.stringify v with
     | Some text => text
     | None => js "undefined"
     end).

(** ** Admin authentication *)

Inductive ui_event :=
| Alert (message : jsstring)
| UpdateAuthNav (loggedIn : bool)
| OpenLogin
| CloseLogin
| CloseSettings
| RefreshBooking.

Definition getAdminPassword (ls : Storage) : option jsstring :=
  match localStorage.getItem ls (js "adminPassword") with
  | Some pwd => if nonempty pwd then Some pwd else None
  | None => None
  end.

Definition setAdminPassword (ls : Storage) (pwd : jsstring) : Storage :=
  localStorage.setItem ls (js "adminPassword") pwd.

Definition isAdminLoggedIn (ls : Storage) : bool :=
  bool_decide (localStorage.getItem ls (js "isAdmin") = Some (js "true")).

Definition setAdminLoggedIn (ls : Storage) (flag : bool) : Storage :=
  if flag then localStorage.setItem ls (js "isAdmin") (js "true")
  else localStorage.removeItem ls (js "isAdmin").

(** The form that [renderLoginContent] puts into the login modal. *)
Inductive LoginForm :=
| SetupForm
| PasswordForm.

Definition renderLoginContent (ls : Storage) : LoginForm :=
  match getAdminPassword ls with
  | None => SetupForm
  | Some _ => PasswordForm
  end.

(** Submit handler of the first-time form; [value] is the content of
    [#new-password]. *)
Definition setup_submit (ls : Storage) (value : jsstring) : Storage * list ui_event :=
  let newPwd := trim value in
  if (length newPwd <? 4)%nat then
    (ls, [Alert (js "Ο κωδικός πρέπει να έχει τουλάχιστον 4 χαρακτήρες.")])
  else
    let ls := setAdminPassword ls newPwd in
    let ls := setAdminLoggedIn ls true in
    (ls, [UpdateAuthNav (isAdminLoggedIn ls); CloseLogin;
          Alert (js "Ο κωδικός αποθηκεύτηκε. Έχετε συνδεθεί ως διαχειριστής.")]).

(** Submit handler of the login form; [entered] is the content of
    [#admin-password]. *)
Definition login_submit (ls : Storage) (entered : jsstring) : Storage * list ui_event :=
  let stored := getAdminPassword ls in
  if bool_decide (Some entered = stored) then
    let ls := setAdminLoggedIn ls true in
    (ls, [UpdateAuthNav (isAdminLoggedIn ls); CloseLogin;
          Alert (js "Επιτυχής σύνδεση.")])
  else (ls, [Alert (js "Λάθος κωδικός.")]).

(** Click handler of the biometric button of the login form. *)
Definition bio_login (ls : Storage) : Storage * list ui_event :=
  let ls := setAdminLoggedIn ls true in
  (ls, [Alert (js "Προσομοίωση βιομετρικής σύνδεσης: Έγκριση...");
        UpdateAuthNav (isAdminLoggedIn ls); CloseLogin]).

Definition toggleAuth (ls : Storage) : Storage * list ui_event :=
  if isAdminLoggedIn ls then
    let ls := setAdminLoggedIn ls false in
    (ls, [UpdateAuthNav (isAdminLoggedIn ls); Alert (js "Αποσυνδεθήκατε.");
          CloseSettings])
  else (ls, [OpenLogin]).

(** Submitting the form that the login modal shows for the store [ls]. *)
Definition submit_login (ls : Storage) (value : jsstring) : Storage * list ui_event :=
  match renderLoginContent ls with
  | SetupForm => setup_submit ls value
  | PasswordForm => login_submit ls value
  end.

(** ** Settings panel *)

Record State := {
  config : Config;
  storage : Storage
}.

(** Contents of the three inputs of the panel and the answers to the six
    prompts, [None] for a cancelled prompt. *)
Record SettingsInput := {
  phone_input : jsstring;
  vip_input : jsstring;
  greeting_input : jsstring;
  pay : option jsstring;
  catInput : option jsstring;
  extrasInput : option jsstring;
  depInput : option jsstring;
  emailPrompt : option jsstring;
  waInput : option jsstring
}.

(** Truthiness of a prompt answer. *)
Definition answered (a : option jsstring) : option jsstring :=
  match a with
  | Some s => if nonempty s then Some s else None
  | None => None
  end.

(** The loop over [input.split(',')] that fills [newCats] / [newExtras]. *)
Definition parse_prices (input : jsstring) : list (jsstring * number) :=
  fold_left
    (fun acc pair =>
       let parts := map trim (split (ch ":") pair) in
       let name := parts !! 0%nat in
       let price := parts !! 1%nat in
       match answered name, answered price with
       | Some name, Some price =>
           if negb (Num.isNaN (parseFloat price))
           then obj_set name (parseFloat price) acc
           else acc
       | _, _ => acc
       end)
    (split (ch ",") input) [].

Definition set_phoneNumber (v : jsstring) (c : Config) : Config :=
  {| phoneNumber := v; vipCode := vipCode c; vipGreeting := vipGreeting c;
     useWhatsApp := useWhatsApp c; paymentMethods := paymentMethods c;
     carCategories := carCategories c; extras := extras c;
     depositPercent := depositPercent c; adminEmail := adminEmail c |}.

Definition set_vipCode (v : jsstring) (c : Config) : Config :=
  {| phoneNumber := phoneNumber c; vipCode := v; vipGreeting := vipGreeting c;
     useWhatsApp := useWhatsApp c; paymentMethods := paymentMethods c;
     carCategories := carCategories c; extras := extras c;
     depositPercent := depositPercent c; adminEmail := adminEmail c |}.

Definition set_vipGreeting (v : jsstring) (c : Config) : Config :=
  {| phoneNumber := phoneNumber c; vipCode := vipCode c; vipGreeting := v;
     useWhatsApp := useWhatsApp c; paymentMethods := paymentMethods c;
     carCategories := carCategories c; extras := extras c;
     depositPercent := depositPercent c; adminEmail := adminEmail c |}.

Definition set_useWhatsApp (v : bool) (c : Config) : Config :=
  {| phoneNumber := phoneNumber c; vipCode := vipCode c; vipGreeting := vipGreeting c;
     useWhatsApp := v; paymentMethods := paymentMethods c;
     carCategories := carCategories c; extras := extras c;
     depositPercent := depositPercent c; adminEmail := adminEmail c |}.

Definition set_paymentMethods (v : list jsstring) (c : Config) : Config :=
  {| phoneNumber := phoneNumber c; vipCode := vipCode c; vipGreeting := vipGreeting c;
     useWhatsApp := useWhatsApp c; paymentMethods := v;
     carCategories := carCategories c; extras := extras c;
     depositPercent := depositPercent c; adminEmail := adminEmail c |}.

Definition set_carCategories (v : list (jsstring * number)) (c : Config) : Config :=
  {| phoneNumber := phoneNumber c; vipCode := vipCode c; vipGreeting := vipGreeting c;
     useWhatsApp := useWhatsApp c; paymentMethods := paymentMethods c;
     carCategories := v; extras := extras c;
     depositPercent := depositPercent c; adminEmail := adminEmail c |}.

Definition set_extras (v : list (jsstring * number)) (c : Config) : Config :=
  {| phoneNumber := phoneNumber c; vipCode := vipCode c; vipGreeting := vipGreeting c;
     useWhatsApp := useWhatsApp c; paymentMethods := paymentMethods c;
     carCategories := carCategories c; extras := v;
     depositPercent := depositPercent c; adminEmail := adminEmail c |}.

Definition set_depositPercent (v : number) (c : Config) : Config :=
  {| phoneNumber := phoneNumber c; vipCode := vipCode c; vipGreeting := vipGreeting c;
     useWhatsApp := useWhatsApp c; paymentMethods := paymentMethods c;
     carCategories := carCategories c; extras := extras c;
     depositPercent := v; adminEmail := adminEmail c |}.

Definition set_adminEmail (v : jsstring) (c : Config) : Config :=
  {| phoneNumber := phoneNumber c; vipCode := vipCode c; vipGreeting := vipGreeting c;
     useWhatsApp := useWhatsApp c; paymentMethods := paymentMethods c;
     carCategories := carCategories c; extras := extras c;
     depositPercent := depositPercent c; adminEmail := v |}.

(** Assignment to a cached setting. *)
Definition assign (f : Config -> Config) (st : State) : State :=
  {| config := f (config st); storage := storage st |}.

(** [saveSetting(key, v)] on the store of [st]. *)
Definition persist (key : jsstring) (v : value) (st : State) : State :=
  {| config := config st; storage := saveSetting (storage st) key v |}.

(** The blocks of [saveSettings], in source order. *)

(** The three inputs of the panel. *)
Definition edit_basic (i : SettingsInput) (st : State) : State :=
  let st := assign (set_phoneNumber
                      (or_string (Some (trim (phone_input i))) (phoneNumber DEFAULTS))) st in
  let st := assign (set_vipCode
                      (or_string (Some (trim (vip_input i))) (vipCode DEFAULTS))) st in
  assign (set_vipGreeting
            (or_string (Some (trim (greeting_input i))) (vipGreeting DEFAULTS))) st.

(** Payment methods: a comma-separated list of names. *)
Definition edit_paymentMethods (i : SettingsInput) (st : State) : State :=
  match answered (pay i) with
  | Some pay =>
      let st := assign (set_paymentMethods
                          (filter (fun m => nonempty m = true)
                             (map trim (split (ch ",") pay)))) st in
      persist (js "paymentMethods") (strings_value (paymentMethods (config st))) st
  | None => st
  end.

(** Car categories with prices per day. *)
Definition edit_carCategories (i : SettingsInput) (st : State) : State :=
  match answered (catInput i) with
  | Some catInput =>
      let newCats := parse_prices catInput in
      if (0 <? length (obj_keys newCats))%nat then
        let st := assign (set_carCategories newCats) st in
        persist (js "carCategories") (prices_value (carCategories (config st))) st
      else st
  | None => st
  end.

(** Extras with prices per day. *)
Definition edit_extras (i : SettingsInput) (st : State) : State :=
  match answered (extrasInput i) with
  | Some extrasInput =>
      let newExtras := parse_prices extrasInput in
      if (0 <? length (obj_keys newExtras))%nat then
        let st := assign (set_extras newExtras) st in
        persist (js "extras") (prices_value (extras (config st))) st
      else st
  | None => st
  end.

(** Deposit percentage. *)
Definition edit_depositPercent (i : SettingsInput) (st : State) : State :=
  match depInput i with
  | Some depInput =>
      let parsed := parseFloat depInput in
      if negb (Num.isNaN parsed) && Num.ge parsed (num 0) && Num.le parsed (num 100) then
        let st := assign (set_depositPercent parsed) st in
        persist (js "depositPercent") (VNum (depositPercent (config st))) st
      else st
  | None => st
  end.

(** Admin email. *)
Definition edit_adminEmail (i : SettingsInput) (st : State) : State :=
  match answered (emailPrompt i) with
  | Some emailPrompt =>
      let st := assign (set_adminEmail (trim emailPrompt)) st in
      persist (js "adminEmail") (VStr (adminEmail (config st))) st
  | None => st
  end.

(** Persist basic settings. *)
Definition persist_basic (st : State) : State :=
  let st := persist (js "phoneNumber") (VStr (phoneNumber (config st))) st in
  let st := persist (js "vipCode") (VStr (vipCode (config st))) st in
  persist (js "vipGreeting") (VStr (vipGreeting (config st))) st.

(** WhatsApp usage. *)
Definition edit_useWhatsApp (i : SettingsInput) (st : State) : State :=
  let st :=
    match waInput i with
    | Some waInput =>
        let lowered := trim (toLowerCase waInput) in
        assign (set_useWhatsApp
                  (bool_decide (lowered = js "ναι") || bool_decide (lowered = js "yes"))) st
    | None => st
    end in
  persist (js "useWhatsApp") (VBool (useWhatsApp (config st))) st.

Definition saveSettings (i : SettingsInput) (st : State) : State * list ui_event :=
  let st := edit_basic i st in
  let st := edit_paymentMethods i st in
  let st := edit_carCategories i st in
  let st := edit_extras i st in
  let st := edit_depositPercent i st in
  let st := edit_adminEmail i st in
  let st := persist_basic st in
  let st := edit_useWhatsApp i st in
  (st, [RefreshBooking; Alert (js "Οι ρυθμίσεις αποθηκεύτηκαν."); CloseSettings]).

(** The state of a first visit: nothing stored, every setting at its default. *)
Definition initial_state : State := {| config := DEFAULTS; storage := ∅ |}.

(** The state after a series of visits to the settings panel. *)
Definition run_settings (visits : list SettingsInput) (st : State) : State :=
  fold_left (fun st i => (saveSettings i st).1) visits st.

(** ** A host date parser

    [Date.parse] restricted to the date-only form [YYYY-MM-DD] that a date
    input yields: midnight UTC of that day.  It instantiates [Date_parse]
    in concrete runs. *)

Definition days_from_civil (y m d : Z) : Z :=
  let y := if m <=? 2 then y - 1 else y in
  let era := y / 400 in
  let yoe := y - era * 400 in
  let doy := (153 * (if 2 <? m then m - 3 else m + 9) + 2) / 5 + d - 1 in
  let doe := yoe * 365 + yoe / 4 - yoe / 100 + doy in
  era * 146097 + doe - 719468.

Definition is_leap (y : Z) : bool :=
  (y mod 4 =? 0) && (negb (y mod 100 =? 0) || (y mod 400 =? 0)).

Definition days_in_month (y m : Z) : Z :=
  if m =? 2 then (if is_leap y then 29 else 28)
  else if (m =? 4) || (m =? 6) || (m =? 9) || (m =? 11) then 30
  else 31.

Definition Date_parse_iso (s : jsstring) : option Z :=
  match s with
  | [y1; y2; y3; y4; h1; m1; m2; h2; d1; d2] =>
      if forallb is_digit [y1; y2; y3; y4; m1; m2; d1; d2]
         && (h1 =? ch "-")%N && (h2 =? ch "-")%N
      then
        let y := Z.of_N (digits_val [y1; y2; y3; y4]) in
        let m := Z.of_N (digits_val [m1; m2]) in
        let d := Z.of_N (digits_val [d1; d2]) in
        if (1 <=? m) && (m <=? 12) && (1 <=? d) && (d <=? days_in_month y m)
        then Some (days_from_civil y m d * 86400000)
        else None
      else None
  | _ => None
  end.

(** ** Notions of the specification *)

(** Least integer [k] with [x <= k * y]. *)
Definition ceil_div (x y : Z) : Z := - ((- x) / y).

(** A date field as the specification sees it: absent, or parsed by the
    host. *)
Definition parsed_date (Date_parse : jsstring -> option Z) (s : jsstring) : option Z :=
  if nonempty s then Date_parse s else None.

(** Day count of the specification. *)
Definition spec_dayCount (pickup dropoff : option Z) : Z :=
  match pickup, dropoff with
  | Some p, Some d => if p <? d then ceil_div (d - p) 86400000 else 1
  | _, _ => 1
  end.

(** Rounding to two decimal places, half up. *)
Definition spec_round2 (x : Qc) : Qc :=
  (Qc_of_Z (Qfloor (x * Qc_of_Z 100 + Q2Qc (1 # 2))%Qc) / Qc_of_Z 100)%Qc.

Definition round2 (x : number) : number :=
  match x with
  | Fin q => Fin (spec_round2 q)
  | _ => x
  end.

(** Saturation of [x] to the interval from [lo] to [hi]. *)
Definition clamp (lo hi x : number) : number :=
  if Num.lt x lo then lo else if Num.gt x hi then hi else x.

Definition in_percent_range (x : number) : Prop :=
  exists q : Qc, x = Fin q /\ (Qc_of_Z 0 <= q)%Qc /\ (q <= Qc_of_Z 100)%Qc.

(** The five price components of a quote. *)
Record PriceComponents := {
  pc_days : number;
  pc_base : number;
  pc_extras : number;
  pc_deposit : number;
  pc_total : number
}.

Definition summary_components (s : Summary) : PriceComponents :=
  {| pc_days := s_days s; pc_base := s_baseTotal s; pc_extras := s_extrasTotal s;
     pc_deposit := s_depositAmount s; pc_total := s_total s |}.

Definition mail_components (m : BookingMail) : PriceComponents :=
  {| pc_days := m_days m; pc_base := m_baseTotal m; pc_extras := m_extrasTotal m;
     pc_deposit := m_depositAmount m; pc_total := m_total m |}.

(** Total and deposit of the specification for base price and extras
    price of [pc]. *)
Definition priced (cfg : Config) (pc : PriceComponents) : Prop :=
  let subtotal := Num.add (pc_base pc) (pc_extras pc) in
  pc_total pc = round2 subtotal
  /\ pc_deposit pc =
       (if Num.gt (depositPercent cfg) (num 0)
        then round2 (Num.div (Num.mul subtotal (depositPercent cfg)) (num 100))
        else num 0).


(** The states of the admin authentication machine. *)
Inductive AuthState :=
| NoPasswordSet
| LoggedOut
| LoggedIn.

Definition auth_state (ls : Storage) : AuthState :=
  if isAdminLoggedIn ls then LoggedIn
  else
    match getAdminPassword ls with
    | None => NoPasswordSet
    | Some _ => LoggedOut
    end.

(** Values that the store is specified to give back: finite numbers,
    booleans, strings, [null], and sequences and mappings of such values,
    a mapping having no repeated name. *)
Fixpoint supported (v : value) : Prop :=
  match v with
  | VUndefined => False
  | VNull | VBool _ | VStr _ => True
  | VNum n => exists q, n = Fin q /\ is_decimal q
  | VArr l => (fix all (l : list value) : Prop :=
                 match l with
                 | [] => True
                 | v :: l' => supported v /\ all l'
                 end) l
  | VObj o => NoDup (obj_keys o)
              /\ (fix all (o : list (jsstring * value)) : Prop :=
                    match o with
                    | [] => True
                    | (_, v) :: o' => supported v /\ all o'
                    end) o
  end.

(** One [name:price] item of the categories or extras prompt counts when
    it has a name, a price, and the price parses as a number. *)
Definition pair_counts (pair : jsstring) : bool :=
  let parts := map trim (split (ch ":") pair) in
  match parts !! 0%nat, parts !! 1%nat with
  | Some name, Some price =>
      nonempty name && nonempty price && negb (Num.isNaN (parseFloat price))
  | _, _ => false
  end.



(** ** Auxiliary definitions *)

(** The day count that both handlers compute from two time values. *)
Definition day_count (pickup dropoff : number) : number :=
  let days := Num.Math_ceil (Num.div (Num.sub dropoff pickup) MS_PER_DAY) in
  if negb (Num.isFinite days) || Num.lt days (num 1) then num 1 else days.

(** The extras price that both handlers accumulate. *)
Definition extras_total (cfg : Config) (days : number) (checked : list jsstring)
  (start : number) : number :=
  fold_left
    (fun acc ex => Num.add acc (Num.mul (or_zero (obj_get ex (extras cfg))) days))
    checked start.

(** The price components that both handlers compute for a day count. *)
Definition quote_components (cfg : Config) (days : number) (category : jsstring)
  (checked : list jsstring) : PriceComponents :=
  let base := Num.mul (or_zero (obj_get category (carCategories cfg))) days in
  let ex := extras_total cfg days checked (num 0) in
  let subtotal := Num.add base ex in
  {| pc_days := days;
     pc_base := base;
     pc_extras := ex;
     pc_deposit :=
       if Num.gt (depositPercent cfg) (num 0)
       then Num.div
              (Num.Math_round
                 (Num.mul (Num.div (Num.mul subtotal (depositPercent cfg)) (num 100))
                    (num 100)))
              (num 100)
       else num 0;
     pc_total := Num.div (Num.Math_round (Num.mul subtotal (num 100))) (num 100) |}.

(** Day count of the booking handler, which also covers absent dates. *)
Definition booking_days (Date_parse : jsstring -> option Z) (f : BookingForm) : number :=
  match nonempty (f_pickup f), nonempty (f_dropoff f) with
  | true, true =>
      day_count (new_Date Date_parse (f_pickup f)) (new_Date Date_parse (f_dropoff f))
  | _, _ => num 1
  end.

(** ** Concrete runs *)

(** A visit to the panel in which every prompt is cancelled. *)
Definition visit_cancel (phone vip greeting : jsstring) : SettingsInput :=
  {| phone_input := phone; vip_input := vip; greeting_input := greeting;
     pay := None; catInput := None; extrasInput := None; depInput := None;
     emailPrompt := None; waInput := None |}.

(** The admin enters another phone number and answers yes to the WhatsApp
    prompt. *)
Definition visit_phone : SettingsInput :=
  {| phone_input := js "+306900000000"; vip_input := js "VIP2025";
     greeting_input := js "hello";
     pay := None; catInput := None; extrasInput := None; depInput := None;
     emailPrompt := None; waInput := Some (js "ναι") |}.

(** The admin clears the phone input and leaves the WhatsApp prompt empty. *)
Definition visit_empty : SettingsInput :=
  {| phone_input := []; vip_input := js "VIP2025"; greeting_input := js "hello";
     pay := None; catInput := None; extrasInput := None; depInput := None;
     emailPrompt := None; waInput := Some [] |}.

(** The admin answers the deposit prompt, and only that one. *)
Definition visit_deposit (answer : jsstring) : SettingsInput :=
  {| phone_input := js "+302101234567"; vip_input := js "VIP2025";
     greeting_input := js "hello";
     pay := None; catInput := None; extrasInput := None; depInput := Some answer;
     emailPrompt := None; waInput := None |}.

(** The admin answers the categories prompt, and only that one. *)
Definition visit_categories (answer : jsstring) : SettingsInput :=
  {| phone_input := js "+302101234567"; vip_input := js "VIP2025";
     greeting_input := js "hello";
     pay := None; catInput := Some answer; extrasInput := None; depInput := None;
     emailPrompt := None; waInput := None |}.

(** A booking form with the three fields of a quote and one extra. *)
Definition form_of (pickup dropoff category : jsstring) (checked : list jsstring)
  : BookingForm :=
  {| f_name := js "Maria"; f_email := js "maria@example.com"; f_phone := js "+30210";
     f_pickup := pickup; f_dropoff := dropoff; f_category := category;
     f_payment := js "PayPal"; f_notes := []; f_checked := checked |}.

(** A code unit put in front of a parsed string. *)
Definition pcons (c : N) (r : option (jsstring * jsstring)) : option (jsstring * jsstring) :=
  match r with
  | Some (t, rest) => Some (c :: t, rest)
  | None => None
  end.

(** The text of the elements of an array and of the members of an object,
    as [Json.serialize] writes them. *)
Fixpoint serialize_elements (l : list value) : jsstring :=
  match l with
  | [] => []
  | [v] => Json.serialize v
  | v :: l' => Json.serialize v ++ ch "," :: serialize_elements l'
  end.

Fixpoint serialize_members (first : bool) (o : list (jsstring * value)) : jsstring :=
  match o with
  | [] => []
  | (_, VUndefined) :: o' => serialize_members first o'
  | (k, v) :: o' =>
      (if first then [] else [ch ","])
      ++ Json.quote k ++ ch ":" :: Json.serialize v ++ serialize_members false o'
  end.

(** Fuel that suffices to parse the text of a value. *)
Fixpoint need (v : value) : nat :=
  match v with
  | VArr l =>
      S ((fix all (l : list value) : nat :=
            match l with
            | [] => O
            | v :: l' => S (need v + all l')
            end) l)
  | VObj o =>
      S ((fix all (o : list (jsstring * value)) : nat :=
            match o with
            | [] => O
            | (_, v) :: o' => S (need v + all o')
            end) o)
  | _ => 1%nat
  end.

Fixpoint need_elements (l : list value) : nat :=
  match l with
  | [] => O
  | v :: l' => S (need v + need_elements l')
  end.

Fixpoint need_members (o : list (jsstring * value)) : nat :=
  match o with
  | [] => O
  | (_, v) :: o' => S (need v + need_members o')
  end.

(** [l] consists of decimal digits. *)
Definition digit_list (l : jsstring) : Prop := Forall (fun c => is_digit c = true) l.

(** [s] does not continue a run of digits. *)
Definition stops_digits (s : jsstring) : Prop :=
  match s with
  | [] => True
  | c :: _ => is_digit c = false
  end.

(** [s] starts with a separator of JSON text, or is empty. *)
Definition delimited (s : jsstring) : Prop :=
  match s with
  | [] => True
  | c :: _ => c = ch "," \/ c = ch "]" \/ c = ch "}"
  end.

(** What a value starts with: no white space, and no closing bracket. *)
Definition opens_value (c : N) : Prop :=
  Json.is_ws c = false /\ c <> ch "]" /\ c <> ch "}".

(** The rational value of a finite number. *)
Definition as_Q (x : number) : option Q :=
  match x with
  | Fin q => Some (this q)
  | _ => None
  end.

(** ** VIP area, cookie banner and chat button *)

(** DOM writes and navigation of the handlers outside the login modal and
    the settings panel. *)
Inductive page_event :=
| Ui (e : ui_event)
| ShowTab (tabId : jsstring)
| UpdateVIPNav (isVip : bool)
| ShowCookieBanner
| HideCookieBanner
| OpenWindow (url : jsstring)
| Navigate (url : jsstring).

(** [localStorage.getItem('isVIP') === 'true'] *)
Definition isVIP (ls : Storage) : bool :=
  bool_decide (localStorage.getItem ls (js "isVIP") = Some (js "true")).

(** [handleVIP(target)]; [answer] is what the prompt returns when it is
    shown, [None] for a cancelled prompt. *)
Definition handleVIP (target : jsstring) (answer : option jsstring) (st : State)
  : State * list page_event :=
  if isVIP (storage st) then (st, [ShowTab target])
  else
    match answered answer with
    | Some input =>
        if bool_decide (trim input = vipCode (config st)) then
          let st := {| config := config st;
                       storage := localStorage.setItem (storage st) (js "isVIP") (js "true") |} in
          (st, [UpdateVIPNav (isVIP (storage st));
                Ui (Alert (vipGreeting (config st))); ShowTab target])
        else (st, [Ui (Alert (js "Λάθος κωδικός VIP."))])
    | None => (st, [])
    end.

Definition acceptCookies (ls : Storage) : Storage * list page_event :=
  (localStorage.setItem ls (js "cookiesAccepted") (js "true"), [HideCookieBanner]).

(** The cookie part of [init]: the banner is shown unless consent is
    stored. *)
Definition init_cookie_banner (ls : Storage) : list page_event :=
  match answered (localStorage.getItem ls (js "cookiesAccepted")) with
  | None => [ShowCookieBanner]
  | Some _ => []
  end.

(** [s.replace(/\D/g, '')] *)
Definition strip_non_digits (s : jsstring) : jsstring :=
  filter (fun c => is_digit c = true) s.

Definition WHATSAPP_TEXT : jsstring :=
  js "?text=%CE%93%CE%B5%CE%B9%CE%B1%20σας%2C%20ενδιαφέρομαι%20για%20τις%20υπηρεσίες%20σας.".

Definition openChat (cfg : Config) : page_event :=
  let digits := strip_non_digits (phoneNumber cfg) in
  if useWhatsApp cfg
  then OpenWindow (js "https://wa.me/" ++ digits ++ WHATSAPP_TEXT)
  else Navigate (js "tel:" ++ digits).

(** ** The page as a whole *)

(** The cached settings and the store, and the form that the login modal
    shows while it is open. *)
Record App := {
  app_state : State;
  login_modal : option LoginForm
}.

(** What the user can do on the page. *)
Inductive event :=
| ToggleAuth
| LoginSubmit (value : jsstring)
| BioClick
| CloseLoginClick
| SaveSettings (i : SettingsInput)
| VIPClick (target : jsstring) (answer : option jsstring)
| AcceptCookies.

Definition closes_login (evs : list ui_event) : bool :=
  existsb (fun e => match e with CloseLogin => true | _ => false end) evs.

Definition opens_login (evs : list ui_event) : bool :=
  existsb (fun e => match e with OpenLogin => true | _ => false end) evs.

Definition with_storage (ls : Storage) (st : State) : State :=
  {| config := config st; storage := ls |}.

(** A handler of the login modal run on the page. *)
Definition run_login (r : Storage * list ui_event) (a : App) : App :=
  {| app_state := with_storage r.1 (app_state a);
     login_modal := if closes_login r.2 then None else login_modal a |}.

(** One user action.  [openLogin] renders the form for the store of that
    moment and shows the modal; a submission or a click on the biometric
    button reaches the handlers of the form that is shown, and none while
    the modal is closed. *)
Definition step (a : App) (e : event) : App :=
  let ls := storage (app_state a) in
  match e with
  | ToggleAuth =>
      let r := toggleAuth ls in
      {| app_state := with_storage r.1 (app_state a);
         login_modal :=
           if opens_login r.2 then Some (renderLoginContent ls) else login_modal a |}
  | LoginSubmit value =>
      match login_modal a with
      | Some SetupForm => run_login (setup_submit ls value) a
      | Some PasswordForm => run_login (login_submit ls value) a
      | None => a
      end
  | BioClick =>
      match login_modal a with
      | Some PasswordForm => run_login (bio_login ls) a
      | _ => a
      end
  | CloseLoginClick => {| app_state := app_state a; login_modal := None |}
  | SaveSettings i =>
      {| app_state := (saveSettings i (app_state a)).1; login_modal := login_modal a |}
  | VIPClick target answer =>
      {| app_state := (handleVIP target answer (app_state a)).1;
         login_modal := login_modal a |}
  | AcceptCookies =>
      {| app_state := with_storage (acceptCookies ls).1 (app_state a);
         login_modal := login_modal a |}
  end.

Definition run (events : list event) (a : App) : App := fold_left step events a.

(** The page of a first visit. *)
Definition initial_app : App := {| app_state := initial_state; login_modal := None |}.

(** The keys of the store that a user action may write. *)
Definition footprint (e : event) : list jsstring :=
  match e with
  | ToggleAuth | BioClick => [js "isAdmin"]
  | LoginSubmit _ => [js "adminPassword"; js "isAdmin"]
  | CloseLoginClick => []
  | SaveSettings _ =>
      [ js "phoneNumber"; js "vipCode"; js "vipGreeting"; js "useWhatsApp";
        js "paymentMethods"; js "carCategories"; js "extras";
        js "depositPercent"; js "adminEmail" ]
  | VIPClick _ _ => [js "isVIP"]
  | AcceptCookies => [js "cookiesAccepted"]
  end.

(** What holds of the login modal and the login flag on every page that
    the user can reach. *)
Definition auth_consistent (a : App) : Prop :=
  let ls := storage (app_state a) in
  (isAdminLoggedIn ls = true -> getAdminPassword ls <> None)
  /\ (forall form, login_modal a = Some form ->
        form = renderLoginContent ls /\ isAdminLoggedIn ls = false).

(** ** Notions for the settings *)

(** A price table as the prompts of the settings panel build it: no name
    twice, every name non-empty, trimmed and free of the two separators,
    every price a number. *)
Definition well_formed_prices (o : list (jsstring * number)) : Prop :=
  NoDup (obj_keys o)
  /\ forall name price,
       In (name, price) o ->
       name <> [] /\ trim name = name
       /\ ~ In (ch ",") name /\ ~ In (ch ":") name
       /\ price <> NaN.

(** A list of payment methods as the prompt of the settings panel builds
    it. *)
Definition well_formed_methods (l : list jsstring) : Prop :=
  Forall (fun m => m <> [] /\ trim m = m /\ ~ In (ch ",") m) l.

(** ** Reloading the page *)

(** The settings that the page keeps in memory, by key. *)
Definition settings_object (c : Config) : list (jsstring * value) :=
  [ (js "phoneNumber", VStr (phoneNumber c));
    (js "vipCode", VStr (vipCode c));
    (js "vipGreeting", VStr (vipGreeting c));
    (js "useWhatsApp", VBool (useWhatsApp c));
    (js "paymentMethods", strings_value (paymentMethods c));
    (js "carCategories", prices_value (carCategories c));
    (js "extras", prices_value (extras c));
    (js "depositPercent", VNum (depositPercent c));
    (js "adminEmail", VStr (adminEmail c)) ].

(** The nine [loadSetting] calls that initialise the cached settings when
    the script starts. *)
Definition load_settings (ls : Storage) : list (jsstring * value) :=
  [ (js "phoneNumber", loadSetting ls (js "phoneNumber"));
    (js "vipCode", loadSetting ls (js "vipCode"));
    (js "vipGreeting", loadSetting ls (js "vipGreeting"));
    (js "useWhatsApp", loadSetting ls (js "useWhatsApp"));
    (js "paymentMethods", loadSetting ls (js "paymentMethods"));
    (js "carCategories", loadSetting ls (js "carCategories"));
    (js "extras", loadSetting ls (js "extras"));
    (js "depositPercent", loadSetting ls (js "depositPercent"));
    (js "adminEmail", loadSetting ls (js "adminEmail")) ].

(** A price table after a trip through the store: [JSON.stringify] writes
    a number that is not finite as [null]. *)
Definition stored_price (n : number) : value :=
  if Num.isFinite n then VNum n else VNull.

Definition stored_prices (o : list (jsstring * number)) : value :=
  VObj (map (fun '(k, n) => (k, stored_price n)) o).

(** The settings in memory after a trip through the store. *)
Definition reloaded (c : Config) : list (jsstring * value) :=
  [ (js "phoneNumber", VStr (phoneNumber c));
    (js "vipCode", VStr (vipCode c));
    (js "vipGreeting", VStr (vipGreeting c));
    (js "useWhatsApp", VBool (useWhatsApp c));
    (js "paymentMethods", strings_value (paymentMethods c));
    (js "carCategories", stored_prices (carCategories c));
    (js "extras", stored_prices (extras c));
    (js "depositPercent", VNum (depositPercent c));
    (js "adminEmail", VStr (adminEmail c)) ].

(** Every price of the table is finite. *)
Definition finite_prices (o : list (jsstring * number)) : Prop :=
  Forall (fun kv => Num.isFinite kv.2 = true) o.

(** ** Further concrete runs *)

(** The admin answers the payment prompt, and only that one. *)
Definition visit_methods (answer : jsstring) : SettingsInput :=
  {| phone_input := js "+302101234567"; vip_input := js "VIP2025";
     greeting_input := js "hello";
     pay := Some answer; catInput := None; extrasInput := None; depInput := None;
     emailPrompt := None; waInput := None |}.

(** The admin answers the email prompt, and only that one. *)
Definition visit_email (answer : jsstring) : SettingsInput :=
  {| phone_input := js "+302101234567"; vip_input := js "VIP2025";
     greeting_input := js "hello";
     pay := None; catInput := None; extrasInput := None; depInput := None;
     emailPrompt := Some answer; waInput := None |}.

(** ** Coherence of the store with the cached settings *)

(** Every finite price of the table is a decimal. *)
Definition decimal_prices (o : list (jsstring * number)) : Prop :=
  forall name q, In (name, Fin q) o -> is_decimal q.

(** The store holds the text of the cached setting [x], or nothing while
    the setting is at its default. *)
Definition kept {A : Type} (st : State) (key : jsstring) (enc : A -> value)
  (x dflt : A) : Prop :=
  storage st !! key = Some (Json.serialize (enc x))
  \/ (storage st !! key = None /\ x = dflt).

Definition coherent (st : State) : Prop :=
  let c := config st in
  kept st (js "phoneNumber") VStr (phoneNumber c) (phoneNumber DEFAULTS)
  /\ kept st (js "vipCode") VStr (vipCode c) (vipCode DEFAULTS)
  /\ kept st (js "vipGreeting") VStr (vipGreeting c) (vipGreeting DEFAULTS)
  /\ kept st (js "useWhatsApp") VBool (useWhatsApp c) (useWhatsApp DEFAULTS)
  /\ kept st (js "paymentMethods") strings_value (paymentMethods c)
       (paymentMethods DEFAULTS)
  /\ kept st (js "carCategories") prices_value (carCategories c)
       (carCategories DEFAULTS)
  /\ kept st (js "extras") prices_value (extras c) (extras DEFAULTS)
  /\ kept st (js "depositPercent") VNum (depositPercent c) (depositPercent DEFAULTS)
  /\ kept st (js "adminEmail") VStr (adminEmail c) (adminEmail DEFAULTS).

(** What every visit to the settings panel keeps. *)
Definition settings_invariant (st : State) : Prop :=
  coherent st
  /\ NoDup (obj_keys (carCategories (config st)))
  /\ NoDup (obj_keys (extras (config st)))
  /\ decimal_prices (carCategories (config st))
  /\ decimal_prices (extras (config st))
  /\ exists q, depositPercent (config st) = Fin q /\ is_decimal q.

(** ** Notions for the quote *)

(** Every price of the table is a finite number that is not negative. *)
Definition nonneg_prices (o : list (jsstring * number)) : Prop :=
  forall name price, In (name, price) o -> exists q, price = Fin q /\ (0 <= q)%Qc.

(** [f] with another drop-off date and further extras selected. *)
Definition extended (dropoff : jsstring) (more : list jsstring) (f : BookingForm)
  : BookingForm :=
  {| f_name := f_name f; f_email := f_email f; f_phone := f_phone f;
     f_pickup := f_pickup f; f_dropoff := dropoff;
     f_category := f_category f; f_payment := f_payment f;
     f_notes := f_notes f; f_checked := f_checked f ++ more |}.

(** ** The defaults that the prompts offer *)


(** String conversion of a number, as in a template literal and in the
    default of a prompt. *)
Definition Number_string (n : number) : jsstring :=
  match n with
  | NaN => js "NaN"
  | PInf => js "Infinity"
  | NInf => js "-Infinity"
  | Fin q => Number_toString q
  end.




(** ** The options that the booking form offers *)

(** An [option] of a select, or a checkbox with its label. *)
Record Choice := {
  c_id : jsstring;
  c_value : jsstring;
  c_text : jsstring
}.

(** [`${name} (€${price} / ημέρα)`]; a missing price is [undefined]. *)
Definition price_label (name : jsstring) (price : option number) : jsstring :=
  name ++ js " (€"
  ++ match price with
     | Some p => Number_string p
     | None => js "undefined"
     end
  ++ js " / ημέρα)".

(** [s.replace(/\s+/g, '-')]; [in_run] tells that the code unit before
    was white space. *)
Fixpoint dash_spaces (in_run : bool) (s : jsstring) : jsstring :=
  match s with
  | [] => []
  | c :: r =>
      if is_white_space c
      then (if in_run then dash_spaces true r else ch "-" :: dash_spaces true r)
      else c :: dash_spaces false r
  end.

(** The options of [#car-category] and of [#payment-method]. *)
Definition populateBookingSelects (c : Config) : list Choice * list Choice :=
  (map (fun cat =>
          {| c_id := []; c_value := cat;
             c_text := price_label cat (obj_get cat (carCategories c)) |})
       (obj_keys (carCategories c)),
   map (fun method => {| c_id := []; c_value := method; c_text := method |})
       (paymentMethods c)).

(** The checkboxes of [#extras-container]. *)
Definition populateExtras (c : Config) : list Choice :=
  map (fun extraKey =>
         {| c_id := js "extra-" ++ dash_spaces false extraKey;
            c_value := extraKey;
            c_text := price_label extraKey (obj_get extraKey (extras c)) |})
      (obj_keys (extras c)).

(** ** Auxiliary definitions for the prompt defaults *)



(** ** Facts about numbers *)

Lemma Fin_ext (x y : Qc) : (this x == this y)%Q -> Fin x = Fin y.
Proof. intros H. f_equal. by apply Qc_is_canon. Qed.

Lemma this_of_Z (z : Z) : this (Qc_of_Z z) = inject_Z z.
Proof. reflexivity. Qed.

Lemma MS_PER_DAY_eq : MS_PER_DAY = num 86400000.
Proof. unfold MS_PER_DAY. apply Fin_ext. reflexivity. Qed.

Lemma sub_num (a b : Z) : Num.sub (num b) (num a) = num (b - a).
Proof.
  unfold Num.sub, Num.neg, Num.add, Num.of_Z. f_equal.
  rewrite Z2Qc_inj_sub. reflexivity.
Qed.

Lemma Qc_ltb_of_Z (a b : Z) : Num.Qc_ltb (Qc_of_Z a) (Qc_of_Z b) = (a <? b).
Proof.
  unfold Num.Qc_ltb, Qccompare. rewrite !this_of_Z.
  unfold Qcompare. simpl. rewrite !Z.mul_1_r.
  unfold Z.ltb. reflexivity.
Qed.

Lemma Qc_eqb_of_Z (a b : Z) : Num.Qc_eqb (Qc_of_Z a) (Qc_of_Z b) = (a =? b).
Proof.
  unfold Num.Qc_eqb, Qccompare. rewrite !this_of_Z.
  unfold Qcompare. simpl. rewrite !Z.mul_1_r.
  symmetry. apply Z.eqb_compare.
Qed.

Lemma lt_num (a b : Z) : Num.lt (num a) (num b) = (a <? b).
Proof. apply Qc_ltb_of_Z. Qed.

Lemma ceil_div_spec (x y : Z) :
  0 < y -> (ceil_div x y - 1) * y < x <= ceil_div x y * y.
Proof.
  intros Hy. unfold ceil_div.
  pose proof (Z.div_mod (- x) y ltac:(lia)).
  pose proof (Z.mod_pos_bound (- x) y Hy). nia.
Qed.

Lemma ceil_div_pos (x y : Z) : 0 < y -> 0 < x -> 1 <= ceil_div x y.
Proof. intros Hy Hx. pose proof (ceil_div_spec x y Hy). nia. Qed.

Lemma ceil_div_nonpos (x y : Z) : 0 < y -> x <= 0 -> ceil_div x y < 1.
Proof. intros Hy Hx. pose proof (ceil_div_spec x y Hy). nia. Qed.

(** [Math.ceil(z / 86400000)] on an integral number of milliseconds. *)
Lemma ceil_days (z : Z) :
  Num.Math_ceil (Num.div (num z) (num 86400000)) = num (ceil_div z 86400000).
Proof.
  unfold Num.div, Num.of_Z.
  replace (Num.Qc_eqb (Qc_of_Z 86400000) 0%Qc) with false by reflexivity.
  unfold Num.Math_ceil, Num.of_Z. do 2 f_equal.
  unfold Qceiling, ceil_div. f_equal.
  assert (E : (this (Qc_of_Z z / Qc_of_Z 86400000)%Qc == z # 86400000)%Q).
  { unfold Qcdiv, Qcmult, Qcinv, Q2Qc. simpl this. rewrite !Qred_correct.
    unfold Qeq, Qmult, Qinv, inject_Z. simpl. lia. }
  rewrite E. reflexivity.
Qed.

Lemma day_count_valid (p d : Z) :
  day_count (num p) (num d) =
  num (if p <? d then ceil_div (d - p) 86400000 else 1).
Proof.
  unfold day_count. rewrite sub_num, MS_PER_DAY_eq, ceil_days.
  simpl Num.isFinite. simpl negb. rewrite orb_false_l, lt_num.
  destruct (Z.ltb_spec p d) as [H|H].
  - pose proof (ceil_div_pos (d - p) 86400000 ltac:(lia) ltac:(lia)).
    destruct (Z.ltb_spec (ceil_div (d - p) 86400000) 1); [lia | reflexivity].
  - pose proof (ceil_div_nonpos (d - p) 86400000 ltac:(lia) ltac:(lia)).
    destruct (Z.ltb_spec (ceil_div (d - p) 86400000) 1); [reflexivity | lia].
Qed.

Lemma day_count_NaN_l (d : number) : day_count NaN d = num 1.
Proof. unfold day_count. destruct d; reflexivity. Qed.

Lemma day_count_NaN_r (p : number) : day_count p NaN = num 1.
Proof. unfold day_count. destruct p; reflexivity. Qed.


Lemma add_zero (x : number) : Num.add x (num 0) = x.
Proof.
  destruct x; try reflexivity. unfold Num.add, Num.of_Z. f_equal.
  rewrite Z2Qc_inj_0. apply Qcplus_0_r.
Qed.

Lemma mul_zero_num (z : Z) : Num.mul (num 0) (num z) = num 0.
Proof.
  unfold Num.mul, Num.of_Z. f_equal. rewrite <- Z2Qc_inj_mul. reflexivity.
Qed.

(** ** Facts about the pricing engine *)

Section Pricing.

Variable Date_parse : jsstring -> option Z.
Variable cfg : Config.


Lemma fold_summary (days : number) (l : list jsstring) (t0 : number) (s0 : list jsstring) :
  fold_left
    (fun '(extrasTotal, selectedExtras) key =>
       let price := or_zero (obj_get key (extras cfg)) in
       (Num.add extrasTotal (Num.mul price days), selectedExtras ++ [key]))
    l (t0, s0)
  = (extras_total cfg days l t0, s0 ++ l).
Proof.
  revert t0 s0. induction l as [|k l IH]; intros t0 s0; simpl.
  - by rewrite app_nil_r.
  - rewrite IH. unfold extras_total. simpl. by rewrite <- app_assoc.
Qed.

(** [calculatePrice] shows a summary exactly when the three fields are
    filled in, and the summary carries the common price components. *)
Lemma calculatePrice_shown (f : BookingForm) (s : Summary) :
  calculatePrice Date_parse cfg f = Shown s ->
  nonempty (f_pickup f) = true /\ nonempty (f_dropoff f) = true
  /\ nonempty (f_category f) = true
  /\ summary_components s =
       quote_components cfg
         (day_count (new_Date Date_parse (f_pickup f)) (new_Date Date_parse (f_dropoff f)))
         (f_category f) (f_checked f)
  /\ s_payment s =
       (if nonempty (f_payment f)
        then Some (f_payment f,
                   or_string (obj_get (f_payment f) PAYMENT_INSTRUCTIONS)
                     GENERIC_INSTRUCTIONS)
        else None).
Proof.
  unfold calculatePrice.
  destruct (nonempty (f_pickup f)), (nonempty (f_dropoff f)),
    (nonempty (f_category f)); try discriminate.
  rewrite fold_summary. intros [= <-]. repeat split; reflexivity.
Qed.

Lemma calculatePrice_total (f : BookingForm) :
  f_pickup f <> [] -> f_dropoff f <> [] -> f_category f <> [] ->
  exists s, calculatePrice Date_parse cfg f = Shown s.
Proof.
  intros Hp Hd Hc. unfold calculatePrice.
  destruct (f_pickup f); [done|]. destruct (f_dropoff f); [done|].
  destruct (f_category f); [done|]. simpl.
  rewrite fold_summary. eauto.
Qed.

Lemma calculatePrice_prompt (f : BookingForm) :
  f_pickup f = [] \/ f_dropoff f = [] \/ f_category f = [] ->
  calculatePrice Date_parse cfg f = Prompt PRICE_PROMPT.
Proof.
  unfold calculatePrice. intros [-> | [-> | ->]]; simpl;
    repeat (match goal with |- context [nonempty ?x] => destruct (nonempty x) end);
    reflexivity.
Qed.

Lemma handleBookingSubmit_components (f : BookingForm) :
  mail_components (handleBookingSubmit Date_parse cfg f) =
  quote_components cfg (booking_days Date_parse f) (f_category f) (f_checked f).
Proof.
  unfold handleBookingSubmit, mail_components, quote_components, booking_days.
  simpl. destruct (nonempty (f_pickup f)), (nonempty (f_dropoff f)); reflexivity.
Qed.

Lemma mail_days (f : BookingForm) :
  m_days (handleBookingSubmit Date_parse cfg f) = booking_days Date_parse f.
Proof. exact (f_equal pc_days (handleBookingSubmit_components f)). Qed.


Lemma mail_extras (f : BookingForm) :
  m_extrasTotal (handleBookingSubmit Date_parse cfg f) =
  extras_total cfg (booking_days Date_parse f) (f_checked f) (num 0).
Proof. exact (f_equal pc_extras (handleBookingSubmit_components f)). Qed.

Lemma summary_parts (f : BookingForm) (s : Summary) :
  calculatePrice Date_parse cfg f = Shown s ->
  let days := day_count (new_Date Date_parse (f_pickup f))
                (new_Date Date_parse (f_dropoff f)) in
  s_days s = days
  /\ s_baseTotal s = Num.mul (or_zero (obj_get (f_category f) (carCategories cfg))) days
  /\ s_extrasTotal s = extras_total cfg days (f_checked f) (num 0).
Proof.
  intros Hs. apply calculatePrice_shown in Hs as (_ & _ & _ & Hq & _).
  repeat split.
  - exact (f_equal pc_days Hq).
  - exact (f_equal pc_base Hq).
  - exact (f_equal pc_extras Hq).
Qed.

Lemma booking_days_spec (f : BookingForm) :
  booking_days Date_parse f =
  num (spec_dayCount (parsed_date Date_parse (f_pickup f))
         (parsed_date Date_parse (f_dropoff f))).
Proof.
  unfold booking_days, parsed_date, new_Date.
  destruct (nonempty (f_pickup f)), (nonempty (f_dropoff f)); simpl;
    try reflexivity.
  - destruct (Date_parse (f_pickup f)) as [p|], (Date_parse (f_dropoff f)) as [d|];
      simpl.
    + apply day_count_valid.
    + apply day_count_NaN_r.
    + apply day_count_NaN_l.
    + reflexivity.
  - destruct (Date_parse (f_pickup f)); reflexivity.
Qed.

Lemma booking_days_integral (f : BookingForm) : exists z, booking_days Date_parse f = num z.
Proof. rewrite booking_days_spec. eauto. Qed.

Lemma spec_dayCount_pos (p d : option Z) : 1 <= spec_dayCount p d.
Proof.
  unfold spec_dayCount. destruct p as [p|], d as [d|]; try lia.
  destruct (Z.ltb_spec p d); [|lia].
  apply ceil_div_pos; lia.
Qed.

End Pricing.

(** ** Rounding to cents *)

(** The rounding expression of the source is [round2]. *)
Lemma round_expr (x : number) :
  Num.div (Num.Math_round (Num.mul x (num 100))) (num 100) = round2 x.
Proof.
  destruct x as [| | |q]; reflexivity.
Qed.


Section PricingTheorems.

Variable Date_parse : jsstring -> option Z.
Variable cfg : Config.

Lemma quote_components_priced days category checked :
  priced cfg (quote_components cfg days category checked).
Proof.
  unfold priced, quote_components. simpl. rewrite !round_expr. split; reflexivity.
Qed.


(** C1. Both handlers compute the day count of the specification: the
    ceiling of (dropoff - pickup) / 86400000 when both dates are valid and
    dropoff is after pickup, and exactly 1 in every other case; the count
    is never below 1. *)
Theorem C1_day_count (f : BookingForm) :
  let n := spec_dayCount (parsed_date Date_parse (f_pickup f))
             (parsed_date Date_parse (f_dropoff f)) in
  1 <= n
  /\ (forall s, calculatePrice Date_parse cfg f = Shown s -> s_days s = num n)
  /\ m_days (handleBookingSubmit Date_parse cfg f) = num n.
Proof.
  intros n. subst n. split; [apply spec_dayCount_pos|]. split.
  - intros s Hs. destruct (summary_parts Date_parse cfg f s Hs) as (-> & _).
    apply calculatePrice_shown in Hs as (Hp & Hd & _).
    rewrite <- (booking_days_spec Date_parse f).
    unfold booking_days. by rewrite Hp, Hd.
  - rewrite mail_days. apply booking_days_spec.
Qed.

(** C2 (amended). [calculatePrice] shows the prompt and computes no quote
    when the pickup date, the dropoff date or the category is absent, and
    computes a quote whenever the three are present, also for a date that
    does not parse. *)
Theorem C2_validation (f : BookingForm) :
  (f_pickup f = [] \/ f_dropoff f = [] \/ f_category f = [] ->
   calculatePrice Date_parse cfg f = Prompt PRICE_PROMPT)
  /\ (f_pickup f <> [] -> f_dropoff f <> [] -> f_category f <> [] ->
      exists s, calculatePrice Date_parse cfg f = Shown s).
Proof.
  split; [apply calculatePrice_prompt | apply calculatePrice_total].
Qed.



Lemma extras_total_app days l1 l2 t0 :
  extras_total cfg days (l1 ++ l2) t0 =
  extras_total cfg days l2 (extras_total cfg days l1 t0).
Proof. unfold extras_total. apply fold_left_app. Qed.



End PricingTheorems.

(** ** Facts about the store and the admin authentication *)

(** Two string literals of the source are different keys. *)
Ltac keys_differ :=
  let H := fresh in intros H; vm_compute in H; discriminate H.

Lemma nonempty_length (s : jsstring) : (0 < length s)%nat -> nonempty s = true.
Proof. destruct s; simpl; [lia | reflexivity]. Qed.

Lemma auth_state_NoPasswordSet (ls : Storage) :
  auth_state ls = NoPasswordSet ->
  isAdminLoggedIn ls = false /\ getAdminPassword ls = None.
Proof.
  unfold auth_state. destruct (isAdminLoggedIn ls); [discriminate|].
  destruct (getAdminPassword ls); [discriminate | auto].
Qed.

Lemma auth_state_LoggedOut (ls : Storage) :
  auth_state ls = LoggedOut ->
  isAdminLoggedIn ls = false /\ exists pwd, getAdminPassword ls = Some pwd.
Proof.
  unfold auth_state. destruct (isAdminLoggedIn ls); [discriminate|].
  destruct (getAdminPassword ls); [eauto | discriminate].
Qed.

Lemma isAdminLoggedIn_set (ls : Storage) :
  isAdminLoggedIn (setAdminLoggedIn ls true) = true.
Proof.
  unfold isAdminLoggedIn, setAdminLoggedIn, localStorage.getItem, localStorage.setItem.
  rewrite lookup_insert_eq. by apply bool_decide_eq_true.
Qed.

Lemma getAdminPassword_setAdminLoggedIn (ls : Storage) (flag : bool) :
  getAdminPassword (setAdminLoggedIn ls flag) = getAdminPassword ls.
Proof.
  unfold getAdminPassword, setAdminLoggedIn, localStorage.getItem,
    localStorage.setItem, localStorage.removeItem.
  destruct flag.
  - rewrite lookup_insert_ne by keys_differ. reflexivity.
  - rewrite lookup_delete_ne by keys_differ. reflexivity.
Qed.

Lemma getAdminPassword_set (ls : Storage) (pwd : jsstring) :
  pwd <> [] -> getAdminPassword (setAdminPassword ls pwd) = Some pwd.
Proof.
  intros Hne. unfold getAdminPassword, setAdminPassword, localStorage.getItem,
    localStorage.setItem.
  rewrite lookup_insert_eq. destruct pwd; [done | reflexivity].
Qed.

Lemma auth_state_logged_in (ls : Storage) :
  auth_state (setAdminLoggedIn ls true) = LoggedIn.
Proof. unfold auth_state. by rewrite isAdminLoggedIn_set. Qed.

(** C4. With no password set, a new password shorter than 4 after
    trimming is refused with an alert and the store is left as it is, and
    a longer one is stored and logs the admin in; when logged out, a
    password other than the stored one is refused with an alert and the
    store is left as it is, and the stored one logs the admin in. *)
Theorem C4_auth_transitions (ls : Storage) (value : jsstring) :
  (auth_state ls = NoPasswordSet -> (length (trim value) < 4)%nat ->
   submit_login ls value =
     (ls, [Alert (js "Ο κωδικός πρέπει να έχει τουλάχιστον 4 χαρακτήρες.")])
   /\ auth_state ls = NoPasswordSet /\ getAdminPassword ls = None)
  /\ (auth_state ls = NoPasswordSet -> (4 <= length (trim value))%nat ->
      let ls' := (submit_login ls value).1 in
      getAdminPassword ls' = Some (trim value) /\ auth_state ls' = LoggedIn)
  /\ (auth_state ls = LoggedOut -> getAdminPassword ls <> Some value ->
      submit_login ls value = (ls, [Alert (js "Λάθος κωδικός.")]))
  /\ (auth_state ls = LoggedOut -> getAdminPassword ls = Some value ->
      let ls' := (submit_login ls value).1 in
      auth_state ls' = LoggedIn /\ getAdminPassword ls' = Some value).
Proof.
  unfold submit_login, renderLoginContent.
  split; [|split; [|split]].
  - intros Hs Hlen. destruct (auth_state_NoPasswordSet ls Hs) as [_ Hpwd].
    rewrite Hpwd. unfold setup_submit.
    destruct (Nat.ltb_spec (length (trim value)) 4); [done | lia].
  - intros Hs Hlen. destruct (auth_state_NoPasswordSet ls Hs) as [_ Hpwd].
    rewrite Hpwd. unfold setup_submit.
    destruct (Nat.ltb_spec (length (trim value)) 4); [lia|].
    cbn [fst]. split.
    + rewrite getAdminPassword_setAdminLoggedIn. apply getAdminPassword_set.
      intros E. rewrite E in Hlen. simpl in Hlen. lia.
    + apply auth_state_logged_in.
  - intros Hs Hne. destruct (auth_state_LoggedOut ls Hs) as [_ [pwd Hpwd]].
    rewrite Hpwd. unfold login_submit.
    rewrite bool_decide_eq_false_2; [reflexivity | congruence].
  - intros Hs Heq. rewrite Heq. unfold login_submit.
    rewrite bool_decide_eq_true_2 by done. cbn [fst]. split.
    + apply auth_state_logged_in.
    + by rewrite getAdminPassword_setAdminLoggedIn.
Qed.

(** ** Decimal digits *)



Lemma is_digit_add (d : N) : (d < 10)%N -> is_digit (48 + d) = true.
Proof. intros H. unfold is_digit. apply andb_true_iff. split; apply N.leb_le; lia. Qed.

Lemma digits_val_snoc (l : jsstring) (d : N) :
  digits_val (l ++ [(48 + d)%N]) = (digits_val l * 10 + d)%N.
Proof.
  unfold digits_val. rewrite fold_left_app. simpl. f_equal. lia.
Qed.

Lemma digits_fold_shift (l : jsstring) (a : N) :
  fold_left (fun a c => (a * 10 + (c - 48))%N) l a
  = (a * 10 ^ N.of_nat (length l) + digits_val l)%N.
Proof.
  unfold digits_val. revert a. induction l as [|c l IH]; intros a.
  - simpl. lia.
  - simpl fold_left. rewrite IH, (IH (0 * 10 + (c - 48))%N).
    simpl length. rewrite Nat2N.inj_succ, N.pow_succ_r'. lia.
Qed.

Lemma digits_val_app (pre l : jsstring) :
  digits_val (pre ++ l) = (digits_val pre * 10 ^ N.of_nat (length l) + digits_val l)%N.
Proof.
  unfold digits_val at 1. rewrite fold_left_app. apply digits_fold_shift.
Qed.

Lemma span_cons (p : N -> bool) (c : N) (r : jsstring) :
  span p (c :: r) =
  if p c then let '(a, b) := span p r in (c :: a, b) else ([], c :: r).
Proof. reflexivity. Qed.

Lemma span_digits (l rest : jsstring) :
  digit_list l -> stops_digits rest -> span is_digit (l ++ rest) = (l, rest).
Proof.
  intros Hl Hr. induction Hl as [|c l Hc Hl IH].
  - destruct rest as [|c r]; [done|]. simpl app. rewrite span_cons.
    simpl in Hr. by rewrite Hr.
  - rewrite <- app_comm_cons, span_cons. by rewrite Hc, IH.
Qed.

Lemma digits_fuel_digit_list (f : nat) (n : N) : digit_list (digits_fuel f n).
Proof.
  revert n. induction f as [|f IH]; intros n; simpl; [constructor|].
  apply Forall_app. split.
  - destruct (n / 10 =? 0)%N; [constructor | apply IH].
  - repeat constructor. apply is_digit_add. apply N.mod_lt. lia.
Qed.

Lemma digits_fuel_val (f : nat) (n : N) :
  (n < 2 ^ N.of_nat f)%N -> digits_val (digits_fuel f n) = n.
Proof.
  revert n. induction f as [|f IH]; intros n Hn.
  - simpl in *. change (digits_val []) with 0%N. lia.
  - simpl digits_fuel. rewrite digits_val_snoc.
    pose proof (N.div_mod n 10 ltac:(lia)) as Hdm.
    destruct (N.eqb_spec (n / 10) 0) as [E|E].
    + change (digits_val []) with 0%N. lia.
    + rewrite IH; [lia|].
      rewrite Nat2N.inj_succ, N.pow_succ_r' in Hn.
      apply N.Div0.div_lt_upper_bound. lia.
Qed.

Lemma digits_fuel_head (f : nat) (n : N) :
  (n < 2 ^ N.of_nat f)%N -> n <> 0%N ->
  exists c t, digits_fuel f n = c :: t /\ c <> 48%N /\ is_digit c = true.
Proof.
  revert n. induction f as [|f IH]; intros n Hn H0.
  - simpl in Hn. lia.
  - simpl digits_fuel.
    pose proof (N.div_mod n 10 ltac:(lia)) as Hdm.
    pose proof (N.mod_lt n 10 ltac:(lia)) as Hlt.
    destruct (N.eqb_spec (n / 10) 0) as [E|E].
    + exists (48 + n mod 10)%N, []. split; [done|]. split; [lia|].
      by apply is_digit_add.
    + destruct (IH (n / 10)%N) as (c & t & -> & Hc & Hd); [|done|].
      * rewrite Nat2N.inj_succ, N.pow_succ_r' in Hn.
        apply N.Div0.div_lt_upper_bound. lia.
      * exists c, (t ++ [(48 + n mod 10)%N]). done.
Qed.

Lemma digits_fuel_bound (n : N) : (n < 2 ^ N.of_nat (S (N.to_nat (N.size n))))%N.
Proof.
  rewrite Nat2N.inj_succ, N2Nat.id, N.pow_succ_r'.
  pose proof (N.size_gt n). lia.
Qed.

Lemma digits_digit_list (n : N) : digit_list (digits n).
Proof. apply digits_fuel_digit_list. Qed.

Lemma digits_val_digits (n : N) : digits_val (digits n) = n.
Proof. apply digits_fuel_val, digits_fuel_bound. Qed.

(** The digits of [n] begin with a digit, which is [0] only for [n = 0]. *)
Lemma digits_head (n : N) :
  exists c t, digits n = c :: t /\ is_digit c = true
              /\ (t = [] \/ c <> 48%N).
Proof.
  destruct (N.eq_dec n 0%N) as [->|Hn].
  - exists 48%N, []. repeat split; auto.
  - destruct (digits_fuel_head _ n (digits_fuel_bound n) Hn) as (c & t & E & Hc & Hd).
    exists c, t. auto.
Qed.

Lemma fixed_digits_digit_list (k : nat) (n : N) : digit_list (fixed_digits k n).
Proof.
  revert n. induction k as [|k IH]; intros n; simpl; [constructor|].
  apply Forall_app. split; [apply IH|].
  repeat constructor. apply is_digit_add. apply N.mod_lt. lia.
Qed.

Lemma fixed_digits_length (k : nat) (n : N) : length (fixed_digits k n) = k.
Proof.
  revert n. induction k as [|k IH]; intros n; simpl; [done|].
  rewrite length_app, IH. simpl. lia.
Qed.

Lemma fixed_digits_val (k : nat) (n : N) :
  digits_val (fixed_digits k n) = (n mod 10 ^ N.of_nat k)%N.
Proof.
  revert n. induction k as [|k IH]; intros n.
  - simpl. change (digits_val []) with 0%N. by rewrite N.mod_1_r.
  - simpl fixed_digits. rewrite digits_val_snoc, IH.
    rewrite Nat2N.inj_succ, N.pow_succ_r'.
    rewrite N.Div0.mod_mul_r. lia.
Qed.

(** ** Finite decimal expansions *)

Lemma pos_lt_pow2_size (d : positive) : Z.pos d < 2 ^ Z.of_nat (Pos.size_nat d).
Proof.
  induction d as [d IH|d IH|]; simpl Pos.size_nat;
    rewrite ?Nat2Z.inj_succ, ?Z.pow_succ_r by lia; [lia | lia | done].
Qed.

Lemma divide_pow10_mono (d : Z) (k k' : nat) :
  (k <= k')%nat -> (d | 10 ^ Z.of_nat k) -> (d | 10 ^ Z.of_nat k').
Proof.
  intros Hk Hd. replace (Z.of_nat k') with (Z.of_nat (k' - k) + Z.of_nat k) by lia.
  rewrite Z.pow_add_r by lia. by apply Z.divide_mul_r.
Qed.

(** A divisor of a power of ten other than 1 is even or a multiple of 5. *)
Lemma divisor_of_pow10 (d : Z) (k : nat) :
  1 < d -> (d | 10 ^ Z.of_nat k) -> (2 | d) \/ (5 | d).
Proof.
  intros Hd. induction k as [|k IH]; intros Hk.
  - simpl in Hk. apply Z.divide_1_r_nonneg in Hk; lia.
  - rewrite Nat2Z.inj_succ, Z.pow_succ_r in Hk by lia.
    pose proof (Z.gcd_divide_l d 10) as Hgd.
    pose proof (Z.gcd_divide_r d 10) as Hg10.
    pose proof (Z.gcd_nonneg d 10) as Hg0.
    destruct (Z.eq_dec (Z.gcd d 10) 1) as [Hg1|Hg1].
    { apply IH. by apply (Z.gauss d 10). }
    generalize dependent (Z.gcd d 10). intros g Hgd Hg10 Hg0 Hg1.
    + assert (Hg : g = 2 \/ g = 5 \/ g = 10).
      { assert (g <= 10) by (apply Z.divide_pos_le; [lia | done]).
        destruct Hg10 as [c Hc].
        assert (g <> 0) by (intros ->; lia).
        assert (g = 1 \/ g = 2 \/ g = 3 \/ g = 4 \/ g = 5 \/ g = 6 \/ g = 7
                \/ g = 8 \/ g = 9 \/ g = 10) as Hcases by lia.
        repeat (destruct Hcases as [Hcases | Hcases]; [subst g; lia|]).
        lia. }
      destruct Hg as [Hg | [Hg | Hg]]; rewrite Hg in Hgd.
      * by left.
      * by right.
      * left. apply (Z.divide_trans 2 10 d); [by exists 5 | done].
Qed.

Lemma divide_pow10_bound (n : nat) (d : Z) :
  0 < d < 2 ^ Z.of_nat n -> (exists k : nat, (d | 10 ^ Z.of_nat k)) ->
  (d | 10 ^ Z.of_nat n).
Proof.
  revert d. induction n as [|n IH]; intros d Hd [k Hk].
  - simpl in Hd. lia.
  - destruct (Z.eq_dec d 1) as [->|Hd1]; [apply Z.divide_1_l|].
    rewrite Nat2Z.inj_succ, Z.pow_succ_r in * by lia.
    destruct (divisor_of_pow10 d k ltac:(lia) Hk) as [[c Hc] | [c Hc]].
    + assert (Hc' : (c | 10 ^ Z.of_nat n)).
      { apply IH; [lia|]. exists k.
        apply (Z.divide_trans c d); [exists 2; lia | done]. }
      destruct Hc' as [e He]. exists (5 * e). rewrite He, Hc. ring.
    + assert (Hc' : (c | 10 ^ Z.of_nat n)).
      { apply IH; [lia|]. exists k.
        apply (Z.divide_trans c d); [exists 5; lia | done]. }
      destruct Hc' as [e He]. exists (2 * e). rewrite He, Hc. ring.
Qed.

Lemma find_scale_exact (fuel k0 : nat) (d : Z) :
  0 < d -> (d | 10 ^ Z.of_nat (k0 + fuel)) ->
  (10 ^ Z.of_nat (find_scale fuel k0 d)) mod d = 0.
Proof.
  intros Hd. revert k0. induction fuel as [|fuel IH]; intros k0 Hk.
  - simpl. rewrite Nat.add_0_r in Hk. apply Z.mod_divide; [lia | done].
  - simpl. destruct (Z.eqb_spec (10 ^ Z.of_nat k0 mod d) 0) as [E|E]; [done|].
    apply IH. by replace (S k0 + fuel)%nat with (k0 + S fuel)%nat by lia.
Qed.

(** The search of [scale_of] finds the expansion of every decimal. *)
Lemma scale_of_exact (q : Qc) :
  is_decimal q ->
  (10 ^ Z.of_nat (scale_of (Qden q))) mod Z.pos (Qden q) = 0.
Proof.
  intros Hq. unfold scale_of. apply find_scale_exact; [lia|].
  apply divide_pow10_bound; [|exact Hq].
  pose proof (pos_lt_pow2_size (Qden q)). simpl. lia.
Qed.

Lemma is_decimal_of_Z (z : Z) : is_decimal (Qc_of_Z z).
Proof. exists 0%nat. simpl. apply Z.divide_1_l. Qed.

Lemma canon_gcd (q : Qc) : Z.gcd (Qnum q) (Z.pos (Qden q)) = 1.
Proof.
  destruct q as [q Hq]. simpl. rewrite <- Hq. apply gcd_Qred.
Qed.

(** A number that a positive integer scales to an integer has a
    denominator dividing it. *)
Lemma den_divides (q : Qc) (t m : Z) :
  (q * Qc_of_Z t)%Qc = Qc_of_Z m -> (Z.pos (Qden q) | t).
Proof.
  intros H. apply (f_equal this) in H.
  assert (E : (this (q * Qc_of_Z t)%Qc == Qnum q * t # Qden q)%Q).
  { unfold Qcmult, Q2Qc. simpl this. rewrite Qred_correct.
    destruct q as [[n d] Hq]. unfold Qmult, inject_Z, Qeq. simpl. lia. }
  rewrite H in E. unfold Qeq in E. simpl in E.
  apply (Z.gauss _ (Qnum q)); [|rewrite Z.gcd_comm; apply canon_gcd].
  exists m. lia.
Qed.

Lemma decimal_is_decimal (neg : bool) (mant : N) (e : Z) :
  is_decimal (decimal neg mant e).
Proof.
  unfold decimal. set (m := if neg then _ else _).
  destruct (Z.leb_spec 0 e) as [He|He].
  - rewrite <- Z2Qc_inj_mul. apply is_decimal_of_Z.
  - exists (Z.to_nat (- e)). rewrite Z2Nat.id by lia.
    apply (den_divides _ _ m).
    assert (Hne : Qc_of_Z (10 ^ (- e)) <> 0%Qc).
    { rewrite <- Z2Qc_inj_0. intros E. apply Z2Qc_inj in E.
      assert (0 < 10 ^ (- e)) by (apply Z.pow_pos_nonneg; lia). lia. }
    field. exact Hne.
Qed.

(** Every finite result of [parseFloat] is a decimal. *)
Lemma parseFloat_decimal (s : jsstring) (q : Qc) :
  parseFloat s = Fin q -> is_decimal q.
Proof.
  unfold parseFloat.
  destruct (read_sign true (trimStart s)) as [neg s0].
  destruct (starts_with (js "Infinity") s0); [by destruct neg|].
  destruct (span is_digit s0) as [ip s1].
  destruct (match s1 with
            | [] => ([], s1)
            | c :: r => if (c =? ch ".")%N then span is_digit r else ([], s1)
            end) as [fp s2].
  destruct (ip ++ fp); [done|].
  destruct (read_exponent s2) as [e s3].
  intros [= <-]. apply decimal_is_decimal.
Qed.

(** ** Number literals *)


Lemma delimited_stops_digits (s : jsstring) : delimited s -> stops_digits s.
Proof. destruct s as [|c r]; [done|]. by intros [-> | [-> | ->]]. Qed.

Lemma scaled_exact (n : Z) (d : positive) (k : nat) :
  (10 ^ Z.of_nat k) mod Z.pos d = 0 ->
  exists c, 10 ^ Z.of_nat k = Z.pos d * c /\ 0 < c
            /\ Z.abs n * 10 ^ Z.of_nat k / Z.pos d = Z.abs n * c.
Proof.
  intros H. apply Z.mod_divide in H; [|lia]. destruct H as [c Hc].
  assert (0 < 10 ^ Z.of_nat k) by (apply Z.pow_pos_nonneg; lia).
  exists c. split; [lia|]. split; [nia|].
  rewrite Hc. rewrite Z.mul_assoc. apply Z.div_mul. lia.
Qed.

Lemma Qc_mul_of_Z (q : Qc) (t : Z) :
  (this (q * Qc_of_Z t)%Qc == Qnum q * t # Qden q)%Q.
Proof.
  unfold Qcmult, Q2Qc. simpl this. rewrite Qred_correct.
  destruct q as [[n d] Hq]. unfold Qmult, inject_Z, Qeq. simpl. lia.
Qed.

(** The decimal that [Number_toString] writes denotes the number. *)
Lemma decimal_exact (q : Qc) :
  is_decimal q ->
  let k := scale_of (Qden q) in
  decimal (Qnum q <? 0)
    (Z.to_N (Z.abs (Qnum q) * 10 ^ Z.of_nat k / Z.pos (Qden q)))
    (0 - Z.of_nat k) = q.
Proof.
  intros Hd k. apply scale_of_exact in Hd. fold k in Hd.
  destruct (scaled_exact (Qnum q) (Qden q) k Hd) as (c & HT & Hc & Hs).
  rewrite Hs. unfold decimal.
  assert (Hm : (if Qnum q <? 0 then - Z.of_N (Z.to_N (Z.abs (Qnum q) * c))
                else Z.of_N (Z.to_N (Z.abs (Qnum q) * c))) = Qnum q * c).
  { rewrite Z2N.id by nia. destruct (Z.ltb_spec (Qnum q) 0); nia. }
  rewrite Hm.
  assert (Hq : (q * Qc_of_Z (10 ^ Z.of_nat k))%Qc = Qc_of_Z (Qnum q * c)).
  { apply Qc_is_canon. rewrite Qc_mul_of_Z. rewrite HT.
    unfold Qeq. simpl. lia. }
  assert (Hne : Qc_of_Z (10 ^ Z.of_nat k) <> 0%Qc).
  { rewrite <- Z2Qc_inj_0. intros E. apply Z2Qc_inj in E.
    assert (0 < 10 ^ Z.of_nat k) by (apply Z.pow_pos_nonneg; lia). lia. }
  destruct (Z.leb_spec 0 (0 - Z.of_nat k)) as [Hk|Hk].
  - assert (k = 0%nat) by lia. replace (0 - Z.of_nat k) with 0 by lia.
    rewrite <- Hq. replace (Z.of_nat k) with 0 by lia.
    change (Qc_of_Z (10 ^ 0)) with (Qc_of_Z 1). rewrite Z2Qc_inj_1.
    by rewrite !Qcmult_1_r.
  - replace (- (0 - Z.of_nat k)) with (Z.of_nat k) by lia.
    rewrite <- Hq. field. exact Hne.
Qed.

Lemma read_sign_minus (plus : bool) (s : jsstring) :
  read_sign plus (ch "-" :: s) = (true, s).
Proof. reflexivity. Qed.

Lemma read_sign_digit (c : N) (s : jsstring) :
  is_digit c = true -> read_sign false (c :: s) = (false, c :: s).
Proof.
  intros H. unfold read_sign. unfold is_digit in H.
  apply andb_true_iff in H as [H _]. apply N.leb_le in H.
  destruct (N.eqb_spec c (ch "-")) as [->|_]; [|done].
  vm_compute in H. done.
Qed.

Lemma read_exponent_delimited (s : jsstring) :
  delimited s -> read_exponent s = (0, s).
Proof. destruct s as [|c r]; [done|]. by intros [-> | [-> | ->]]. Qed.

Lemma parse_number_toString (q : Qc) (rest : jsstring) :
  is_decimal q -> delimited rest ->
  Json.parse_number (Number_toString q ++ rest) = Some (q, rest).
Proof.
  intros Hq Hrest. pose proof (decimal_exact q Hq) as Hval. cbv zeta in Hval.
  unfold Number_toString. cbv zeta.
  set (k := scale_of (Qden q)) in *.
  set (scaled := Z.to_N (Z.abs (Qnum q) * 10 ^ Z.of_nat k / Z.pos (Qden q))) in *.
  set (p := (10 ^ N.of_nat k)%N).
  set (frac := match k with
               | O => []
               | S _ => ch "." :: fixed_digits k (scaled mod p)%N
               end).
  assert (Hp : p <> 0%N) by (apply N.pow_nonzero; lia).
  assert (Hstop : stops_digits (frac ++ rest)).
  { unfold frac. destruct k; [by apply delimited_stops_digits | done]. }
  assert (Hfrac :
    match frac ++ rest with
    | c :: r =>
        if (c =? ch ".")%N then
          match span is_digit r with
          | ([], _) => None
          | (fp, s2) => Some (fp, s2)
          end
        else Some ([], frac ++ rest)
    | [] => Some ([], frac ++ rest)
    end = Some (fixed_digits k (scaled mod p)%N, rest)).
  { unfold frac. destruct k as [|k'] eqn:Ek.
    - simpl. destruct rest as [|c r]; [done|].
      by destruct Hrest as [-> | [-> | ->]].
    - rewrite <- app_comm_cons. cbv beta iota. rewrite N.eqb_refl.
      rewrite span_digits;
        [|apply fixed_digits_digit_list | by apply delimited_stops_digits].
      pose proof (fixed_digits_length (S k') (scaled mod p)%N) as Hl.
      by destruct (fixed_digits (S k') (scaled mod p)%N). }
  assert (Hdv : digits_val (digits (scaled / p)%N ++ fixed_digits k (scaled mod p)%N)
                = scaled).
  { rewrite digits_val_app, digits_val_digits, fixed_digits_val, fixed_digits_length.
    fold p. rewrite N.Div0.mod_mod.
    pose proof (N.div_mod scaled p Hp). lia. }
  destruct (digits_head (scaled / p)%N) as (c & t & Hd & Hc & Hz).
  pose proof (digits_digit_list (scaled / p)%N) as Hdl.
  assert (Hok :
    match digits (scaled / p)%N with
    | [] => false
    | [_] => true
    | c :: _ => negb (c =? 48)%N
    end = true).
  { rewrite Hd. destruct Hz as [-> | Hz]; [done|].
    destruct t; [done|]. by apply negb_true_iff, N.eqb_neq. }
  unfold Json.parse_number.
  assert (Hsign :
    read_sign false
      (((if Qnum q <? 0 then [ch "-"] else []) ++ digits (scaled / p)%N ++ frac) ++ rest)
    = (Qnum q <? 0, digits (scaled / p)%N ++ frac ++ rest)).
  { rewrite <- !app_assoc. destruct (Qnum q <? 0).
    - apply read_sign_minus.
    - rewrite app_nil_l, Hd, <- !app_comm_cons. by apply read_sign_digit. }
  rewrite Hsign. rewrite span_digits by done.
  rewrite Hok, Hfrac. rewrite read_exponent_delimited by done.
  rewrite Hdv, fixed_digits_length. by rewrite Hval.
Qed.

(** ** String literals *)

Lemma hex_val_digit (d : N) : (d < 16)%N -> Json.hex_val (Json.hex_digit d) = Some d.
Proof.
  intros H. destruct d as [|p]; [reflexivity|].
  do 4 (destruct p as [p|p|]; try reflexivity); lia.
Qed.

Lemma hex4_escape (c : N) :
  (c < 65536)%N ->
  Json.hex4 (Json.hex_digit (c / 4096)) (Json.hex_digit ((c / 256) mod 16))
    (Json.hex_digit ((c / 16) mod 16)) (Json.hex_digit (c mod 16)) = Some c.
Proof.
  intros H. unfold Json.hex4.
  rewrite !hex_val_digit;
    try (apply N.mod_lt; lia);
    try (apply N.Div0.div_lt_upper_bound; lia).
  f_equal.
  pose proof (N.div_mod c 16 ltac:(lia)).
  pose proof (N.div_mod (c / 16) 16 ltac:(lia)).
  pose proof (N.div_mod (c / 16 / 16) 16 ltac:(lia)).
  replace (c / 4096)%N with (c / 16 / 16 / 16)%N
    by (rewrite !N.Div0.div_div; reflexivity).
  replace (c / 256)%N with (c / 16 / 16)%N
    by (rewrite !N.Div0.div_div; reflexivity).
  lia.
Qed.

Lemma parse_chars_escape_u (c : N) (tail : jsstring) :
  (c < 65536)%N ->
  Json.parse_chars (Json.escape_u c ++ tail) = pcons c (Json.parse_chars tail).
Proof.
  intros H. unfold Json.escape_u.
  change (Json.parse_chars
            ([ch "\"; ch "u"; Json.hex_digit (c / 4096);
              Json.hex_digit ((c / 256) mod 16); Json.hex_digit ((c / 16) mod 16);
              Json.hex_digit (c mod 16)] ++ tail))
    with (match Json.hex4 (Json.hex_digit (c / 4096)) (Json.hex_digit ((c / 256) mod 16))
                  (Json.hex_digit ((c / 16) mod 16)) (Json.hex_digit (c mod 16)) with
          | Some u => pcons u (Json.parse_chars tail)
          | None => None
          end).
  by rewrite hex4_escape.
Qed.

Lemma parse_chars_raw (c : N) (tail : jsstring) :
  c <> 34%N -> c <> ch "\" -> (32 <= c)%N ->
  Json.parse_chars (c :: tail) = pcons c (Json.parse_chars tail).
Proof.
  intros H1 H2 H3. cbn [Json.parse_chars].
  rewrite (proj2 (N.eqb_neq c 34) H1), (proj2 (N.eqb_neq c (ch "\")) H2).
  rewrite (proj2 (N.ltb_ge c 32) H3). reflexivity.
Qed.

Lemma parse_quote_unit (c : N) (tail : jsstring) :
  Json.parse_chars (Json.quote_unit c ++ tail) = pcons c (Json.parse_chars tail).
Proof.
  unfold Json.quote_unit.
  destruct (N.eqb_spec c 34) as [->|H34]; [reflexivity|].
  destruct (N.eqb_spec c (ch "\")) as [->|H92]; [reflexivity|].
  destruct (N.eqb_spec c 8) as [->|H8]; [reflexivity|].
  destruct (N.eqb_spec c 9) as [->|H9]; [reflexivity|].
  destruct (N.eqb_spec c 10) as [->|H10]; [reflexivity|].
  destruct (N.eqb_spec c 12) as [->|H12]; [reflexivity|].
  destruct (N.eqb_spec c 13) as [->|H13]; [reflexivity|].
  destruct (N.ltb_spec c 32) as [H32|H32].
  { apply parse_chars_escape_u. lia. }
  destruct (Json.is_high c || Json.is_low c) eqn:Hs.
  - apply parse_chars_escape_u.
    unfold Json.is_high, Json.is_low in Hs.
    apply orb_true_iff in Hs as [Hs | Hs];
      apply andb_true_iff in Hs as [_ Hs]; apply N.leb_le in Hs; lia.
  - by apply parse_chars_raw.
Qed.

Lemma parse_chars_pair (c d : N) (tail : jsstring) :
  Json.is_high c = true -> Json.is_low d = true ->
  Json.parse_chars (c :: d :: tail) = pcons c (pcons d (Json.parse_chars tail)).
Proof.
  unfold Json.is_high, Json.is_low. intros Hc Hd.
  apply andb_true_iff in Hc as [Hc _]. apply andb_true_iff in Hd as [Hd _].
  apply N.leb_le in Hc, Hd.
  assert (E : ch "\" = 92%N) by reflexivity.
  rewrite !parse_chars_raw; try done; lia.
Qed.

Lemma parse_quote_units (s rest : jsstring) :
  Json.parse_chars (Json.quote_units s ++ 34%N :: rest) = Some (s, rest).
Proof.
  assert (H : forall n s, (length s <= n)%nat ->
               Json.parse_chars (Json.quote_units s ++ 34%N :: rest) = Some (s, rest)).
  { clear s. induction n as [|n IH]; intros s Hn.
    - destruct s; [reflexivity | simpl in Hn; lia].
    - destruct s as [|c r]; [reflexivity|]. simpl in Hn.
      cbn [Json.quote_units].
      destruct (Json.is_high c) eqn:Hc.
      + destruct r as [|d r'].
        * rewrite parse_quote_unit. reflexivity.
        * destruct (Json.is_low d) eqn:Hd.
          -- rewrite <- !app_comm_cons, parse_chars_pair by done.
             rewrite IH by (simpl in Hn; lia). reflexivity.
          -- rewrite <- app_assoc, parse_quote_unit.
             rewrite IH by lia. reflexivity.
      + rewrite <- app_assoc, parse_quote_unit.
        rewrite IH by lia. reflexivity. }
  by apply (H (length s)).
Qed.

Lemma quote_app (s rest : jsstring) :
  Json.quote s ++ rest = 34%N :: Json.quote_units s ++ 34%N :: rest.
Proof. unfold Json.quote. by rewrite <- app_comm_cons, <- app_assoc. Qed.

(** ** Values *)

Lemma serialize_arr (l : list value) :
  Json.serialize (VArr l) = ch "[" :: serialize_elements l ++ [ch "]"].
Proof.
  reflexivity.
Qed.

Lemma serialize_obj (o : list (jsstring * value)) :
  Json.serialize (VObj o) = ch "{" :: serialize_members true o ++ [ch "}"].
Proof.
  reflexivity.
Qed.

Lemma need_arr (l : list value) : need (VArr l) = S (need_elements l).
Proof.
  reflexivity.
Qed.

Lemma need_obj (o : list (jsstring * value)) : need (VObj o) = S (need_members o).
Proof.
  reflexivity.
Qed.

Lemma supported_arr (l : list value) : supported (VArr l) <-> Forall supported l.
Proof.
  cbn [supported]. induction l as [|v l IH].
  - split; [constructor | done].
  - rewrite Forall_cons, IH. reflexivity.
Qed.

Lemma supported_obj (o : list (jsstring * value)) :
  supported (VObj o) <-> NoDup (obj_keys o) /\ Forall (fun kv => supported kv.2) o.
Proof.
  cbn [supported]. apply and_iff_compat_l.
  induction o as [|[k v] o IH].
  - split; [constructor | done].
  - rewrite Forall_cons, IH. reflexivity.
Qed.

Lemma skip_ws_head (c : N) (r : jsstring) :
  Json.is_ws c = false -> Json.skip_ws (c :: r) = c :: r.
Proof. intros H. simpl. by rewrite H. Qed.

Lemma number_head (q : Qc) :
  exists c r, Number_toString q = c :: r /\ (c = ch "-" \/ is_digit c = true).
Proof.
  unfold Number_toString. cbv zeta. destruct (Qnum q <? 0).
  - eexists _, _. split; [reflexivity | by left].
  - destruct (digits_head
                (Z.to_N (Z.abs (Qnum q) * 10 ^ Z.of_nat (scale_of (Qden q))
                         / Z.pos (Qden q))
                 / 10 ^ N.of_nat (scale_of (Qden q)))%N) as (c & t & -> & Hc & _).
    eexists _, _. split; [reflexivity | by right].
Qed.


Lemma digit_opens_value (c : N) : c = ch "-" \/ is_digit c = true -> opens_value c.
Proof.
  intros [-> | H]; [by repeat split|].
  unfold is_digit in H. apply andb_true_iff in H as [H1 H2].
  apply N.leb_le in H1, H2. unfold opens_value, Json.is_ws.
  repeat split.
  - repeat (apply orb_false_iff; split); apply N.eqb_neq; lia.
  - intros ->. vm_compute in H2. done.
  - intros ->. vm_compute in H2. done.
Qed.

Lemma serialize_head (v : value) :
  v <> VUndefined -> (forall n, v = VNum n -> exists q, n = Fin q) ->
  exists c r, Json.serialize v = c :: r /\ opens_value c.
Proof.
  intros Hu Hn. destruct v as [| |[]|n|s|l|o]; try done.
  - eexists _, _. split; [reflexivity | by repeat split].
  - eexists _, _. split; [reflexivity | by repeat split].
  - eexists _, _. split; [reflexivity | by repeat split].
  - destruct (Hn n eq_refl) as [q ->].
    destruct (number_head q) as (c & r & E & Hc).
    exists c, r. split; [exact E | by apply digit_opens_value].
  - eexists _, _. split; [reflexivity | by repeat split].
  - rewrite serialize_arr. eexists _, _. split; [reflexivity | by repeat split].
  - rewrite serialize_obj. eexists _, _. split; [reflexivity | by repeat split].
Qed.

Lemma supported_head (v : value) :
  supported v -> exists c r, Json.serialize v = c :: r /\ opens_value c.
Proof.
  intros H. apply serialize_head.
  - by intros ->.
  - intros n ->. destruct H as (q & -> & _). eauto.
Qed.

(** One step of each parser on the text it expects. *)

Lemma parse_value_number (fuel : nat) (c : N) (r : jsstring) :
  c = ch "-" \/ is_digit c = true ->
  Json.parse_value (S fuel) (c :: r) =
  match Json.parse_number (c :: r) with
  | Some (q, rest) => Some (VNum (Fin q), rest)
  | None => None
  end.
Proof.
  intros [-> | H]; [reflexivity|].
  assert (Hw : Json.is_ws c = false) by (by apply digit_opens_value; right).
  unfold is_digit in H. apply andb_true_iff in H as [H1 H2].
  apply N.leb_le in H1, H2.
  cbn [Json.parse_value]. rewrite skip_ws_head by done.
  repeat match goal with
         | |- context [(c =? ?x)%N] =>
             destruct (N.eqb_spec c x) as [E|_];
             [exfalso; rewrite E in H1, H2; vm_compute in H1, H2; done|]
         end.
  reflexivity.
Qed.

Lemma parse_value_string (fuel : nat) (r : jsstring) :
  Json.parse_value (S fuel) (34%N :: r) =
  match Json.parse_chars r with
  | Some (t, rest) => Some (VStr t, rest)
  | None => None
  end.
Proof. reflexivity. Qed.

Lemma parse_value_array (fuel : nat) (c : N) (r : jsstring) :
  opens_value c ->
  Json.parse_value (S fuel) (ch "[" :: c :: r) =
  match Json.parse_elements fuel (c :: r) with
  | Some (l, rest) => Some (VArr l, rest)
  | None => None
  end.
Proof.
  intros (Hw & Hb & _).
  change (Json.parse_value (S fuel) (ch "[" :: c :: r))
    with (match Json.skip_ws (c :: r) with
          | c' :: r' =>
              if (c' =? ch "]")%N then Some (VArr [], r')
              else
                match Json.parse_elements fuel (c :: r) with
                | Some (l, rest) => Some (VArr l, rest)
                | None => None
                end
          | [] => None
          end).
  rewrite skip_ws_head by done. by rewrite (proj2 (N.eqb_neq _ _) Hb).
Qed.

Lemma parse_value_object (fuel : nat) (r : jsstring) :
  Json.parse_value (S fuel) (ch "{" :: 34%N :: r) =
  match Json.parse_members fuel (34%N :: r) with
  | Some (o, rest) => Some (VObj o, rest)
  | None => None
  end.
Proof. reflexivity. Qed.

Lemma parse_elements_S (fuel : nat) (s : jsstring) :
  Json.parse_elements (S fuel) s =
  match Json.parse_value fuel s with
  | Some (v, r) =>
      match Json.skip_ws r with
      | c :: r' =>
          if (c =? ch ",")%N then
            match Json.parse_elements fuel r' with
            | Some (l, rest) => Some (v :: l, rest)
            | None => None
            end
          else if (c =? ch "]")%N then Some ([v], r')
          else None
      | [] => None
      end
  | None => None
  end.
Proof. reflexivity. Qed.

Lemma parse_members_S (fuel : nat) (k rest0 : jsstring) (r : jsstring) :
  Json.parse_chars r = Some (k, ch ":" :: rest0) ->
  Json.parse_members (S fuel) (34%N :: r) =
  match Json.parse_value fuel rest0 with
  | Some (v, r2) =>
      match Json.skip_ws r2 with
      | c2 :: r3 =>
          if (c2 =? ch ",")%N then
            match Json.parse_members fuel r3 with
            | Some (o, rest) => Some ((k, v) :: o, rest)
            | None => None
            end
          else if (c2 =? ch "}")%N then Some ([(k, v)], r3)
          else None
      | [] => None
      end
  | None => None
  end.
Proof.
  intros H.
  change (Json.parse_members (S fuel) (34%N :: r))
    with (match Json.parse_chars r with
          | Some (k, r0) =>
              match Json.skip_ws r0 with
              | c0 :: r1 =>
                  if (c0 =? ch ":")%N then
                    match Json.parse_value fuel r1 with
                    | Some (v, r2) =>
                        match Json.skip_ws r2 with
                        | c2 :: r3 =>
                            if (c2 =? ch ",")%N then
                              match Json.parse_members fuel r3 with
                              | Some (o, rest) => Some ((k, v) :: o, rest)
                              | None => None
                              end
                            else if (c2 =? ch "}")%N then Some ([(k, v)], r3)
                            else None
                        | [] => None
                        end
                    | None => None
                    end
                  else None
              | [] => None
              end
          | None => None
          end).
  rewrite H. reflexivity.
Qed.

Lemma need_pos (v : value) : (1 <= need v)%nat.
Proof. destruct v; simpl; lia. Qed.

Lemma supported_defined (v : value) : supported v -> v <> VUndefined.
Proof. by intros H ->. Qed.

Lemma members_cons (first : bool) (k : jsstring) (v : value)
  (o : list (jsstring * value)) :
  v <> VUndefined ->
  serialize_members first ((k, v) :: o) =
  (if first then [] else [ch ","])
  ++ Json.quote k ++ ch ":" :: Json.serialize v ++ serialize_members false o.
Proof. by destruct v. Qed.

Lemma members_false (o : list (jsstring * value)) :
  o <> [] -> Forall (fun kv => supported kv.2) o ->
  serialize_members false o = ch "," :: serialize_members true o.
Proof.
  intros Hne Ho. destruct o as [|[k v] o]; [done|].
  apply Forall_cons in Ho as [Hv _]. apply supported_defined in Hv.
  by rewrite !members_cons.
Qed.

Lemma elements_head (l : list value) :
  l <> [] -> Forall supported l ->
  exists c r, serialize_elements l = c :: r /\ opens_value c.
Proof.
  intros Hne Hl. destruct l as [|v l]; [done|].
  apply Forall_cons in Hl as [Hv _].
  destruct (supported_head v Hv) as (c & r & E & Hc).
  cbn [serialize_elements]. rewrite E. destruct l.
  - eauto.
  - rewrite <- app_comm_cons. eauto.
Qed.

Lemma delimited_comma (s : jsstring) : delimited (ch "," :: s).
Proof. by left. Qed.

Lemma delimited_bracket (s : jsstring) : delimited (ch "]" :: s).
Proof. by right; left. Qed.

Lemma delimited_brace (s : jsstring) : delimited (ch "}" :: s).
Proof. by right; right. Qed.

(** Parsing the text of a supported value gives the value back and stops
    at its end, with any fuel from [need] on. *)
Lemma parse_serialize (fuel : nat) :
  (forall v rest,
     supported v -> (need v <= fuel)%nat -> delimited rest ->
     Json.parse_value fuel (Json.serialize v ++ rest) = Some (v, rest))
  /\ (forall l rest,
        l <> [] -> Forall supported l -> (need_elements l <= fuel)%nat ->
        Json.parse_elements fuel (serialize_elements l ++ ch "]" :: rest)
        = Some (l, rest))
  /\ (forall o rest,
        o <> [] -> Forall (fun kv => supported kv.2) o ->
        (need_members o <= fuel)%nat ->
        Json.parse_members fuel (serialize_members true o ++ ch "}" :: rest)
        = Some (o, rest)).
Proof.
  induction fuel as [|fuel (IHv & IHe & IHm)].
  { split; [|split].
    - intros v rest _ H. pose proof (need_pos v). lia.
    - intros [|v l] rest Hne _ H; [done | simpl in H; lia].
    - intros [|[k v] o] rest Hne _ H; [done | simpl in H; lia]. }
  split; [|split].
  - intros v rest Hs Hn Hrest. destruct v as [| |b|n|s|l|o].
    + done.
    + reflexivity.
    + destruct b; reflexivity.
    + destruct Hs as (q & -> & Hq). cbn [Json.serialize].
      destruct (number_head q) as (c & r & E & Hc).
      rewrite E, <- app_comm_cons, parse_value_number by done.
      rewrite app_comm_cons, <- E. by rewrite parse_number_toString.
    + cbn [Json.serialize]. rewrite quote_app, parse_value_string.
      by rewrite parse_quote_units.
    + rewrite serialize_arr. apply supported_arr in Hs. rewrite need_arr in Hn.
      destruct (decide (l = [])) as [->|Hne]; [reflexivity|].
      destruct (elements_head l Hne Hs) as (c & r & E & Hc).
      rewrite <- app_comm_cons, <- app_assoc, E, <- app_comm_cons.
      rewrite parse_value_array by done.
      rewrite app_comm_cons, <- E.
      change ([ch "]"] ++ rest) with (ch "]" :: rest).
      rewrite IHe by (done || lia). reflexivity.
    + rewrite serialize_obj. apply supported_obj in Hs as [_ Hs].
      rewrite need_obj in Hn.
      destruct o as [|[k v] o]; [reflexivity|].
      pose proof Hs as Hs'. apply Forall_cons in Hs' as [Hv _].
      pose proof (IHm ((k, v) :: o) rest ltac:(done) Hs ltac:(lia)) as Hm.
      rewrite <- app_comm_cons, <- app_assoc.
      change ([ch "}"] ++ rest) with (ch "}" :: rest).
      rewrite members_cons in * by (by apply supported_defined).
      rewrite app_nil_l in *. rewrite <- app_assoc, quote_app in *.
      rewrite parse_value_object, Hm. reflexivity.
  - intros l rest Hne Hl Hn. destruct l as [|v l]; [done|].
    apply Forall_cons in Hl as [Hv Hl]. cbn [need_elements] in Hn.
    rewrite parse_elements_S. destruct l as [|v' l].
    + cbn [serialize_elements].
      rewrite IHv by (done || lia || apply delimited_bracket).
      reflexivity.
    + change (serialize_elements (v :: v' :: l))
        with (Json.serialize v ++ ch "," :: serialize_elements (v' :: l)).
      rewrite <- app_assoc, <- app_comm_cons.
      rewrite IHv by (done || lia || apply delimited_comma).
      rewrite skip_ws_head by done. rewrite N.eqb_refl.
      rewrite IHe by (done || lia). reflexivity.
  - intros o rest Hne Ho Hn. destruct o as [|[k v] o]; [done|].
    pose proof Ho as Ho'. apply Forall_cons in Ho' as [Hv Ho'].
    cbn [need_members] in Hn. simpl in Hv.
    rewrite members_cons by (by apply supported_defined).
    rewrite app_nil_l, <- app_assoc, quote_app, <- app_comm_cons, <- app_assoc.
    rewrite (parse_members_S fuel k
               (Json.serialize v ++ serialize_members false o ++ ch "}" :: rest))
      by apply parse_quote_units.
    destruct (decide (o = [])) as [->|Hne'].
    + cbn [serialize_members]. rewrite app_nil_l.
      rewrite IHv by (done || lia || apply delimited_brace).
      reflexivity.
    + rewrite members_false by done. rewrite <- app_comm_cons.
      rewrite IHv by (done || lia || apply delimited_comma).
      rewrite skip_ws_head by done. rewrite N.eqb_refl.
      rewrite IHm by (done || lia). reflexivity.
Qed.

(** Induction on values that reaches into arrays and objects. *)
Lemma value_ind' (P : value -> Prop) :
  P VUndefined -> P VNull -> (forall b, P (VBool b)) -> (forall n, P (VNum n)) ->
  (forall s, P (VStr s)) ->
  (forall l, Forall P l -> P (VArr l)) ->
  (forall o, Forall (fun kv => P kv.2) o -> P (VObj o)) ->
  forall v, P v.
Proof.
  intros Hu Hnull Hb Hn Hs Ha Ho. fix IH 1. intros [| |b|n|s|l|o].
  - exact Hu.
  - exact Hnull.
  - apply Hb.
  - apply Hn.
  - apply Hs.
  - apply Ha. revert l. fix IHl 1. intros [|v l]; constructor; [apply IH | apply IHl].
  - apply Ho. revert o. fix IHo 1. intros [|[k v] o]; constructor; [apply IH | apply IHo].
Qed.

Lemma obj_set_fresh {A : Type} (k : jsstring) (v : A) (o : list (jsstring * A)) :
  k ∉ obj_keys o -> obj_set k v o = o ++ [(k, v)].
Proof.
  induction o as [|[k' v'] o IH]; intros Hk; [done|].
  simpl in *. apply not_elem_of_cons in Hk as [Hne Hk].
  rewrite bool_decide_eq_false_2 by done. by rewrite IH.
Qed.

Lemma build_object_fresh (l acc : list (jsstring * value)) :
  NoDup (obj_keys (acc ++ l)) ->
  fold_left (fun acc '(k, v) => obj_set k v acc) l acc = acc ++ l.
Proof.
  revert acc. induction l as [|[k v] l IH]; intros acc Hnd.
  - by rewrite app_nil_r.
  - simpl fold_left. rewrite obj_set_fresh.
    + rewrite IH; rewrite <- app_assoc; done.
    + unfold obj_keys in Hnd. rewrite map_app in Hnd.
      apply NoDup_app in Hnd as (_ & Hd & _).
      intros Hin. apply (Hd k Hin). simpl. left.
Qed.

Lemma build_object_NoDup (o : list (jsstring * value)) :
  NoDup (obj_keys o) -> Json.build_object o = o.
Proof. intros H. unfold Json.build_object. by rewrite build_object_fresh. Qed.

Lemma normalize_supported (v : value) : supported v -> Json.normalize v = v.
Proof.
  induction v as [| |b|n|s|l IH|o IH] using value_ind'; intros Hs; try done.
  - apply supported_arr in Hs. cbn [Json.normalize]. f_equal.
    induction l as [|v l IHl]; [done|].
    apply Forall_cons in IH as [IHv IH]. apply Forall_cons in Hs as [Hv Hs].
    simpl. by rewrite IHv, IHl.
  - apply supported_obj in Hs as [Hnd Hs]. cbn [Json.normalize]. f_equal.
    assert (E : map (fun '(k, v) => (k, Json.normalize v)) o = o).
    { clear Hnd. induction o as [|[k v] o IHo]; [done|].
      apply Forall_cons in IH as [IHv IH]. apply Forall_cons in Hs as [Hv Hs].
      simpl in *. by rewrite IHv, IHo. }
    rewrite E. by apply build_object_NoDup.
Qed.

Lemma quote_length (k : jsstring) : (2 <= length (Json.quote k))%nat.
Proof. unfold Json.quote. simpl. rewrite length_app. simpl. lia. Qed.

Lemma need_le_length (v : value) :
  supported v -> (need v <= length (Json.serialize v))%nat.
Proof.
  induction v as [| |b|n|s|l IH|o IH] using value_ind'; intros Hs; try done.
  - simpl. lia.
  - destruct b; simpl; lia.
  - destruct Hs as (q & -> & _). cbn [Json.serialize need].
    destruct (number_head q) as (c & r & -> & _). simpl. lia.
  - cbn [Json.serialize need]. pose proof (quote_length s). lia.
  - apply supported_arr in Hs. rewrite serialize_arr, need_arr.
    assert (H : (need_elements l <= length (serialize_elements l) + 1)%nat).
    { induction l as [|v l IHl]; [simpl; lia|].
      apply Forall_cons in IH as [IHv IH]. apply Forall_cons in Hs as [Hv Hs].
      specialize (IHv Hv). specialize (IHl IH Hs).
      cbn [need_elements serialize_elements]. destruct l.
      - simpl in *. lia.
      - rewrite length_app. simpl length in *. lia. }
    simpl length. rewrite length_app. simpl. lia.
  - apply supported_obj in Hs as [_ Hs]. rewrite serialize_obj, need_obj.
    assert (H : forall first,
              (need_members o <= length (serialize_members first o))%nat).
    { induction o as [|[k v] o IHo]; intros first; [simpl; lia|].
      apply Forall_cons in IH as [IHv IH]. apply Forall_cons in Hs as [Hv Hs].
      specialize (IHv Hv). specialize (IHo IH Hs false). simpl in Hv.
      rewrite members_cons by (by apply supported_defined).
      pose proof (quote_length k). simpl in IHv.
      generalize dependent (Json.quote k). intros qk Hqk.
      cbn [need_members]. rewrite !length_app. simpl length.
      rewrite !length_app. lia. }
    specialize (H true). simpl length. rewrite length_app. simpl. lia.
Qed.

(** [JSON.parse(JSON.stringify(v))] is [v] for a supported value. *)
Lemma parse_serialize_value (v : value) :
  supported v -> Json.parse (Json.serialize v) = Some v.
Proof.
  intros Hs. unfold Json.parse.
  pose proof (need_le_length v Hs) as Hn.
  destruct (parse_serialize (S (length (Json.serialize v)))) as (Hv & _ & _).
  specialize (Hv v [] Hs ltac:(lia) I). rewrite app_nil_r in Hv.
  rewrite Hv. simpl. by rewrite normalize_supported.
Qed.

Lemma serialize_nonempty (v : value) :
  supported v -> nonempty (Json.serialize v) = true.
Proof. intros Hs. by destruct (supported_head v Hs) as (c & r & -> & _). Qed.

(** C8 (amended). A supported value (a finite number, a boolean, a
    string, null, or a sequence or mapping of supported values) that is
    saved under a key is loaded back as the same value; a stored string
    that is not empty and does not parse is loaded as it is; an empty
    stored string counts as absent and gives the default. *)
Theorem C8_store_round_trip (ls : Storage) (key : jsstring) :
  (forall v, supported v -> loadSetting (saveSetting ls key v) key = v)
  /\ (forall stored,
        ls !! key = Some stored -> stored <> [] -> Json.parse stored = None ->
        loadSetting ls key = VStr stored)
  /\ (ls !! key = Some [] -> loadSetting ls key = DEFAULTS_get key).
Proof.
  split; [|split].
  - intros v Hs. unfold loadSetting, saveSetting, localStorage.getItem,
      localStorage.setItem.
    rewrite lookup_insert_eq.
    assert (E : Json.stringify v = Some (Json.serialize v)).
    { destruct v; done. }
    rewrite E, serialize_nonempty, parse_serialize_value by done. reflexivity.
  - intros stored Hl Hne Hp. unfold loadSetting, localStorage.getItem.
    rewrite Hl, Hp. by destruct stored.
  - intros Hl. unfold loadSetting, localStorage.getItem. by rewrite Hl.
Qed.

(** C8, counterexample.  An infinite number is not loaded back: saved
    alone it comes back as null, and the price Infinity that the
    categories prompt accepts is null in the store.  An empty stored
    string, which does not parse, is not loaded as it is. *)
Lemma C8_counterexample :
  let st := (saveSettings (visit_categories (js "Lux:Infinity")) initial_state).1 in
  loadSetting (saveSetting ∅ (js "price") (VNum PInf)) (js "price") = VNull
  /\ carCategories (config st) = [(js "Lux", PInf)]
  /\ loadSetting (storage st) (js "carCategories") = VObj [(js "Lux", VNull)]
  /\ Json.parse [] = None
  /\ loadSetting (<[js "phoneNumber" := []]> ∅) (js "phoneNumber")
     = VStr (js "+302101234567").
Proof. vm_compute. repeat split; reflexivity. Qed.

(** ** Facts about the settings panel *)

Lemma answered_None (a : option jsstring) :
  a = None \/ a = Some [] -> answered a = None.
Proof. by intros [-> | ->]. Qed.

Lemma answered_Some (a : option jsstring) (s : jsstring) :
  answered a = Some s -> a = Some s /\ s <> [].
Proof.
  destruct a as [[|c r]|]; simpl; try discriminate. by intros [= <-].
Qed.

Lemma persist_lookup_ne (key K : jsstring) (v : value) (st : State) :
  K <> key -> storage (persist key v st) !! K = storage st !! K.
Proof.
  intros Hne. unfold persist, saveSetting, localStorage.setItem. simpl.
  by rewrite lookup_insert_ne.
Qed.

Lemma persist_lookup (key : jsstring) (v : value) (st : State) :
  v <> VUndefined ->
  storage (persist key v st) !! key = Some (Json.serialize v).
Proof.
  intros Hv. unfold persist, saveSetting, localStorage.setItem. simpl.
  rewrite lookup_insert_eq. destruct v; done.
Qed.

(** *** What each block leaves alone *)

Section Frames.

Context {A : Type} (P : Config -> A).
Variable i : SettingsInput.
Variable st : State.

Lemma edit_basic_frame :
  (forall v c, P (set_phoneNumber v c) = P c) ->
  (forall v c, P (set_vipCode v c) = P c) ->
  (forall v c, P (set_vipGreeting v c) = P c) ->
  P (config (edit_basic i st)) = P (config st).
Proof. intros H1 H2 H3. unfold edit_basic, assign. simpl. by rewrite H3, H2, H1. Qed.

Lemma edit_paymentMethods_frame :
  (forall v c, P (set_paymentMethods v c) = P c) ->
  P (config (edit_paymentMethods i st)) = P (config st).
Proof.
  intros H. unfold edit_paymentMethods. destruct (answered (pay i)); [|done].
  simpl. apply H.
Qed.

Lemma edit_carCategories_frame :
  (forall v c, P (set_carCategories v c) = P c) ->
  P (config (edit_carCategories i st)) = P (config st).
Proof.
  intros H. unfold edit_carCategories. destruct (answered (catInput i)); [|done].
  destruct (0 <? _)%nat; [|done]. simpl. apply H.
Qed.

Lemma edit_extras_frame :
  (forall v c, P (set_extras v c) = P c) ->
  P (config (edit_extras i st)) = P (config st).
Proof.
  intros H. unfold edit_extras. destruct (answered (extrasInput i)); [|done].
  destruct (0 <? _)%nat; [|done]. simpl. apply H.
Qed.

Lemma edit_depositPercent_frame :
  (forall v c, P (set_depositPercent v c) = P c) ->
  P (config (edit_depositPercent i st)) = P (config st).
Proof.
  intros H. unfold edit_depositPercent. destruct (depInput i); [|done].
  destruct (_ && _); [|done]. simpl. apply H.
Qed.

Lemma edit_adminEmail_frame :
  (forall v c, P (set_adminEmail v c) = P c) ->
  P (config (edit_adminEmail i st)) = P (config st).
Proof.
  intros H. unfold edit_adminEmail. destruct (answered (emailPrompt i)); [|done].
  simpl. apply H.
Qed.

Lemma persist_basic_frame : P (config (persist_basic st)) = P (config st).
Proof. reflexivity. Qed.

Lemma edit_useWhatsApp_frame :
  (forall v c, P (set_useWhatsApp v c) = P c) ->
  P (config (edit_useWhatsApp i st)) = P (config st).
Proof.
  intros H. unfold edit_useWhatsApp. destruct (waInput i); [|done].
  simpl. apply H.
Qed.

End Frames.

Section StoreFrames.

Variable i : SettingsInput.
Variable st : State.
Variable K : jsstring.

Lemma edit_basic_store : storage (edit_basic i st) = storage st.
Proof. reflexivity. Qed.

Lemma edit_paymentMethods_store :
  K <> js "paymentMethods" ->
  storage (edit_paymentMethods i st) !! K = storage st !! K.
Proof.
  intros H. unfold edit_paymentMethods. destruct (answered (pay i)); [|done].
  by rewrite persist_lookup_ne.
Qed.

Lemma edit_carCategories_store :
  K <> js "carCategories" ->
  storage (edit_carCategories i st) !! K = storage st !! K.
Proof.
  intros H. unfold edit_carCategories. destruct (answered (catInput i)); [|done].
  destruct (0 <? _)%nat; [|done]. by rewrite persist_lookup_ne.
Qed.

Lemma edit_extras_store :
  K <> js "extras" ->
  storage (edit_extras i st) !! K = storage st !! K.
Proof.
  intros H. unfold edit_extras. destruct (answered (extrasInput i)); [|done].
  destruct (0 <? _)%nat; [|done]. by rewrite persist_lookup_ne.
Qed.

Lemma edit_depositPercent_store :
  K <> js "depositPercent" ->
  storage (edit_depositPercent i st) !! K = storage st !! K.
Proof.
  intros H. unfold edit_depositPercent. destruct (depInput i); [|done].
  destruct (_ && _); [|done]. by rewrite persist_lookup_ne.
Qed.

Lemma edit_adminEmail_store :
  K <> js "adminEmail" ->
  storage (edit_adminEmail i st) !! K = storage st !! K.
Proof.
  intros H. unfold edit_adminEmail. destruct (answered (emailPrompt i)); [|done].
  by rewrite persist_lookup_ne.
Qed.

Lemma persist_basic_store :
  K <> js "phoneNumber" -> K <> js "vipCode" -> K <> js "vipGreeting" ->
  storage (persist_basic st) !! K = storage st !! K.
Proof.
  intros H1 H2 H3. unfold persist_basic. cbv zeta.
  by rewrite !persist_lookup_ne.
Qed.

Lemma edit_useWhatsApp_store :
  K <> js "useWhatsApp" ->
  storage (edit_useWhatsApp i st) !! K = storage st !! K.
Proof.
  intros H. unfold edit_useWhatsApp. cbv zeta.
  rewrite persist_lookup_ne by done. by destruct (waInput i).
Qed.

End StoreFrames.

(** The state after [saveSettings], block by block. *)
Lemma saveSettings_state (i : SettingsInput) (st : State) :
  (saveSettings i st).1 =
  edit_useWhatsApp i
    (persist_basic
       (edit_adminEmail i
          (edit_depositPercent i
             (edit_extras i
                (edit_carCategories i
                   (edit_paymentMethods i (edit_basic i st))))))).
Proof. reflexivity. Qed.

(** Rewrites a projection or a lookup of another key through the blocks
    that follow or precede the one of interest. *)
Ltac frame :=
  repeat first
    [ rewrite edit_useWhatsApp_frame by reflexivity
    | rewrite persist_basic_frame
    | rewrite edit_adminEmail_frame by reflexivity
    | rewrite edit_depositPercent_frame by reflexivity
    | rewrite edit_extras_frame by reflexivity
    | rewrite edit_carCategories_frame by reflexivity
    | rewrite edit_paymentMethods_frame by reflexivity
    | rewrite edit_basic_frame by reflexivity
    | rewrite edit_useWhatsApp_store by keys_differ
    | rewrite persist_basic_store by keys_differ
    | rewrite edit_adminEmail_store by keys_differ
    | rewrite edit_depositPercent_store by keys_differ
    | rewrite edit_extras_store by keys_differ
    | rewrite edit_carCategories_store by keys_differ
    | rewrite edit_paymentMethods_store by keys_differ
    | rewrite edit_basic_store ].


Lemma Qc_leb_le (x y : Qc) : Num.Qc_leb x y = true <-> (x <= y)%Qc.
Proof.
  unfold Num.Qc_leb. rewrite Qcle_alt.
  destruct (x ?= y)%Qc; split; intros; congruence.
Qed.

(** The test that guards the assignment of the deposit percentage. *)
Lemma percent_guard (x : number) :
  negb (Num.isNaN x) && Num.ge x (num 0) && Num.le x (num 100) = true
  <-> in_percent_range x.
Proof.
  unfold in_percent_range. split.
  - destruct x as [| | |q]; simpl; try discriminate.
    rewrite andb_true_iff, !Qc_leb_le. intros [H0 H100]. eauto.
  - intros (q & -> & H0 & H100). simpl.
    rewrite andb_true_iff, !Qc_leb_le. auto.
Qed.

Lemma edit_depositPercent_accept (i : SettingsInput) (st : State) (s : jsstring) :
  depInput i = Some s -> in_percent_range (parseFloat s) ->
  depositPercent (config (edit_depositPercent i st)) = parseFloat s
  /\ storage (edit_depositPercent i st) !! js "depositPercent" =
     Some (Json.serialize (VNum (parseFloat s))).
Proof.
  intros Hi Hr. unfold edit_depositPercent. rewrite Hi.
  apply percent_guard in Hr. rewrite Hr. split; [reflexivity|].
  by rewrite persist_lookup.
Qed.

(** A percentage that the guard accepts is read back from its stored text. *)
Lemma load_parsed_percent (ls : Storage) (key s : jsstring) :
  in_percent_range (parseFloat s) ->
  ls !! key = Some (Json.serialize (VNum (parseFloat s))) ->
  loadSetting ls key = VNum (parseFloat s).
Proof.
  intros (q & E & _) Hl.
  assert (Hs : supported (VNum (parseFloat s))).
  { exists q. split; [done|]. by apply (parseFloat_decimal s). }
  unfold loadSetting, localStorage.getItem.
  by rewrite Hl, serialize_nonempty, parse_serialize_value.
Qed.

Lemma edit_depositPercent_reject (i : SettingsInput) (st : State) :
  (depInput i = None
   \/ exists s, depInput i = Some s /\ ~ in_percent_range (parseFloat s)) ->
  edit_depositPercent i st = st.
Proof.
  unfold edit_depositPercent. intros [-> | (s & -> & Hr)]; [done|].
  rewrite <- percent_guard in Hr. by destruct (_ && _).
Qed.

Lemma parseFloat_empty : parseFloat [] = NaN.
Proof. reflexivity. Qed.

Lemma not_in_percent_range_NaN : ~ in_percent_range NaN.
Proof. by intros (q & H & _). Qed.

(** The condition under which the prompt loop adds an item is
    [pair_counts]. *)
Lemma parse_prices_step (acc : list (jsstring * number)) (pair : jsstring) :
  pair_counts pair = false ->
  (let parts := map trim (split (ch ":") pair) in
   match answered (parts !! 0%nat), answered (parts !! 1%nat) with
   | Some name, Some price =>
       if negb (Num.isNaN (parseFloat price))
       then obj_set name (parseFloat price) acc
       else acc
   | _, _ => acc
   end) = acc.
Proof.
  unfold pair_counts. cbv zeta.
  destruct (map trim (split (ch ":") pair) !! 0%nat) as [[|c n]|];
    destruct (map trim (split (ch ":") pair) !! 1%nat) as [[|d p]|];
    simpl; try done.
  by intros ->.
Qed.

Lemma parse_prices_none (input : jsstring) :
  (forall pair, In pair (split (ch ",") input) -> pair_counts pair = false) ->
  parse_prices input = [].
Proof.
  unfold parse_prices. generalize (split (ch ",") input) as l.
  generalize (@nil (jsstring * number)) as acc.
  intros acc l. revert acc. induction l as [|pair l IH]; intros acc H; [done|].
  simpl fold_left. rewrite parse_prices_step by (apply H; by left).
  apply IH. intros p Hp. apply H. by right.
Qed.

Lemma nonempty_keys {A : Type} (o : list (jsstring * A)) :
  (0 <? length (obj_keys o))%nat = negb (bool_decide (o = [])).
Proof. by destruct o. Qed.

Lemma edit_carCategories_nonempty (i : SettingsInput) (st : State) :
  carCategories (config st) <> [] ->
  carCategories (config (edit_carCategories i st)) <> [].
Proof.
  intros H. unfold edit_carCategories. destruct (answered (catInput i)); [|done].
  destruct (parse_prices l) eqn:E; [done|]. simpl. done.
Qed.

Lemma edit_extras_nonempty (i : SettingsInput) (st : State) :
  extras (config st) <> [] ->
  extras (config (edit_extras i st)) <> [].
Proof.
  intros H. unfold edit_extras. destruct (answered (extrasInput i)); [|done].
  destruct (parse_prices l) eqn:E; [done|]. simpl. done.
Qed.

Lemma edit_carCategories_retain (i : SettingsInput) (st : State) (input : jsstring) :
  catInput i = Some input ->
  (forall pair, In pair (split (ch ",") input) -> pair_counts pair = false) ->
  edit_carCategories i st = st.
Proof.
  intros Hi Hp. unfold edit_carCategories. rewrite Hi.
  destruct input; [done|]. simpl answered. cbv beta iota zeta.
  by rewrite parse_prices_none.
Qed.

Lemma edit_extras_retain (i : SettingsInput) (st : State) (input : jsstring) :
  extrasInput i = Some input ->
  (forall pair, In pair (split (ch ",") input) -> pair_counts pair = false) ->
  edit_extras i st = st.
Proof.
  intros Hi Hp. unfold edit_extras. rewrite Hi.
  destruct input; [done|]. simpl answered. cbv beta iota zeta.
  by rewrite parse_prices_none.
Qed.

(** C5 (amended). A cancelled or empty answer leaves the payment methods,
    the categories, the extras, the deposit percentage and the admin email
    as they were, in memory and in the store; a cancelled WhatsApp prompt
    leaves the chat-channel preference as it was, while an empty answer
    to it turns the preference off; an empty phone, VIP code or greeting
    input resets that setting to its built-in default. *)
Theorem C5_cancelled_edits (i : SettingsInput) (st : State) :
  let st' := (saveSettings i st).1 in
  (pay i = None \/ pay i = Some [] ->
   paymentMethods (config st') = paymentMethods (config st)
   /\ storage st' !! js "paymentMethods" = storage st !! js "paymentMethods")
  /\ (catInput i = None \/ catInput i = Some [] ->
      carCategories (config st') = carCategories (config st)
      /\ storage st' !! js "carCategories" = storage st !! js "carCategories")
  /\ (extrasInput i = None \/ extrasInput i = Some [] ->
      extras (config st') = extras (config st)
      /\ storage st' !! js "extras" = storage st !! js "extras")
  /\ (depInput i = None \/ depInput i = Some [] ->
      depositPercent (config st') = depositPercent (config st)
      /\ storage st' !! js "depositPercent" = storage st !! js "depositPercent")
  /\ (emailPrompt i = None \/ emailPrompt i = Some [] ->
      adminEmail (config st') = adminEmail (config st)
      /\ storage st' !! js "adminEmail" = storage st !! js "adminEmail")
  /\ (waInput i = None ->
      useWhatsApp (config st') = useWhatsApp (config st)
      /\ loadSetting (storage st') (js "useWhatsApp") = VBool (useWhatsApp (config st)))
  /\ (waInput i = Some [] -> useWhatsApp (config st') = false)
  /\ (trim (phone_input i) = [] ->
      phoneNumber (config st') = phoneNumber DEFAULTS
      /\ loadSetting (storage st') (js "phoneNumber") = VStr (phoneNumber DEFAULTS))
  /\ (trim (vip_input i) = [] ->
      vipCode (config st') = vipCode DEFAULTS
      /\ loadSetting (storage st') (js "vipCode") = VStr (vipCode DEFAULTS))
  /\ (trim (greeting_input i) = [] ->
      vipGreeting (config st') = vipGreeting DEFAULTS
      /\ loadSetting (storage st') (js "vipGreeting") = VStr (vipGreeting DEFAULTS)).
Proof.
  cbv zeta. rewrite saveSettings_state.
  split; [|split; [|split; [|split; [|split; [|split; [|split; [|split; [|split]]]]]]]].
  - intros H. apply answered_None in H. split; frame;
      unfold edit_paymentMethods; by rewrite H.
  - intros H. apply answered_None in H. split; frame;
      unfold edit_carCategories; rewrite H; by frame.
  - intros H. apply answered_None in H. split; frame;
      unfold edit_extras; rewrite H; by frame.
  - intros H. split; frame; rewrite edit_depositPercent_reject; try by frame.
    all: destruct H as [H | H]; [by left | right; exists []; split; [done|]];
      rewrite parseFloat_empty; apply not_in_percent_range_NaN.
  - intros H. apply answered_None in H. split; frame;
      unfold edit_adminEmail; rewrite H; by frame.
  - intros H. split.
    + unfold edit_useWhatsApp at 1. rewrite H. cbv zeta. simpl config. by frame.
    + unfold edit_useWhatsApp at 1. rewrite H. cbv zeta.
      unfold loadSetting, localStorage.getItem. rewrite persist_lookup by done.
      rewrite persist_basic_frame.
      rewrite edit_adminEmail_frame, edit_depositPercent_frame, edit_extras_frame,
        edit_carCategories_frame, edit_paymentMethods_frame, edit_basic_frame
        by reflexivity.
      by destruct (useWhatsApp (config st)).
  - intros H. unfold edit_useWhatsApp at 1. rewrite H. reflexivity.
  - intros H. split.
    + frame. unfold edit_basic. simpl. by rewrite H.
    + unfold loadSetting, localStorage.getItem. frame.
      unfold persist_basic. cbv zeta.
      rewrite !persist_lookup_ne by keys_differ. rewrite persist_lookup by done.
      frame. unfold edit_basic. simpl. rewrite H. reflexivity.
  - intros H. split.
    + frame. unfold edit_basic. simpl. by rewrite H.
    + unfold loadSetting, localStorage.getItem. frame.
      unfold persist_basic. cbv zeta.
      rewrite !persist_lookup_ne by keys_differ. rewrite persist_lookup by done.
      simpl config. frame. unfold edit_basic. simpl. rewrite H. reflexivity.
  - intros H. split.
    + frame. unfold edit_basic. simpl. by rewrite H.
    + unfold loadSetting, localStorage.getItem. frame.
      unfold persist_basic. cbv zeta.
      rewrite persist_lookup by done.
      simpl config. frame. unfold edit_basic. simpl. rewrite H. reflexivity.
Qed.

Lemma run_settings_invariant (Inv : State -> Prop) :
  (forall i st, Inv st -> Inv (saveSettings i st).1) ->
  forall visits st, Inv st -> Inv (run_settings visits st).
Proof.
  intros Hstep visits. unfold run_settings.
  induction visits as [|i visits IH]; intros st H; [done|].
  simpl. apply IH. by apply Hstep.
Qed.

Lemma saveSettings_deposit_range (i : SettingsInput) (st : State) :
  in_percent_range (depositPercent (config st)) ->
  in_percent_range (depositPercent (config (saveSettings i st).1)).
Proof.
  intros H. rewrite saveSettings_state. frame.
  unfold edit_depositPercent. destruct (depInput i) as [s|]; [|by frame].
  destruct (_ && _) eqn:E; [|by frame].
  simpl. by apply percent_guard.
Qed.

Lemma default_deposit_in_range : in_percent_range (depositPercent DEFAULTS).
Proof. apply percent_guard. reflexivity. Qed.

(** C9 (amended). An answer to the deposit prompt is assigned and written
    to the store only if it parses to a number from 0 to 100; any other
    answer is refused and leaves the percentage as it was, and is not
    saturated to the nearest bound.  Hence a percentage in the range stays
    in the range, and it is in the range after every series of visits to
    the panel that starts from the defaults. *)
Theorem C9_deposit_range (i : SettingsInput) (st : State) :
  let st' := (saveSettings i st).1 in
  (forall s, depInput i = Some s -> in_percent_range (parseFloat s) ->
     depositPercent (config st') = parseFloat s
     /\ storage st' !! js "depositPercent" =
        Some (Json.serialize (VNum (parseFloat s)))
     /\ loadSetting (storage st') (js "depositPercent") = VNum (parseFloat s))
  /\ ((depInput i = None
       \/ exists s, depInput i = Some s /\ ~ in_percent_range (parseFloat s)) ->
      depositPercent (config st') = depositPercent (config st)
      /\ storage st' !! js "depositPercent" = storage st !! js "depositPercent")
  /\ (in_percent_range (depositPercent (config st)) ->
      in_percent_range (depositPercent (config st')))
  /\ (forall visits,
        in_percent_range
          (depositPercent (config (run_settings visits initial_state)))).
Proof.
  cbv zeta. split; [|split; [|split]].
  - intros s Hs Hr. rewrite saveSettings_state.
    assert (Hl : storage
                   (edit_useWhatsApp i
                      (persist_basic
                         (edit_adminEmail i
                            (edit_depositPercent i
                               (edit_extras i
                                  (edit_carCategories i
                                     (edit_paymentMethods i (edit_basic i st))))))))
                 !! js "depositPercent"
                 = Some (Json.serialize (VNum (parseFloat s)))).
    { frame. by apply edit_depositPercent_accept. }
    split; [|split].
    + frame. by apply edit_depositPercent_accept.
    + exact Hl.
    + by apply load_parsed_percent.
  - intros H. rewrite saveSettings_state.
    split; frame; rewrite edit_depositPercent_reject by done; by frame.
  - apply saveSettings_deposit_range.
  - intros visits.
    apply (run_settings_invariant
             (fun st => in_percent_range (depositPercent (config st)))).
    + apply saveSettings_deposit_range.
    + apply default_deposit_in_range.
Qed.

Lemma saveSettings_nonempty (i : SettingsInput) (st : State) :
  carCategories (config st) <> [] /\ extras (config st) <> [] ->
  carCategories (config (saveSettings i st).1) <> []
  /\ extras (config (saveSettings i st).1) <> [].
Proof.
  intros [Hc He]. rewrite saveSettings_state. split; frame.
  - apply edit_carCategories_nonempty. by frame.
  - apply edit_extras_nonempty. by frame.
Qed.

(** C10. An answer to the categories (or extras) prompt none of whose
    items has a name, a price and a price that parses leaves the mapping
    as it was; the mapping is never replaced by an empty one, so both
    mappings are non-empty after every series of visits to the panel that
    starts from the defaults. *)
Theorem C10_mappings_nonempty (i : SettingsInput) (st : State) :
  let st' := (saveSettings i st).1 in
  (forall input,
     catInput i = Some input ->
     (forall pair, In pair (split (ch ",") input) -> pair_counts pair = false) ->
     carCategories (config st') = carCategories (config st)
     /\ storage st' !! js "carCategories" = storage st !! js "carCategories")
  /\ (forall input,
        extrasInput i = Some input ->
        (forall pair, In pair (split (ch ",") input) -> pair_counts pair = false) ->
        extras (config st') = extras (config st)
        /\ storage st' !! js "extras" = storage st !! js "extras")
  /\ (carCategories (config st) <> [] -> carCategories (config st') <> [])
  /\ (extras (config st) <> [] -> extras (config st') <> [])
  /\ (forall visits,
        carCategories (config (run_settings visits initial_state)) <> []
        /\ extras (config (run_settings visits initial_state)) <> []).
Proof.
  cbv zeta. split; [|split; [|split; [|split]]].
  - intros input Hi Hp. rewrite saveSettings_state.
    split; frame; rewrite (edit_carCategories_retain _ _ input) by done; by frame.
  - intros input Hi Hp. rewrite saveSettings_state.
    split; frame; rewrite (edit_extras_retain _ _ input) by done; by frame.
  - intros H. rewrite saveSettings_state. frame.
    apply edit_carCategories_nonempty. by frame.
  - intros H. rewrite saveSettings_state. frame.
    apply edit_extras_nonempty. by frame.
  - intros visits.
    apply (run_settings_invariant
             (fun st => carCategories (config st) <> [] /\ extras (config st) <> [])).
    + apply saveSettings_nonempty.
    + by split.
Qed.

(** C5, counterexample.  After a visit that stored another phone number
    and turned WhatsApp on, a visit in which the phone input is cleared and
    the WhatsApp prompt is left empty changes both settings, in memory and
    in the store. *)
Lemma C5_counterexample :
  let st := (saveSettings visit_phone initial_state).1 in
  let st' := (saveSettings visit_empty st).1 in
  phone_input visit_empty = [] /\ waInput visit_empty = Some []
  /\ phoneNumber (config st) = js "+306900000000"
  /\ loadSetting (storage st) (js "phoneNumber") = VStr (js "+306900000000")
  /\ phoneNumber (config st') = js "+302101234567"
  /\ loadSetting (storage st') (js "phoneNumber") = VStr (js "+302101234567")
  /\ useWhatsApp (config st) = true
  /\ loadSetting (storage st) (js "useWhatsApp") = VBool true
  /\ useWhatsApp (config st') = false
  /\ loadSetting (storage st') (js "useWhatsApp") = VBool false.
Proof. vm_compute. repeat split; reflexivity. Qed.

(** C9, counterexample.  The answer 150 to the deposit prompt is not
    saturated to 100: the percentage stays at its prior value 30. *)
Lemma C9_counterexample :
  let st' := (saveSettings (visit_deposit (js "150")) initial_state).1 in
  clamp (num 0) (num 100) (parseFloat (js "150")) = num 100
  /\ depositPercent (config st') = num 30
  /\ depositPercent (config st') <> clamp (num 0) (num 100) (parseFloat (js "150"))
  /\ storage st' !! js "depositPercent" = None.
Proof.
  cbv zeta.
  assert (E : depositPercent (config (saveSettings (visit_deposit (js "150")) initial_state).1)
              = num 30) by (vm_compute; reflexivity).
  assert (C : clamp (num 0) (num 100) (parseFloat (js "150")) = num 100).
  { unfold clamp. replace (parseFloat (js "150")) with (num 150).
    - reflexivity.
    - symmetry. apply Fin_ext. vm_compute. reflexivity. }
  split; [exact C | split; [exact E | split]].
  - rewrite E, C. intros H.
    apply (f_equal (fun x => match x with Fin q => this q | _ => 0%Q end)) in H.
    vm_compute in H. discriminate H.
  - vm_compute. reflexivity.
Qed.

(** ** Concrete runs of the theorems *)

(** C2, counterexample.  A pickup date that does not parse is no
    validation failure: the quote is computed, for one day. *)
Lemma C2_counterexample :
  let f := form_of (js "soon") (js "2025-06-04") (js "SUV") [] in
  f_pickup f <> [] /\ Date_parse_iso (f_pickup f) = None
  /\ exists s, calculatePrice Date_parse_iso DEFAULTS f = Shown s
               /\ s_days s = num 1 /\ s_baseTotal s = num 50.
Proof.
  cbv zeta. split; [done|]. split; [vm_compute; reflexivity|].
  destruct (calculatePrice_total Date_parse_iso DEFAULTS
              (form_of (js "soon") (js "2025-06-04") (js "SUV") []))
    as [s Hs]; [done..|].
  exists s. split; [exact Hs|].
  destruct (summary_parts _ _ _ _ Hs) as (Hd & Hb & _).
  rewrite Hb, Hd. cbn [f_pickup f_dropoff f_category form_of].
  replace (new_Date Date_parse_iso (js "soon")) with NaN by (vm_compute; reflexivity).
  rewrite day_count_NaN_l. split; [reflexivity|].
  apply Fin_ext. vm_compute. reflexivity.
Qed.

Lemma C1_day_count_witness :
  let f := form_of (js "2025-06-01") (js "2025-06-04") (js "SUV") [js "GPS"] in
  exists s, calculatePrice Date_parse_iso DEFAULTS f = Shown s
            /\ s_days s = num 3
            /\ m_days (handleBookingSubmit Date_parse_iso DEFAULTS f) = num 3.
Proof.
  cbv zeta.
  destruct (C1_day_count Date_parse_iso DEFAULTS
              (form_of (js "2025-06-01") (js "2025-06-04") (js "SUV") [js "GPS"]))
    as (_ & Hs & Hm).
  eexists. split; [lazy; reflexivity|]. split.
  - apply Hs. vm_compute. reflexivity.
  - exact Hm.
Defined.

Lemma C2_validation_witness :
  calculatePrice Date_parse_iso DEFAULTS
    (form_of [] (js "2025-06-04") (js "SUV") []) = Prompt PRICE_PROMPT
  /\ exists s, calculatePrice Date_parse_iso DEFAULTS
                 (form_of (js "2025-06-01") (js "2025-06-04") (js "SUV") []) = Shown s.
Proof.
  split.
  - apply (proj1 (C2_validation Date_parse_iso DEFAULTS
                    (form_of [] (js "2025-06-04") (js "SUV") []))).
    left. reflexivity.
  - apply (proj2 (C2_validation Date_parse_iso DEFAULTS
                    (form_of (js "2025-06-01") (js "2025-06-04") (js "SUV") [])));
      vm_compute; discriminate.
Defined.


Lemma C4_auth_transitions_witness :
  submit_login ∅ (js " abc ") =
    (∅, [Alert (js "Ο κωδικός πρέπει να έχει τουλάχιστον 4 χαρακτήρες.")])
  /\ auth_state (submit_login ∅ (js " abcd ")).1 = LoggedIn
  /\ getAdminPassword (submit_login ∅ (js " abcd ")).1 = Some (js "abcd").
Proof.
  split; [|split].
  - apply (proj1 (C4_auth_transitions ∅ (js " abc "))).
    + vm_compute. reflexivity.
    + vm_compute. lia.
  - apply (proj1 (proj2 (C4_auth_transitions ∅ (js " abcd ")))).
    + vm_compute. reflexivity.
    + vm_compute. lia.
  - apply (proj1 (proj2 (C4_auth_transitions ∅ (js " abcd ")))).
    + vm_compute. reflexivity.
    + vm_compute. lia.
Defined.

Lemma C5_cancelled_edits_witness :
  let i := visit_cancel (js "+302101234567") (js "VIP2025") (js "hello") in
  let st' := (saveSettings i initial_state).1 in
  paymentMethods (config st') = paymentMethods DEFAULTS
  /\ storage st' !! js "paymentMethods" = None
  /\ depositPercent (config st') = depositPercent DEFAULTS.
Proof.
  cbv zeta.
  destruct (C5_cancelled_edits
              (visit_cancel (js "+302101234567") (js "VIP2025") (js "hello"))
              initial_state) as (Hpay & _ & _ & Hdep & _).
  destruct Hpay as [Hp Hs]; [left; reflexivity|].
  destruct Hdep as [Hd _]; [left; reflexivity|].
  split; [exact Hp | split; [exact Hs | exact Hd]].
Defined.



Lemma C8_store_round_trip_witness :
  let v := VObj [(js "SUV", VArr [VNum (num 50); VBool true; VStr (js "PayPal")])] in
  loadSetting (saveSetting ∅ (js "demo") v) (js "demo") = v
  /\ loadSetting (<[js "adminPassword" := js "abcd"]> ∅) (js "adminPassword")
     = VStr (js "abcd").
Proof.
  cbv zeta. split.
  - apply (proj1 (C8_store_round_trip ∅ (js "demo"))).
    simpl. split.
    + apply NoDup_cons. split; [apply not_elem_of_nil | apply NoDup_nil_2].
    + repeat split. exists (Qc_of_Z 50). split; [reflexivity|].
      exists 0%nat. exists 1. reflexivity.
  - apply (proj1 (proj2 (C8_store_round_trip
                           (<[js "adminPassword" := js "abcd"]> ∅)
                           (js "adminPassword")))).
    + vm_compute. reflexivity.
    + vm_compute. discriminate.
    + vm_compute. reflexivity.
Defined.

Lemma C9_deposit_range_witness :
  let st' := (saveSettings (visit_deposit (js "25")) initial_state).1 in
  depositPercent (config st') = parseFloat (js "25")
  /\ storage st' !! js "depositPercent" = Some (js "25")
  /\ loadSetting (storage st') (js "depositPercent") = VNum (parseFloat (js "25")).
Proof.
  cbv zeta.
  destruct (C9_deposit_range (visit_deposit (js "25")) initial_state) as (Hacc & _).
  destruct (Hacc (js "25")) as (Hd & Hs & Hl).
  - reflexivity.
  - exists (Qc_of_Z 25). split; [|split].
    + apply Fin_ext. vm_compute. reflexivity.
    + vm_compute. discriminate.
    + vm_compute. discriminate.
  - split; [exact Hd | split; [|exact Hl]]. rewrite Hs. vm_compute. reflexivity.
Defined.

Lemma C10_mappings_nonempty_witness :
  let st' := (saveSettings (visit_categories (js "abc, :5")) initial_state).1 in
  carCategories (config st') = carCategories DEFAULTS.
Proof.
  cbv zeta.
  destruct (C10_mappings_nonempty (visit_categories (js "abc, :5")) initial_state)
    as (Hret & _).
  destruct (Hret (js "abc, :5")) as [Hc _].
  - reflexivity.
  - intros pair Hin. vm_compute in Hin.
    destruct Hin as [<- | [<- | []]]; vm_compute; reflexivity.
  - exact Hc.
Defined.

(** ** Checks on concrete inputs *)

Example round2_half_up :
  as_Q (round2 (Fin (Q2Qc (2345 # 1000)))) = Some (47 # 20)
  /\ as_Q (round2 (Fin (Q2Qc (2344 # 1000)))) = Some (117 # 50)
  /\ as_Q (round2 (Fin (Q2Qc (- 2345 # 1000)))) = Some (- 117 # 50).
Proof. vm_compute. repeat split; reflexivity. Qed.

(** SUV at 50 a day for three days with GPS at 5 a day and a deposit of
    30 percent. *)
Example quote_scenario :
  let f := form_of (js "2025-06-01") (js "2025-06-04") (js "SUV") [js "GPS"] in
  let m := handleBookingSubmit Date_parse_iso DEFAULTS f in
  as_Q (m_days m) = Some (3 # 1)
  /\ as_Q (m_baseTotal m) = Some (150 # 1)
  /\ as_Q (m_extrasTotal m) = Some (15 # 1)
  /\ as_Q (m_depositAmount m) = Some (99 # 2)
  /\ as_Q (m_total m) = Some (165 # 1).
Proof. vm_compute. repeat split; reflexivity. Qed.

Example same_day_is_one_day :
  let f := form_of (js "2025-06-01") (js "2025-06-01") (js "SUV") [] in
  as_Q (m_days (handleBookingSubmit Date_parse_iso DEFAULTS f)) = Some (1 # 1).
Proof. vm_compute. reflexivity. Qed.

Example stored_numbers :
  Json.stringify (VArr [VNum (num 30); VNum (Fin (Q2Qc (61 # 2)));
                        VNum (Fin (Q2Qc (- 1 # 8))); VNum PInf; VBool true])
  = Some (js "[30,30.5,-0.125,null,true]").
Proof. vm_compute. reflexivity. Qed.

(** ** Sign-out, biometric login and the page as a whole *)

Lemma isAdminLoggedIn_unset (ls : Storage) :
  isAdminLoggedIn (setAdminLoggedIn ls false) = false.
Proof.
  unfold isAdminLoggedIn, setAdminLoggedIn, localStorage.getItem,
    localStorage.removeItem.
  rewrite lookup_delete_eq. by apply bool_decide_eq_false.
Qed.

Lemma setAdminLoggedIn_other (ls : Storage) (flag : bool) (K : jsstring) :
  K <> js "isAdmin" -> setAdminLoggedIn ls flag !! K = ls !! K.
Proof.
  intros H. unfold setAdminLoggedIn, localStorage.setItem, localStorage.removeItem.
  destruct flag; [by rewrite lookup_insert_ne | by rewrite lookup_delete_ne].
Qed.

Lemma setAdminPassword_other (ls : Storage) (pwd K : jsstring) :
  K <> js "adminPassword" -> setAdminPassword ls pwd !! K = ls !! K.
Proof.
  intros H. unfold setAdminPassword, localStorage.setItem.
  by rewrite lookup_insert_ne.
Qed.

Lemma isAdminLoggedIn_setAdminPassword (ls : Storage) (pwd : jsstring) :
  isAdminLoggedIn (setAdminPassword ls pwd) = isAdminLoggedIn ls.
Proof.
  unfold isAdminLoggedIn, localStorage.getItem.
  rewrite setAdminPassword_other by keys_differ. reflexivity.
Qed.

Lemma toggleAuth_logged_in (ls : Storage) :
  isAdminLoggedIn ls = true ->
  toggleAuth ls =
  (setAdminLoggedIn ls false,
   [UpdateAuthNav false; Alert (js "Αποσυνδεθήκατε."); CloseSettings]).
Proof. unfold toggleAuth. intros ->. by rewrite isAdminLoggedIn_unset. Qed.

Lemma auth_state_signed_out (ls : Storage) :
  getAdminPassword ls <> None -> auth_state (setAdminLoggedIn ls false) = LoggedOut.
Proof.
  intros Hp. unfold auth_state.
  rewrite isAdminLoggedIn_unset, getAdminPassword_setAdminLoggedIn.
  by destruct (getAdminPassword ls).
Qed.

(** X1. Signing out removes the login flag and nothing else: the password
    and every other key stay, the navigation is updated to logged out and
    the settings panel is closed; when nobody is logged in, [toggleAuth]
    leaves the store as it is and opens the login modal. *)
Theorem toggleAuth_sign_out (ls : Storage) :
  (isAdminLoggedIn ls = true ->
   isAdminLoggedIn (toggleAuth ls).1 = false
   /\ getAdminPassword (toggleAuth ls).1 = getAdminPassword ls
   /\ (forall K, K <> js "isAdmin" -> (toggleAuth ls).1 !! K = ls !! K)
   /\ (toggleAuth ls).2 =
        [UpdateAuthNav false; Alert (js "Αποσυνδεθήκατε."); CloseSettings]
   /\ (getAdminPassword ls <> None -> auth_state (toggleAuth ls).1 = LoggedOut))
  /\ (isAdminLoggedIn ls = false -> toggleAuth ls = (ls, [OpenLogin])).
Proof.
  split; intros H.
  - rewrite (toggleAuth_logged_in ls H). cbn [fst snd].
    rewrite isAdminLoggedIn_unset, getAdminPassword_setAdminLoggedIn.
    repeat split; try done.
    + intros K HK. by apply setAdminLoggedIn_other.
    + apply auth_state_signed_out.
  - unfold toggleAuth. by rewrite H.
Qed.

Lemma toggleAuth_sign_out_witness :
  let ls := (submit_login ∅ (js "secret")).1 in
  auth_state ls = LoggedIn /\ auth_state (toggleAuth ls).1 = LoggedOut
  /\ toggleAuth ∅ = (∅, [OpenLogin]).
Proof.
  cbv zeta. split; [vm_compute; reflexivity|]. split.
  - apply (proj1 (toggleAuth_sign_out (submit_login ∅ (js "secret")).1)).
    + vm_compute. reflexivity.
    + vm_compute. discriminate.
  - apply (proj2 (toggleAuth_sign_out ∅)). vm_compute. reflexivity.
Defined.

(** X2. The biometric button logs the admin in whatever the store holds:
    no password is asked for or compared, and the stored password is left
    as it is. *)
Theorem bio_login_bypass (ls : Storage) :
  auth_state (bio_login ls).1 = LoggedIn
  /\ getAdminPassword (bio_login ls).1 = getAdminPassword ls
  /\ (forall K, K <> js "isAdmin" -> (bio_login ls).1 !! K = ls !! K)
  /\ In (UpdateAuthNav true) (bio_login ls).2
  /\ In CloseLogin (bio_login ls).2.
Proof.
  unfold bio_login. cbn [fst snd]. rewrite isAdminLoggedIn_set.
  split; [apply auth_state_logged_in|].
  split; [apply getAdminPassword_setAdminLoggedIn|].
  split; [intros K HK; by apply setAdminLoggedIn_other|].
  split; simpl; auto.
Qed.

Lemma bio_login_bypass_witness :
  let ls := setAdminPassword ∅ (js "secret") in
  auth_state ls = LoggedOut
  /\ auth_state (bio_login ls).1 = LoggedIn
  /\ (bio_login ls).1 !! js "adminPassword" = Some (js "secret").
Proof.
  cbv zeta. split; [vm_compute; reflexivity|].
  destruct (bio_login_bypass (setAdminPassword ∅ (js "secret")))
    as (Hstate & _ & Hkeys & _).
  split; [exact Hstate|]. rewrite Hkeys.
  - vm_compute. reflexivity.
  - vm_compute. discriminate.
Defined.

(** X3. A password created in the first-time form, which stores it
    trimmed, opens the login form after a sign-out exactly when it is
    entered as stored: the login form compares without trimming. *)
Theorem setup_then_login (ls : Storage) (value entered : jsstring) :
  getAdminPassword ls = None -> (4 <= length (trim value))%nat ->
  let ls1 := (setup_submit ls value).1 in
  let ls2 := (toggleAuth ls1).1 in
  auth_state ls1 = LoggedIn
  /\ auth_state ls2 = LoggedOut
  /\ (auth_state (submit_login ls2 entered).1 = LoggedIn <-> entered = trim value).
Proof.
  intros Hnone Hlen. cbv zeta.
  assert (Hne : trim value <> []).
  { intros E. rewrite E in Hlen. simpl in Hlen. lia. }
  assert (E1 : (setup_submit ls value).1 =
               setAdminLoggedIn (setAdminPassword ls (trim value)) true).
  { unfold setup_submit. by destruct (Nat.ltb_spec (length (trim value)) 4); [lia|]. }
  rewrite E1.
  assert (Hp1 : getAdminPassword (setAdminLoggedIn (setAdminPassword ls (trim value)) true)
                = Some (trim value)).
  { by rewrite getAdminPassword_setAdminLoggedIn, getAdminPassword_set. }
  rewrite (toggleAuth_logged_in _ (isAdminLoggedIn_set _)). cbn [fst].
  set (ls1 := setAdminLoggedIn (setAdminPassword ls (trim value)) true) in *.
  assert (Hl2 : isAdminLoggedIn (setAdminLoggedIn ls1 false) = false)
    by apply isAdminLoggedIn_unset.
  assert (Hp2 : getAdminPassword (setAdminLoggedIn ls1 false) = Some (trim value))
    by (by rewrite getAdminPassword_setAdminLoggedIn).
  split; [apply auth_state_logged_in|].
  split; [by apply auth_state_signed_out; rewrite Hp1|].
  set (ls2 := setAdminLoggedIn ls1 false) in *.
  unfold submit_login, renderLoginContent, login_submit. rewrite Hp2.
  case_bool_decide as Hd.
  - cbn [fst]. split; [by intros _; injection Hd | intros _; apply auth_state_logged_in].
  - cbn [fst]. split.
    + unfold auth_state. by rewrite Hl2, Hp2.
    + intros ->. done.
Qed.

Lemma setup_then_login_witness :
  let ls1 := (setup_submit ∅ (js " secret ")).1 in
  let ls2 := (toggleAuth ls1).1 in
  auth_state (submit_login ls2 (js "secret")).1 = LoggedIn
  /\ auth_state (submit_login ls2 (js " secret ")).1 <> LoggedIn.
Proof.
  cbv zeta.
  destruct (setup_then_login ∅ (js " secret ") (js "secret"))
    as (_ & _ & Hyes); [reflexivity | vm_compute; lia |].
  destruct (setup_then_login ∅ (js " secret ") (js " secret "))
    as (_ & _ & Hno); [reflexivity | vm_compute; lia |].
  split.
  - apply Hyes. vm_compute. reflexivity.
  - intros H. apply Hno in H. vm_compute in H. discriminate H.
Defined.

(** ** What each user action writes *)

Ltac outside H :=
  intros ->; apply H; cbn [footprint];
  repeat first [left; reflexivity | right].

Lemma saveSettings_other_keys (i : SettingsInput) (st : State) (K : jsstring) :
  ~ In K (footprint (SaveSettings i)) ->
  storage (saveSettings i st).1 !! K = storage st !! K.
Proof.
  intros H. cbn [footprint] in H.
  assert (K <> js "phoneNumber" /\ K <> js "vipCode" /\ K <> js "vipGreeting"
          /\ K <> js "useWhatsApp" /\ K <> js "paymentMethods"
          /\ K <> js "carCategories" /\ K <> js "extras"
          /\ K <> js "depositPercent" /\ K <> js "adminEmail")
    as (H1 & H2 & H3 & H4 & H5 & H6 & H7 & H8 & H9).
  { repeat split; outside H. }
  rewrite saveSettings_state.
  rewrite edit_useWhatsApp_store, persist_basic_store, edit_adminEmail_store,
    edit_depositPercent_store, edit_extras_store, edit_carCategories_store,
    edit_paymentMethods_store, edit_basic_store by done.
  reflexivity.
Qed.

Lemma setup_submit_other_keys (ls : Storage) (value K : jsstring) :
  K <> js "adminPassword" -> K <> js "isAdmin" ->
  (setup_submit ls value).1 !! K = ls !! K.
Proof.
  intros H1 H2. unfold setup_submit. destruct (_ <? _)%nat; [done|]. cbn [fst].
  by rewrite setAdminLoggedIn_other, setAdminPassword_other.
Qed.

Lemma login_submit_other_keys (ls : Storage) (value K : jsstring) :
  K <> js "isAdmin" -> (login_submit ls value).1 !! K = ls !! K.
Proof.
  intros H. unfold login_submit. case_bool_decide; [|done]. cbn [fst].
  by rewrite setAdminLoggedIn_other.
Qed.

Lemma toggleAuth_other_keys (ls : Storage) (K : jsstring) :
  K <> js "isAdmin" -> (toggleAuth ls).1 !! K = ls !! K.
Proof.
  intros H. unfold toggleAuth. destruct (isAdminLoggedIn ls); [|done]. cbn [fst].
  by rewrite setAdminLoggedIn_other.
Qed.

Lemma bio_login_other_keys (ls : Storage) (K : jsstring) :
  K <> js "isAdmin" -> (bio_login ls).1 !! K = ls !! K.
Proof. intros H. unfold bio_login. cbn [fst]. by rewrite setAdminLoggedIn_other. Qed.

Lemma handleVIP_other_keys (target : jsstring) (answer : option jsstring)
  (st : State) (K : jsstring) :
  K <> js "isVIP" -> storage (handleVIP target answer st).1 !! K = storage st !! K.
Proof.
  intros H. unfold handleVIP. destruct (isVIP (storage st)); [done|].
  destruct (answered answer); [|done]. case_bool_decide; [|done]. cbn [fst storage].
  unfold localStorage.setItem. by rewrite lookup_insert_ne.
Qed.

Lemma handleVIP_config (target : jsstring) (answer : option jsstring) (st : State) :
  config (handleVIP target answer st).1 = config st.
Proof.
  unfold handleVIP. destruct (isVIP (storage st)); [done|].
  destruct (answered answer); [|done]. by case_bool_decide.
Qed.

Lemma step_other_keys (a : App) (e : event) (K : jsstring) :
  ~ In K (footprint e) ->
  storage (app_state (step a e)) !! K = storage (app_state a) !! K.
Proof.
  intros H. destruct e as [|value| | |i|target answer|]; cbn [step].
  - cbn [app_state with_storage storage]. apply toggleAuth_other_keys. outside H.
  - destruct (login_modal a) as [[]|]; [| |done];
      unfold run_login; cbn [app_state with_storage storage].
    + apply setup_submit_other_keys; outside H.
    + apply login_submit_other_keys; outside H.
  - destruct (login_modal a) as [[]|]; try done.
    unfold run_login; cbn [app_state with_storage storage].
    apply bio_login_other_keys; outside H.
  - done.
  - cbn [app_state]. by apply saveSettings_other_keys.
  - cbn [app_state]. apply handleVIP_other_keys. outside H.
  - cbn [app_state with_storage storage acceptCookies fst].
    unfold localStorage.setItem. rewrite lookup_insert_ne; [done |].
    intros E. symmetry in E. revert E. outside H.
Qed.

Lemma step_config (a : App) (e : event) :
  (forall i, e <> SaveSettings i) ->
  config (app_state (step a e)) = config (app_state a).
Proof.
  intros H. destruct e as [|value| | |i|target answer|]; cbn [step]; try done.
  - by destruct (login_modal a) as [[]|].
  - by destruct (login_modal a) as [[]|].
  - by destruct (H i).
  - cbn [app_state]. apply handleVIP_config.
Qed.

(** X4. Every user action writes only the keys of its footprint: the
    login handlers only the password and the login flag, the settings
    panel only the nine settings, the VIP prompt only the VIP flag, the
    cookie button only the consent flag; and only the settings panel
    changes the cached settings. *)
Theorem step_footprint (a : App) (e : event) (K : jsstring) :
  (~ In K (footprint e) ->
   storage (app_state (step a e)) !! K = storage (app_state a) !! K)
  /\ ((forall i, e <> SaveSettings i) ->
      config (app_state (step a e)) = config (app_state a)).
Proof. split; [apply step_other_keys | apply step_config]. Qed.

Lemma step_footprint_witness :
  let a := step initial_app (SaveSettings visit_phone) in
  storage (app_state a) !! js "isAdmin" = None
  /\ config (app_state (step a ToggleAuth)) = config (app_state a).
Proof.
  cbv zeta. split.
  - rewrite (proj1 (step_footprint initial_app (SaveSettings visit_phone) (js "isAdmin"))).
    + reflexivity.
    + vm_compute. intuition discriminate.
  - apply (proj2 (step_footprint (step initial_app (SaveSettings visit_phone))
                    ToggleAuth (js "isAdmin"))).
    intros i. discriminate.
Defined.

(** ** The login modal on every reachable page *)

Lemma isAdminLoggedIn_same (ls ls' : Storage) :
  ls' !! js "isAdmin" = ls !! js "isAdmin" -> isAdminLoggedIn ls' = isAdminLoggedIn ls.
Proof. intros H. unfold isAdminLoggedIn, localStorage.getItem. by rewrite H. Qed.

Lemma getAdminPassword_same (ls ls' : Storage) :
  ls' !! js "adminPassword" = ls !! js "adminPassword" ->
  getAdminPassword ls' = getAdminPassword ls.
Proof. intros H. unfold getAdminPassword, localStorage.getItem. by rewrite H. Qed.

Lemma renderLoginContent_same (ls ls' : Storage) :
  getAdminPassword ls' = getAdminPassword ls ->
  renderLoginContent ls' = renderLoginContent ls.
Proof. intros H. unfold renderLoginContent. by rewrite H. Qed.

(** An action that leaves the two keys of the login alone keeps the page
    consistent. *)
Lemma auth_consistent_frame (a a' : App) :
  storage (app_state a') !! js "isAdmin" = storage (app_state a) !! js "isAdmin" ->
  storage (app_state a') !! js "adminPassword"
    = storage (app_state a) !! js "adminPassword" ->
  login_modal a' = login_modal a \/ login_modal a' = None ->
  auth_consistent a -> auth_consistent a'.
Proof.
  intros Hi Hp Hm [H1 H2]. unfold auth_consistent.
  rewrite (isAdminLoggedIn_same _ _ Hi), (getAdminPassword_same _ _ Hp),
    (renderLoginContent_same _ _ (getAdminPassword_same _ _ Hp)).
  split; [done|]. intros form Hf. destruct Hm as [Hm | Hm]; rewrite Hm in Hf.
  - by apply H2.
  - done.
Qed.

Lemma step_consistent (a : App) (e : event) :
  auth_consistent a -> auth_consistent (step a e).
Proof.
  intros Ha. pose proof Ha as [H1 H2].
  destruct e as [|value| | |i|target answer|].
  - (* toggleAuth *)
    cbn [step]. unfold toggleAuth.
    destruct (isAdminLoggedIn (storage (app_state a))) eqn:Hl.
    + unfold auth_consistent. cbn [app_state with_storage storage fst snd login_modal].
      cbn [opens_login existsb orb].
      rewrite isAdminLoggedIn_unset. split; [done|].
      intros form Hf. destruct (H2 form Hf) as [_ Hfalse]. congruence.
    + unfold auth_consistent. cbn [app_state with_storage storage fst snd login_modal].
      cbn [opens_login existsb orb]. rewrite Hl. split; [done|].
      intros form [= <-]. done.
  - (* submit *)
    cbn [step]. destruct (login_modal a) as [[]|] eqn:Hm; [| |done].
    + destruct (H2 SetupForm eq_refl) as [Hr Hl].
      unfold setup_submit. destruct (_ <? _)%nat eqn:Hlen.
      * unfold run_login. cbn [fst snd closes_login existsb orb].
        apply (auth_consistent_frame a); cbn [app_state with_storage storage login_modal];
          auto.
      * unfold run_login, auth_consistent.
        cbn [app_state with_storage storage fst snd login_modal closes_login existsb orb].
        split; [|done]. intros _.
        rewrite getAdminPassword_setAdminLoggedIn, getAdminPassword_set; [done|].
        apply Nat.ltb_ge in Hlen. intros E. rewrite E in Hlen. simpl in Hlen. lia.
    + destruct (H2 PasswordForm eq_refl) as [Hr Hl].
      unfold login_submit. case_bool_decide as Hd.
      * unfold run_login, auth_consistent.
        cbn [app_state with_storage storage fst snd login_modal closes_login existsb orb].
        split; [|done]. intros _.
        rewrite getAdminPassword_setAdminLoggedIn. by rewrite <- Hd.
      * unfold run_login. cbn [fst snd closes_login existsb orb].
        apply (auth_consistent_frame a); cbn [app_state with_storage storage login_modal];
          auto.
  - (* biometric *)
    cbn [step]. destruct (login_modal a) as [[]|] eqn:Hm; try done.
    destruct (H2 PasswordForm eq_refl) as [Hr Hl].
    unfold run_login, bio_login, auth_consistent.
    cbn [app_state with_storage storage fst snd login_modal closes_login existsb orb].
    split; [|done]. intros _. rewrite getAdminPassword_setAdminLoggedIn.
    unfold renderLoginContent in Hr.
    by destruct (getAdminPassword (storage (app_state a))).
  - apply (auth_consistent_frame a); cbn [step app_state login_modal]; auto.
  - apply (auth_consistent_frame a); cbn [step app_state login_modal]; auto;
      apply saveSettings_other_keys; vm_compute; intuition discriminate.
  - apply (auth_consistent_frame a); cbn [step app_state login_modal]; auto;
      apply handleVIP_other_keys; keys_differ.
  - apply (auth_consistent_frame a);
      cbn [step app_state login_modal with_storage storage acceptCookies fst]; auto;
      unfold localStorage.setItem; rewrite lookup_insert_ne; done || keys_differ.
Qed.

Lemma run_app (events events' : list event) (a : App) :
  run (events ++ events') a = run events' (run events a).
Proof. unfold run. apply fold_left_app. Qed.

Lemma run_consistent (events : list event) (a : App) :
  auth_consistent a -> auth_consistent (run events a).
Proof.
  revert a. induction events as [|e events IH]; intros a Ha; [done|].
  simpl. apply IH. by apply step_consistent.
Qed.

Lemma initial_consistent : auth_consistent initial_app.
Proof. split; [done|]. intros form [=]. Qed.

(** X5. On every page that can be reached from a first visit, an admin
    who is logged in has a password, an open login modal shows the form
    that fits the store (the first-time form only while no password
    exists) and shows it only while nobody is logged in; so submitting the
    open form runs the handler that [renderLoginContent] would pick at
    that moment. *)
Theorem reachable_auth (events : list event) :
  let a := run events initial_app in
  let ls := storage (app_state a) in
  auth_consistent a
  /\ (forall value,
        login_modal a <> None ->
        storage (app_state (step a (LoginSubmit value))) = (submit_login ls value).1).
Proof.
  cbv zeta. pose proof (run_consistent events _ initial_consistent) as Ha.
  split; [exact Ha|]. intros value Hm. destruct Ha as [_ H2].
  cbn [step]. destruct (login_modal (run events initial_app)) as [form|]; [|done].
  destruct (H2 form eq_refl) as [Hr _]. unfold submit_login. rewrite <- Hr.
  by destruct form.
Qed.

Lemma reachable_auth_witness :
  let a := run [ToggleAuth] initial_app in
  login_modal a = Some SetupForm
  /\ storage (app_state (step a (LoginSubmit (js "secret"))))
     = (submit_login (storage (app_state a)) (js "secret")).1.
Proof.
  cbv zeta. split; [reflexivity|].
  apply (proj2 (reachable_auth [ToggleAuth])). vm_compute. discriminate.
Defined.

Lemma step_keeps_password (a : App) (e : event) (pwd : jsstring) :
  auth_consistent a ->
  getAdminPassword (storage (app_state a)) = Some pwd ->
  getAdminPassword (storage (app_state (step a e))) = Some pwd.
Proof.
  intros [_ H2] Hp.
  assert (~ In (js "adminPassword") (footprint e) ->
          getAdminPassword (storage (app_state (step a e))) = Some pwd) as Hout.
  { intros Hout. rewrite <- Hp. apply getAdminPassword_same.
    by apply step_other_keys. }
  destruct e as [|value| | |i|target answer|];
    try (apply Hout; vm_compute; intuition discriminate).
  cbn [step]. destruct (login_modal a) as [[]|] eqn:Hm; [| |done].
  - destruct (H2 SetupForm eq_refl) as [Hr _].
    unfold renderLoginContent in Hr. by rewrite Hp in Hr.
  - unfold run_login, login_submit. cbn [app_state with_storage storage].
    case_bool_decide; cbn [fst]; [|done].
    by rewrite getAdminPassword_setAdminLoggedIn.
Qed.

(** X6. Once an admin password exists it stays the same for good: no
    series of user actions on the page changes or removes it. *)
Theorem password_is_permanent (events events' : list event) (pwd : jsstring) :
  getAdminPassword (storage (app_state (run events initial_app))) = Some pwd ->
  getAdminPassword (storage (app_state (run (events ++ events') initial_app)))
  = Some pwd.
Proof.
  rewrite run_app.
  pose proof (run_consistent events _ initial_consistent) as Ha.
  revert Ha. generalize (run events initial_app). intros a Ha Hp.
  revert a Ha Hp. induction events' as [|e events' IH]; intros a Ha Hp; [done|].
  simpl. apply IH; [by apply step_consistent | by apply step_keeps_password].
Qed.

Lemma password_is_permanent_witness :
  getAdminPassword
    (storage (app_state
       (run ([ToggleAuth; LoginSubmit (js "secret")]
             ++ [ToggleAuth; ToggleAuth; LoginSubmit (js "other1"); BioClick])
          initial_app)))
  = Some (js "secret").
Proof.
  apply password_is_permanent. vm_compute. reflexivity.
Defined.

(** ** VIP access and cookie consent *)

Lemma isVIP_set (ls : Storage) :
  isVIP (localStorage.setItem ls (js "isVIP") (js "true")) = true.
Proof.
  unfold isVIP, localStorage.getItem, localStorage.setItem.
  rewrite lookup_insert_eq. by apply bool_decide_eq_true_2.
Qed.

Lemma isVIP_same (ls ls' : Storage) :
  ls' !! js "isVIP" = ls !! js "isVIP" -> isVIP ls' = isVIP ls.
Proof. intros H. unfold isVIP, localStorage.getItem. by rewrite H. Qed.

Lemma trim_nil : trim [] = [].
Proof. reflexivity. Qed.

Lemma handleVIP_unlocked (target : jsstring) (answer : option jsstring) (st : State) :
  isVIP (storage st) = true -> handleVIP target answer st = (st, [ShowTab target]).
Proof. intros H. unfold handleVIP. by rewrite H. Qed.

Lemma handleVIP_locked (target : jsstring) (answer : option jsstring) (st : State) :
  isVIP (storage st) = false ->
  isVIP (storage (handleVIP target answer st).1) = true
  <-> exists input, answer = Some input /\ trim input = vipCode (config st)
                    /\ input <> [].
Proof.
  intros H. unfold handleVIP. rewrite H.
  destruct (answered answer) as [input|] eqn:Ha.
  - apply answered_Some in Ha as [-> Hne]. case_bool_decide as Hd; cbn [fst storage].
    + rewrite isVIP_set. split; [|done]. intros _. by exists input.
    + rewrite H. split; [done|]. intros (input' & [= <-] & Ht & _). done.
  - cbn [fst]. rewrite H. split; [done|].
    intros (input & -> & _ & Hne). destruct input; [done|]. discriminate Ha.
Qed.

(** X7. The VIP link shows the section exactly when the browser is
    unlocked afterwards, and that is the case exactly when it was unlocked
    before or the visitor typed something that, trimmed, is the VIP code
    in force; a wrong code only raises the alert, and a cancelled or empty
    prompt does nothing at all. *)
Theorem handleVIP_access (target : jsstring) (answer : option jsstring) (st : State) :
  let r := handleVIP target answer st in
  (In (ShowTab target) r.2 <-> isVIP (storage r.1) = true)
  /\ (isVIP (storage r.1) = true
      <-> isVIP (storage st) = true
          \/ exists input, answer = Some input /\ trim input = vipCode (config st)
                           /\ input <> [])
  /\ (isVIP (storage r.1) = false ->
      r.1 = st
      /\ r.2 = match answered answer with
               | Some _ => [Ui (Alert (js "Λάθος κωδικός VIP."))]
               | None => []
               end).
Proof.
  cbv zeta. destruct (isVIP (storage st)) eqn:H.
  - rewrite handleVIP_unlocked by done. cbn [fst snd]. rewrite H.
    split; [split; [done | intros _; by left]|].
    split; [split; [by left | done] | done].
  - split; [|split].
    + unfold handleVIP. rewrite H. destruct (answered answer) as [input|].
      * case_bool_decide; cbn [fst snd storage].
        -- rewrite isVIP_set. split; [done|]. intros _. right. right. by left.
        -- rewrite H. split; [|done]. intros [E|[]]. discriminate E.
      * cbn [fst snd]. rewrite H. split; [intros [] | done].
    + rewrite (handleVIP_locked _ _ _ H). split; [by right|]. by intros [|].
    + unfold handleVIP. rewrite H. destruct (answered answer) as [input|]; [|done].
      case_bool_decide; [|done]. cbn [fst storage]. by rewrite isVIP_set.
Qed.

Lemma handleVIP_access_witness :
  isVIP (storage (handleVIP (js "vip") (Some (js " VIP2025 ")) initial_state).1) = true
  /\ handleVIP (js "vip") (Some (js "vip2025")) initial_state
     = (initial_state, [Ui (Alert (js "Λάθος κωδικός VIP."))]).
Proof.
  split.
  - apply (proj1 (proj2 (handleVIP_access (js "vip") (Some (js " VIP2025 ")) initial_state))).
    right. exists (js " VIP2025 "). repeat split. vm_compute. discriminate.
  - destruct (proj2 (proj2 (handleVIP_access (js "vip") (Some (js "vip2025"))
                              initial_state))) as [E1 E2].
    + vm_compute. reflexivity.
    + rewrite (surjective_pairing (handleVIP _ _ _)), E1, E2. reflexivity.
Defined.

Lemma step_keeps_vip (a : App) (e : event) :
  isVIP (storage (app_state a)) = true ->
  isVIP (storage (app_state (step a e))) = true.
Proof.
  intros H. destruct e as [|value| | |i|target answer|];
    try (rewrite <- H; apply isVIP_same, step_other_keys;
         vm_compute; intuition discriminate).
  cbn [step app_state]. by rewrite handleVIP_unlocked.
Qed.

(** X8. VIP access cannot be taken back: once a browser is unlocked, it
    stays unlocked through every later action on the page, a change of
    the VIP code in the settings panel included, and the VIP link then
    shows the section without asking for a code. *)
Theorem vip_stays_unlocked (events : list event) (a : App)
  (target : jsstring) (answer : option jsstring) :
  isVIP (storage (app_state a)) = true ->
  let st := app_state (run events a) in
  isVIP (storage st) = true
  /\ handleVIP target answer st = (st, [ShowTab target]).
Proof.
  intros H. cbv zeta.
  assert (isVIP (storage (app_state (run events a))) = true) as Hv.
  { revert a H. induction events as [|e events IH]; intros a H; [done|].
    simpl. apply IH. by apply step_keeps_vip. }
  split; [done | by apply handleVIP_unlocked].
Qed.

Lemma vip_stays_unlocked_witness :
  let a := step initial_app (VIPClick (js "vip") (Some (js "VIP2025"))) in
  let st := app_state (run [SaveSettings visit_phone; ToggleAuth] a) in
  handleVIP (js "vip") None st = (st, [ShowTab (js "vip")]).
Proof.
  cbv zeta.
  apply (vip_stays_unlocked [SaveSettings visit_phone; ToggleAuth]
           (step initial_app (VIPClick (js "vip") (Some (js "VIP2025"))))).
  vm_compute. reflexivity.
Defined.

Lemma run_cookies (events : list event) (a : App) :
  storage (app_state (run events a)) !! js "cookiesAccepted"
  = if existsb (fun e => match e with AcceptCookies => true | _ => false end) events
    then Some (js "true")
    else storage (app_state a) !! js "cookiesAccepted".
Proof.
  induction events as [|e events IH] using rev_ind; [done|].
  rewrite run_app, existsb_app. cbn [run fold_left existsb].
  destruct e as [|value| | |i|target answer|];
    try (rewrite step_other_keys by (vm_compute; intuition discriminate);
         rewrite IH, !orb_false_r; reflexivity).
  rewrite orb_true_r. cbn [step app_state with_storage storage acceptCookies fst].
  unfold localStorage.setItem. by rewrite lookup_insert_eq.
Qed.

(** X9. Starting from a first visit, the page load shows the cookie
    banner exactly as long as the cookie button was never pressed: no
    other action gives or withdraws the consent. *)
Theorem cookie_banner_until_accepted (events : list event) :
  init_cookie_banner (storage (app_state (run events initial_app))) = [ShowCookieBanner]
  <-> ~ In AcceptCookies events.
Proof.
  unfold init_cookie_banner, localStorage.getItem. rewrite run_cookies.
  destruct (existsb _ events) eqn:E.
  - apply existsb_exists in E as (e & Hin & He). destruct e; try discriminate.
    split; [discriminate | intros H; by destruct (H Hin)].
  - split; [|done]. intros _ Hin.
    assert (existsb (fun e => match e with AcceptCookies => true | _ => false end)
              events = true) as E'.
    { apply existsb_exists. by exists AcceptCookies. }
    congruence.
Qed.

Lemma cookie_banner_until_accepted_witness :
  init_cookie_banner
    (storage (app_state
       (run [ToggleAuth; VIPClick (js "vip") (Some (js "VIP2025"))] initial_app)))
  = [ShowCookieBanner].
Proof.
  apply (proj2 (cookie_banner_until_accepted
                  [ToggleAuth; VIPClick (js "vip") (Some (js "VIP2025"))])).
  intros [H | [H | []]]; discriminate H.
Defined.

(** ** The VIP code set in the settings panel *)

Lemma saveSettings_vipCode (i : SettingsInput) (st : State) :
  vipCode (config (saveSettings i st).1)
  = or_string (Some (trim (vip_input i))) (vipCode DEFAULTS).
Proof. rewrite saveSettings_state. by frame. Qed.

Lemma saveSettings_phoneNumber (i : SettingsInput) (st : State) :
  phoneNumber (config (saveSettings i st).1)
  = or_string (Some (trim (phone_input i))) (phoneNumber DEFAULTS).
Proof. rewrite saveSettings_state. by frame. Qed.

Lemma saveSettings_vipGreeting (i : SettingsInput) (st : State) :
  vipGreeting (config (saveSettings i st).1)
  = or_string (Some (trim (greeting_input i))) (vipGreeting DEFAULTS).
Proof. rewrite saveSettings_state. by frame. Qed.

Lemma or_string_nonempty (x : option jsstring) (fallback : jsstring) :
  fallback <> [] -> or_string x fallback <> [].
Proof.
  intros H. unfold or_string. destruct x as [[|c s]|]; simpl; done.
Qed.

(** ** Facts about [trim] and [split] *)

Lemma trimStart_split (s : jsstring) :
  exists l, s = l ++ trimStart s /\ Forall (fun c => is_white_space c = true) l.
Proof.
  induction s as [|c s IH]; [by exists []|].
  cbn [trimStart]. destruct (is_white_space c) eqn:E.
  - destruct IH as (l & Hs & Hl). exists (c :: l). split.
    + cbn [app]. by rewrite <- Hs.
    + by constructor.
  - by exists [].
Qed.

Lemma trimStart_head (s : jsstring) (c : N) (r : jsstring) :
  trimStart s = c :: r -> is_white_space c = false.
Proof.
  induction s as [|d s IH]; [done|]. cbn [trimStart].
  destruct (is_white_space d) eqn:E; [exact IH|]. by intros [= <- _].
Qed.

Lemma trimStart_fixed (s : jsstring) :
  (forall c r, s = c :: r -> is_white_space c = false) -> trimStart s = s.
Proof.
  destruct s as [|c r]; [done|]. intros H. cbn [trimStart].
  by rewrite (H c r eq_refl).
Qed.

(** [trim] removes white space at both ends and nothing else, and what it
    leaves starts and ends with a code unit that is no white space. *)
Lemma trim_split (s : jsstring) :
  exists l r,
    s = l ++ trim s ++ r
    /\ Forall (fun c => is_white_space c = true) l
    /\ Forall (fun c => is_white_space c = true) r
    /\ (forall c t, trim s = c :: t -> is_white_space c = false)
    /\ (forall c t, rev (trim s) = c :: t -> is_white_space c = false).
Proof.
  unfold trim, trimEnd.
  destruct (trimStart_split s) as (l & Hs & Hl).
  destruct (trimStart_split (rev (trimStart s))) as (r & Hr & Hrw).
  set (a := trimStart s) in *. set (b := trimStart (rev a)) in *.
  assert (Ha : a = rev b ++ rev r).
  { rewrite <- (rev_involutive a), Hr. by rewrite rev_app_distr. }
  exists l, (rev r). split; [by rewrite <- Ha|]. split; [done|].
  split; [by apply Forall_rev|]. split.
  - intros c t Hb. apply (trimStart_head s c (t ++ rev r)).
    fold a. by rewrite Ha, Hb.
  - intros c t. rewrite rev_involutive. apply trimStart_head.
Qed.

Lemma trim_fixed (s : jsstring) :
  (forall c t, s = c :: t -> is_white_space c = false) ->
  (forall c t, rev s = c :: t -> is_white_space c = false) ->
  trim s = s.
Proof.
  intros H1 H2. unfold trim, trimEnd.
  rewrite (trimStart_fixed s H1), (trimStart_fixed (rev s) H2).
  apply rev_involutive.
Qed.

Lemma trim_idempotent (s : jsstring) : trim (trim s) = trim s.
Proof.
  destruct (trim_split s) as (_ & _ & _ & _ & _ & H1 & H2). by apply trim_fixed.
Qed.

Lemma trim_subset (s : jsstring) (c : N) : In c (trim s) -> In c s.
Proof.
  intros H. destruct (trim_split s) as (l & r & Hs & _). rewrite Hs.
  apply in_or_app. right. apply in_or_app. by left.
Qed.

Lemma split_units (sep : N) (s x : jsstring) (c : N) :
  In x (split sep s) -> In c x -> In c s /\ c <> sep.
Proof.
  revert x. induction s as [|d s IH]; intros x Hx Hc.
  - destruct Hx as [<- | []]. destruct Hc.
  - cbn [split] in Hx. destruct (N.eqb_spec d sep) as [-> | Hd].
    + destruct Hx as [<- | Hx]; [destruct Hc|].
      destruct (IH x Hx Hc). split; [by right | done].
    + destruct (split sep s) as [|y ys] eqn:E.
      * destruct Hx as [<- | []]. destruct Hc as [<- | []]. split; [by left | done].
      * destruct Hx as [<- | Hx].
        -- destruct Hc as [<- | Hc]; [split; [by left | done]|].
           destruct (IH y (or_introl eq_refl) Hc). split; [by right | done].
        -- destruct (IH x (or_intror Hx) Hc). split; [by right | done].
Qed.

(** ** Price tables built by the prompts *)

Lemma obj_set_In {A : Type} (k : jsstring) (v : A) (o : list (jsstring * A))
  (n : jsstring) (p : A) :
  In (n, p) (obj_set k v o) -> (n, p) = (k, v) \/ In (n, p) o.
Proof.
  induction o as [|[k' v'] o IH]; cbn [obj_set].
  - intros [E | []]. by left.
  - case_bool_decide as Hk.
    + intros [E | H]; [left; congruence | right; by right].
    + intros [E | H]; [right; by left|].
      destruct (IH H); [by left | right; by right].
Qed.

Lemma obj_set_keys {A : Type} (k : jsstring) (v : A) (o : list (jsstring * A)) :
  obj_keys (obj_set k v o)
  = if bool_decide (k ∈ obj_keys o) then obj_keys o else obj_keys o ++ [k].
Proof.
  unfold obj_keys. induction o as [|[k' v'] o IH]; cbn [obj_set map fst].
  - rewrite bool_decide_eq_false_2; [done | apply not_elem_of_nil].
  - destruct (decide (k = k')) as [<- | Hk].
    + rewrite (bool_decide_eq_true_2 (k = k)) by done. cbn [map fst].
      rewrite bool_decide_eq_true_2; [done | by left].
    + rewrite (bool_decide_eq_false_2 (k = k')) by done. cbn [map fst].
      rewrite IH. destruct (decide (k ∈ map fst o)) as [Hin | Hin].
      * rewrite !bool_decide_eq_true_2; [done | by right | done].
      * rewrite !bool_decide_eq_false_2; [done | | done].
        intros H. apply elem_of_cons in H as [E | H]; congruence.
Qed.

Lemma obj_set_NoDup {A : Type} (k : jsstring) (v : A) (o : list (jsstring * A)) :
  NoDup (obj_keys o) -> NoDup (obj_keys (obj_set k v o)).
Proof.
  intros H. rewrite obj_set_keys. case_bool_decide as Hin; [done|].
  apply NoDup_app. split; [done|]. split.
  - intros x Hx Hk. apply list_elem_of_singleton in Hk as ->. by apply Hin.
  - apply NoDup_singleton.
Qed.

(** The name and the price that one item of the prompt contributes. *)
Lemma price_item (acc : list (jsstring * number)) (input pair : jsstring) :
  In pair (split (ch ",") input) ->
  well_formed_prices acc ->
  well_formed_prices
    (let parts := map trim (split (ch ":") pair) in
     match answered (parts !! 0%nat), answered (parts !! 1%nat) with
     | Some name, Some price =>
         if negb (Num.isNaN (parseFloat price))
         then obj_set name (parseFloat price) acc
         else acc
     | _, _ => acc
     end).
Proof.
  intros Hpair Hacc. cbv zeta.
  destruct (answered (map trim (split (ch ":") pair) !! 0%nat)) as [name|] eqn:Hn;
    [|done].
  destruct (answered (map trim (split (ch ":") pair) !! 1%nat)) as [price|]; [|done].
  destruct (Num.isNaN (parseFloat price)) eqn:Hnan; [done|]. cbn [negb].
  apply answered_Some in Hn as [Hn Hne].
  rewrite list_lookup_fmap in Hn.
  destruct (split (ch ":") pair !! 0%nat) as [part|] eqn:Hp; [|done].
  injection Hn as <-.
  apply list_elem_of_lookup_2, list_elem_of_In in Hp.
  destruct Hacc as [Hnd Hall]. split; [by apply obj_set_NoDup|].
  intros n p Hin. apply obj_set_In in Hin as [[= -> ->] | Hin]; [|by apply Hall].
  split; [done|]. split; [apply trim_idempotent|].
  split; [|split].
  - intros Hc. apply trim_subset in Hc.
    destruct (split_units _ _ _ _ Hp Hc) as [Hc' _].
    by destruct (split_units _ _ _ _ Hpair Hc').
  - intros Hc. apply trim_subset in Hc.
    by destruct (split_units _ _ _ _ Hp Hc).
  - by destruct (parseFloat price).
Qed.

Lemma parse_prices_well_formed (input : jsstring) :
  well_formed_prices (parse_prices input).
Proof.
  unfold parse_prices.
  assert (forall l acc,
            (forall pair, In pair l -> In pair (split (ch ",") input)) ->
            well_formed_prices acc ->
            well_formed_prices
              (fold_left
                 (fun acc pair =>
                    let parts := map trim (split (ch ":") pair) in
                    let name := parts !! 0%nat in
                    let price := parts !! 1%nat in
                    match answered name, answered price with
                    | Some name, Some price =>
                        if negb (Num.isNaN (parseFloat price))
                        then obj_set name (parseFloat price) acc
                        else acc
                    | _, _ => acc
                    end) l acc)) as H.
  { induction l as [|pair l IH]; intros acc Hl Hacc; [done|].
    cbn [fold_left]. apply IH; [intros p Hp; apply Hl; by right|].
    apply (price_item acc input pair); [apply Hl; by left | done]. }
  apply H; [done|]. split; [apply NoDup_nil_2 | intros n p []].
Qed.

Lemma DEFAULTS_well_formed :
  well_formed_prices (carCategories DEFAULTS) /\ well_formed_prices (extras DEFAULTS).
Proof.
  split; (split; [refine (bool_decide_unpack _ _); vm_compute; exact I|]);
    intros n p Hin; cbn [carCategories extras DEFAULTS In] in Hin;
    repeat (destruct Hin as [[= <- <-] | Hin];
            [repeat split; try discriminate; try (vm_compute; reflexivity);
             (vm_compute; intuition discriminate)|]);
    destruct Hin.
Qed.

Lemma saveSettings_well_formed (i : SettingsInput) (st : State) :
  well_formed_prices (carCategories (config st))
  /\ well_formed_prices (extras (config st)) ->
  well_formed_prices (carCategories (config (saveSettings i st).1))
  /\ well_formed_prices (extras (config (saveSettings i st).1)).
Proof.
  intros [Hc He]. rewrite saveSettings_state. split; frame.
  - unfold edit_carCategories. destruct (answered (catInput i)); [|by frame].
    cbv zeta. destruct (0 <? _)%nat; [|by frame]. apply parse_prices_well_formed.
  - unfold edit_extras. destruct (answered (extrasInput i)); [|by frame].
    cbv zeta. destruct (0 <? _)%nat; [|by frame]. apply parse_prices_well_formed.
Qed.

(** X10. Whatever is typed into the two price prompts, the tables that the
    panel builds are well formed: no name occurs twice, every name is
    non-empty, trimmed and free of commas and colons, and no price is NaN;
    so both tables are well formed after every series of visits to the
    panel that starts from the defaults. *)
Theorem price_tables_well_formed (input : jsstring) (visits : list SettingsInput) :
  well_formed_prices (parse_prices input)
  /\ well_formed_prices (carCategories (config (run_settings visits initial_state)))
  /\ well_formed_prices (extras (config (run_settings visits initial_state))).
Proof.
  split; [apply parse_prices_well_formed|].
  apply (run_settings_invariant
           (fun st => well_formed_prices (carCategories (config st))
                      /\ well_formed_prices (extras (config st)))).
  - apply saveSettings_well_formed.
  - apply DEFAULTS_well_formed.
Qed.

(** ** The VIP code and the payment methods set in the panel *)

(** X11. The VIP code in force after a visit to the settings panel is the
    trimmed content of its input, or the built-in code when that is empty;
    it is never empty, and on a browser that is still locked the VIP
    prompt unlocks for exactly the answers whose trimmed text is that
    code. *)
Theorem settings_vip_code (i : SettingsInput) (st : State)
  (target input : jsstring) :
  let st' := (saveSettings i st).1 in
  let code := if nonempty (trim (vip_input i)) then trim (vip_input i)
              else vipCode DEFAULTS in
  vipCode (config st') = code
  /\ code <> []
  /\ (isVIP (storage st) = false ->
      (isVIP (storage (handleVIP target (Some input) st').1) = true
       <-> trim input = code)).
Proof.
  cbv zeta. rewrite saveSettings_vipCode. cbn [or_string].
  set (code := if nonempty (trim (vip_input i)) then _ else _).
  assert (Hne : code <> []).
  { subst code. destruct (trim (vip_input i)) eqn:E; [|done]. cbn [nonempty].
    vm_compute. discriminate. }
  split; [done|]. split; [done|]. intros Hv.
  assert (Hv' : isVIP (storage (saveSettings i st).1) = false).
  { rewrite <- Hv. apply isVIP_same, saveSettings_other_keys.
    vm_compute. intuition discriminate. }
  rewrite (handleVIP_locked _ _ _ Hv'), saveSettings_vipCode. cbn [or_string].
  fold code. split.
  - by intros (x & [= <-] & Ht & _).
  - intros Ht. exists input. split; [done|]. split; [done|].
    intros ->. by rewrite trim_nil in Ht.
Qed.

Lemma settings_vip_code_witness :
  let st' := (saveSettings (visit_cancel (js "+30210") (js " gold ") (js "hello"))
                initial_state).1 in
  vipCode (config st') = js "gold"
  /\ isVIP (storage (handleVIP (js "vip") (Some (js "gold ")) st').1) = true.
Proof.
  cbv zeta.
  destruct (settings_vip_code (visit_cancel (js "+30210") (js " gold ") (js "hello"))
              initial_state (js "vip") (js "gold ")) as (Hc & _ & Hu).
  split; [rewrite Hc; vm_compute; reflexivity|].
  apply Hu; vm_compute; reflexivity.
Defined.

Lemma edit_methods_well_formed (p : jsstring) :
  well_formed_methods
    (filter (fun m => nonempty m = true) (map trim (split (ch ",") p))).
Proof.
  unfold well_formed_methods. apply Forall_forall. intros m Hm.
  apply list_elem_of_filter in Hm as [Hne Hm].
  apply (proj1 (list_elem_of_In _ _)) in Hm.
  apply in_map_iff in Hm as (part & <- & Hpart).
  split; [by destruct (trim part)|]. split; [apply trim_idempotent|].
  intros Hc. apply trim_subset in Hc.
  by destruct (split_units _ _ _ _ Hpart Hc).
Qed.

Lemma saveSettings_paymentMethods (i : SettingsInput) (st : State) :
  paymentMethods (config (saveSettings i st).1)
  = match answered (pay i) with
    | Some p => filter (fun m => nonempty m = true) (map trim (split (ch ",") p))
    | None => paymentMethods (config st)
    end.
Proof.
  rewrite saveSettings_state. frame. unfold edit_paymentMethods.
  destruct (answered (pay i)); by frame.
Qed.

Lemma saveSettings_methods (i : SettingsInput) (st : State) :
  well_formed_methods (paymentMethods (config st)) ->
  well_formed_methods (paymentMethods (config (saveSettings i st).1)).
Proof.
  intros H. rewrite saveSettings_paymentMethods.
  destruct (answered (pay i)); [apply edit_methods_well_formed | done].
Qed.

Lemma blank_methods (p : jsstring) :
  (forall c, In c p -> c = ch "," \/ is_white_space c = true) ->
  filter (fun m => nonempty m = true) (map trim (split (ch ",") p)) = [].
Proof.
  intros Hp.
  assert (forall m, In m (map trim (split (ch ",") p)) -> m = []) as Hall.
  { intros m Hm. apply in_map_iff in Hm as (part & <- & Hpart).
    destruct (trim_split part) as (_ & _ & _ & _ & _ & Hhead & _).
    destruct (trim part) as [|c t] eqn:E; [done|].
    assert (Hc : In c part) by (apply trim_subset; rewrite E; by left).
    destruct (split_units _ _ _ _ Hpart Hc) as [Hin Hsep].
    destruct (Hp c Hin) as [-> | Hw]; [done|].
    by rewrite (Hhead c t eq_refl) in Hw. }
  induction (map trim (split (ch ",") p)) as [|m l IH]; [done|].
  rewrite filter_cons, (Hall m) by (by left). cbn [nonempty].
  rewrite decide_False by done. apply IH. intros m' Hm'. apply Hall. by right.
Qed.

(** X12. After every series of visits to the panel that starts from the
    defaults, each payment method is non-empty, trimmed and free of
    commas; but the list itself is not protected as the price tables are:
    a non-empty answer made of commas and white space only leaves no
    payment method at all. *)
Theorem payment_methods_well_formed (visits : list SettingsInput)
  (i : SettingsInput) (st : State) (p : jsstring) :
  well_formed_methods (paymentMethods (config (run_settings visits initial_state)))
  /\ (pay i = Some p -> p <> [] ->
      (forall c, In c p -> c = ch "," \/ is_white_space c = true) ->
      paymentMethods (config (saveSettings i st).1) = []
      /\ storage (saveSettings i st).1 !! js "paymentMethods" = Some (js "[]")).
Proof.
  split.
  - apply (run_settings_invariant
             (fun st => well_formed_methods (paymentMethods (config st)))).
    + apply saveSettings_methods.
    + unfold well_formed_methods. cbn [initial_state config paymentMethods DEFAULTS].
      repeat (apply Forall_cons; split;
              [split; [discriminate|];
               split; [vm_compute; reflexivity | vm_compute; intuition discriminate]|]).
      apply Forall_nil_2.
  - intros Hp Hne Hblank.
    assert (Ha : answered (pay i) = Some p).
    { rewrite Hp. by destruct p. }
    split.
    + rewrite saveSettings_paymentMethods, Ha. by apply blank_methods.
    + rewrite saveSettings_state. frame. unfold edit_paymentMethods. rewrite Ha.
      cbv zeta. rewrite persist_lookup by done.
      cbn [assign config paymentMethods set_paymentMethods].
      by rewrite blank_methods.
Qed.

Lemma payment_methods_well_formed_witness :
  paymentMethods (config (saveSettings (visit_methods (js ", ,")) initial_state).1) = [].
Proof.
  refine (proj1 (proj2 (payment_methods_well_formed [] (visit_methods (js ", ,"))
                          initial_state (js ", ,"))
                   eq_refl _ _)).
  - vm_compute. discriminate.
  - intros c Hc. vm_compute in Hc.
    destruct Hc as [<- | [<- | [<- | []]]]; [by left | by right | by left].
Defined.

(** ** Reloading the page *)

Lemma lookup_loaded (ls : Storage) (key : jsstring) (v : value) :
  supported v -> ls !! key = Some (Json.serialize v) -> loadSetting ls key = v.
Proof.
  intros Hs Hl. unfold loadSetting, localStorage.getItem.
  by rewrite Hl, serialize_nonempty, parse_serialize_value.
Qed.

Lemma lookup_default (ls : Storage) (key : jsstring) :
  ls !! key = None -> loadSetting ls key = DEFAULTS_get key.
Proof. intros Hl. unfold loadSetting, localStorage.getItem. by rewrite Hl. Qed.

Lemma serialize_members_prices (first : bool) (o : list (jsstring * number)) :
  serialize_members first (map (fun '(k, n) => (k, VNum n)) o)
  = serialize_members first (map (fun '(k, n) => (k, stored_price n)) o).
Proof.
  revert first. induction o as [|[k n] o IH]; intros first; [done|].
  cbn [map]. destruct n; cbn [stored_price Num.isFinite serialize_members];
    by rewrite IH.
Qed.

Lemma serialize_prices (o : list (jsstring * number)) :
  Json.serialize (prices_value o) = Json.serialize (stored_prices o).
Proof.
  unfold prices_value, stored_prices.
  by rewrite !serialize_obj, serialize_members_prices.
Qed.

Lemma stored_prices_supported (o : list (jsstring * number)) :
  NoDup (obj_keys o) -> decimal_prices o -> supported (stored_prices o).
Proof.
  intros Hnd Hdec. unfold stored_prices. apply supported_obj. split.
  - unfold obj_keys in *. rewrite map_map.
    erewrite map_ext; [exact Hnd|]. by intros [k n].
  - apply Forall_forall. intros kv Hkv.
    apply (proj1 (list_elem_of_In _ _)), in_map_iff in Hkv as ([k n] & <- & Hin).
    cbn [snd]. destruct n as [| | |q]; try done.
    cbn [stored_price Num.isFinite supported]. exists q. split; [done|].
    by apply (Hdec k).
Qed.

Lemma stored_prices_finite (o : list (jsstring * number)) :
  finite_prices o -> stored_prices o = prices_value o.
Proof.
  intros H. unfold stored_prices, prices_value. f_equal.
  induction H as [|[k n] o Hn _ IH]; [done|]. cbn [map]. rewrite IH.
  cbn [snd] in Hn. unfold stored_price. by rewrite Hn.
Qed.

Lemma strings_supported (l : list jsstring) : supported (strings_value l).
Proof.
  unfold strings_value. apply supported_arr. apply Forall_forall. intros v Hv.
  by apply (proj1 (list_elem_of_In _ _)), in_map_iff in Hv as (s & <- & _).
Qed.

(** ** What a visit to the panel leaves in the store *)

Lemma parse_prices_decimal (input : jsstring) : decimal_prices (parse_prices input).
Proof.
  unfold parse_prices. generalize (split (ch ",") input) as l.
  assert (decimal_prices []) as H0 by (by intros n q []).
  revert H0. generalize (@nil (jsstring * number)) as acc.
  intros acc H0 l. revert acc H0.
  induction l as [|pair l IH]; intros acc Hacc; [done|].
  cbn [fold_left]. apply IH. cbv zeta.
  destruct (answered (map trim (split (ch ":") pair) !! 0%nat)) as [name|]; [|done].
  destruct (answered (map trim (split (ch ":") pair) !! 1%nat)) as [price|]; [|done].
  destruct (negb _); [|done].
  intros n q Hin. apply obj_set_In in Hin as [[= -> Hq] | Hin]; [|by apply (Hacc n)].
  by apply (parseFloat_decimal price).
Qed.

Section Visit.

Variable i : SettingsInput.
Variable st : State.

Lemma saved_phoneNumber :
  storage (saveSettings i st).1 !! js "phoneNumber"
  = Some (Json.serialize (VStr (phoneNumber (config (saveSettings i st).1)))).
Proof.
  rewrite saveSettings_state. frame.
  unfold persist_basic. cbv zeta.
  do 2 rewrite persist_lookup_ne by keys_differ. rewrite persist_lookup by done.
  by frame.
Qed.

Lemma saved_vipCode :
  storage (saveSettings i st).1 !! js "vipCode" = Some (Json.serialize (VStr (vipCode (config (saveSettings i st).1)))).
Proof.
  rewrite saveSettings_state. frame.
  unfold persist_basic. cbv zeta.
  rewrite persist_lookup_ne by keys_differ. rewrite persist_lookup by done.
  cbn [persist config]. by frame.
Qed.

Lemma saved_vipGreeting :
  storage (saveSettings i st).1 !! js "vipGreeting"
  = Some (Json.serialize (VStr (vipGreeting (config (saveSettings i st).1)))).
Proof.
  rewrite saveSettings_state. frame.
  unfold persist_basic. cbv zeta. rewrite persist_lookup by done.
  cbn [persist config]. by frame.
Qed.

Lemma saved_useWhatsApp :
  storage (saveSettings i st).1 !! js "useWhatsApp"
  = Some (Json.serialize (VBool (useWhatsApp (config (saveSettings i st).1)))).
Proof.
  rewrite saveSettings_state.
  unfold edit_useWhatsApp at 1 2. cbv zeta. by rewrite persist_lookup.
Qed.

Lemma saved_paymentMethods :
  storage (saveSettings i st).1 !! js "paymentMethods"
  = Some (Json.serialize (strings_value (paymentMethods (config (saveSettings i st).1))))
  \/ (storage (saveSettings i st).1 !! js "paymentMethods" = storage st !! js "paymentMethods"
      /\ paymentMethods (config (saveSettings i st).1) = paymentMethods (config st)).
Proof.
  rewrite saveSettings_state. frame. unfold edit_paymentMethods.
  destruct (answered (pay i)).
  - left. cbv zeta. by rewrite persist_lookup.
  - right. by frame.
Qed.

Lemma saved_carCategories :
  storage (saveSettings i st).1 !! js "carCategories"
  = Some (Json.serialize (prices_value (carCategories (config (saveSettings i st).1))))
  \/ (storage (saveSettings i st).1 !! js "carCategories" = storage st !! js "carCategories"
      /\ carCategories (config (saveSettings i st).1) = carCategories (config st)).
Proof.
  rewrite saveSettings_state. frame. unfold edit_carCategories.
  destruct (answered (catInput i)); [|right; by frame].
  cbv zeta. destruct (0 <? _)%nat; [|right; by frame].
  left. by rewrite persist_lookup.
Qed.

Lemma saved_extras :
  storage (saveSettings i st).1 !! js "extras"
  = Some (Json.serialize (prices_value (extras (config (saveSettings i st).1))))
  \/ (storage (saveSettings i st).1 !! js "extras" = storage st !! js "extras"
      /\ extras (config (saveSettings i st).1) = extras (config st)).
Proof.
  rewrite saveSettings_state. frame. unfold edit_extras.
  destruct (answered (extrasInput i)); [|right; by frame].
  cbv zeta. destruct (0 <? _)%nat; [|right; by frame].
  left. by rewrite persist_lookup.
Qed.

Lemma saved_depositPercent :
  storage (saveSettings i st).1 !! js "depositPercent"
  = Some (Json.serialize (VNum (depositPercent (config (saveSettings i st).1))))
  \/ (storage (saveSettings i st).1 !! js "depositPercent" = storage st !! js "depositPercent"
      /\ depositPercent (config (saveSettings i st).1) = depositPercent (config st)).
Proof.
  rewrite saveSettings_state. frame. unfold edit_depositPercent.
  destruct (depInput i); [|right; by frame].
  cbv zeta. destruct (_ && _); [|right; by frame].
  left. by rewrite persist_lookup.
Qed.

Lemma saved_adminEmail :
  storage (saveSettings i st).1 !! js "adminEmail"
  = Some (Json.serialize (VStr (adminEmail (config (saveSettings i st).1))))
  \/ (storage (saveSettings i st).1 !! js "adminEmail" = storage st !! js "adminEmail"
      /\ adminEmail (config (saveSettings i st).1) = adminEmail (config st)).
Proof.
  rewrite saveSettings_state. frame. unfold edit_adminEmail.
  destruct (answered (emailPrompt i)).
  - left. cbv zeta. by rewrite persist_lookup.
  - right. by frame.
Qed.

Lemma kept_saved {A : Type} (key : jsstring) (enc : A -> value) (x x' dflt : A) :
  kept st key enc x dflt ->
  storage (saveSettings i st).1 !! key = Some (Json.serialize (enc x'))
  \/ (storage (saveSettings i st).1 !! key = storage st !! key /\ x' = x) ->
  kept (saveSettings i st).1 key enc x' dflt.
Proof.
  intros Hk [Hs | [Hs ->]]; [by left|]. unfold kept. by rewrite Hs.
Qed.

Lemma saveSettings_coherent : coherent st -> coherent (saveSettings i st).1.
Proof.
  intros (H1 & H2 & H3 & H4 & H5 & H6 & H7 & H8 & H9). unfold coherent. cbv zeta.
  split; [left; apply saved_phoneNumber|].
  split; [left; apply saved_vipCode|].
  split; [left; apply saved_vipGreeting|].
  split; [left; apply saved_useWhatsApp|].
  split; [exact (kept_saved _ _ _ _ _ H5 saved_paymentMethods)|].
  split; [exact (kept_saved _ _ _ _ _ H6 saved_carCategories)|].
  split; [exact (kept_saved _ _ _ _ _ H7 saved_extras)|].
  split; [exact (kept_saved _ _ _ _ _ H8 saved_depositPercent)|].
  exact (kept_saved _ _ _ _ _ H9 saved_adminEmail).
Qed.

Lemma saveSettings_settings_invariant :
  settings_invariant st -> settings_invariant (saveSettings i st).1.
Proof.
  intros (Hc & Hn1 & Hn2 & Hd1 & Hd2 & Hp).
  split; [by apply saveSettings_coherent|].
  rewrite saveSettings_state.
  split; [|split; [|split; [|split]]]; frame.
  - unfold edit_carCategories. destruct (answered (catInput i)); [|by frame].
    cbv zeta. destruct (0 <? _)%nat; [|by frame].
    apply parse_prices_well_formed.
  - unfold edit_extras. destruct (answered (extrasInput i)); [|by frame].
    cbv zeta. destruct (0 <? _)%nat; [|by frame].
    apply parse_prices_well_formed.
  - unfold edit_carCategories. destruct (answered (catInput i)); [|by frame].
    cbv zeta. destruct (0 <? _)%nat; [|by frame].
    apply parse_prices_decimal.
  - unfold edit_extras. destruct (answered (extrasInput i)); [|by frame].
    cbv zeta. destruct (0 <? _)%nat; [|by frame].
    apply parse_prices_decimal.
  - unfold edit_depositPercent. destruct (depInput i) as [s|]; [|by frame].
    cbv zeta. destruct (_ && _) eqn:E; [|by frame].
    cbn [persist assign config depositPercent set_depositPercent].
    destruct (parseFloat s) as [| | |q] eqn:Hq; try done.
    exists q. split; [done|]. by apply (parseFloat_decimal s).
Qed.

End Visit.

Lemma initial_settings_invariant : settings_invariant initial_state.
Proof.
  split; [|split; [|split; [|split; [|split]]]].
  - unfold coherent. cbv zeta. repeat split; right; done.
  - apply DEFAULTS_well_formed.
  - apply DEFAULTS_well_formed.
  - intros n q Hin. cbn [initial_state config carCategories DEFAULTS In] in Hin.
    repeat (destruct Hin as [[= _ <-] | Hin]; [apply is_decimal_of_Z|]).
    destruct Hin.
  - intros n q Hin. cbn [initial_state config extras DEFAULTS In] in Hin.
    repeat (destruct Hin as [[= _ <-] | Hin]; [apply is_decimal_of_Z|]).
    destruct Hin.
  - exists (Qc_of_Z 30). split; [done | apply is_decimal_of_Z].
Qed.

Lemma kept_frame {A : Type} (st st' : State) (key : jsstring) (enc : A -> value)
  (x dflt : A) :
  storage st' !! key = storage st !! key ->
  kept st key enc x dflt -> kept st' key enc x dflt.
Proof. intros E. unfold kept. by rewrite E. Qed.

Lemma settings_invariant_frame (st st' : State) :
  config st' = config st ->
  (forall i K, In K (footprint (SaveSettings i)) -> storage st' !! K = storage st !! K) ->
  settings_invariant st -> settings_invariant st'.
Proof.
  intros Hcfg Hkeys (Hc & Hrest). split; [|by rewrite Hcfg].
  pose proof (Hkeys (visit_cancel [] [] [])) as Hk. cbn [footprint In] in Hk.
  destruct Hc as (H1 & H2 & H3 & H4 & H5 & H6 & H7 & H8 & H9).
  unfold coherent. cbv zeta. rewrite Hcfg.
  split; [apply (kept_frame st); [apply Hk; auto 12 | exact H1]|].
  split; [apply (kept_frame st); [apply Hk; auto 12 | exact H2]|].
  split; [apply (kept_frame st); [apply Hk; auto 12 | exact H3]|].
  split; [apply (kept_frame st); [apply Hk; auto 12 | exact H4]|].
  split; [apply (kept_frame st); [apply Hk; auto 12 | exact H5]|].
  split; [apply (kept_frame st); [apply Hk; auto 12 | exact H6]|].
  split; [apply (kept_frame st); [apply Hk; auto 12 | exact H7]|].
  split; [apply (kept_frame st); [apply Hk; auto 12 | exact H8]|].
  apply (kept_frame st); [apply Hk; auto 12 | exact H9].
Qed.

Lemma step_settings_invariant (a : App) (e : event) :
  settings_invariant (app_state a) -> settings_invariant (app_state (step a e)).
Proof.
  intros H.
  destruct e as [|value| | |i|target answer|];
    try (apply (settings_invariant_frame (app_state a));
         [by apply step_config
         |intros i K HK; apply step_other_keys; cbn [footprint In] in *; intros Hin;
          repeat (destruct HK as [<- | HK];
                  [vm_compute in Hin; intuition discriminate|]);
          destruct HK
         |done]).
  cbn [step app_state]. by apply saveSettings_settings_invariant.
Qed.

Lemma run_settings_app (events : list event) (a : App) :
  settings_invariant (app_state a) -> settings_invariant (app_state (run events a)).
Proof.
  revert a. induction events as [|e events IH]; intros a Ha; [done|].
  simpl. apply IH. by apply step_settings_invariant.
Qed.

Lemma kept_loaded {A : Type} (st : State) (key : jsstring) (enc : A -> value)
  (x dflt : A) (v : value) :
  kept st key enc x dflt ->
  supported v -> Json.serialize (enc x) = Json.serialize v ->
  (x = dflt -> DEFAULTS_get key = v) ->
  loadSetting (storage st) key = v.
Proof.
  intros [Hl | [Hl Hx]] Hs He Hd.
  - apply lookup_loaded; [done|]. by rewrite <- He.
  - rewrite lookup_default by done. by apply Hd.
Qed.

Lemma invariant_reload (st : State) :
  settings_invariant st -> load_settings (storage st) = reloaded (config st).
Proof.
  intros (Hc & Hn1 & Hn2 & Hd1 & Hd2 & q & Hq & Hqd).
  destruct Hc as (H1 & H2 & H3 & H4 & H5 & H6 & H7 & H8 & H9).
  unfold load_settings, reloaded.
  rewrite (kept_loaded _ _ _ _ _ (VStr (phoneNumber (config st))) H1)
    by (done || by intros ->).
  rewrite (kept_loaded _ _ _ _ _ (VStr (vipCode (config st))) H2)
    by (done || by intros ->).
  rewrite (kept_loaded _ _ _ _ _ (VStr (vipGreeting (config st))) H3)
    by (done || by intros ->).
  rewrite (kept_loaded _ _ _ _ _ (VBool (useWhatsApp (config st))) H4)
    by (done || by intros ->).
  rewrite (kept_loaded _ _ _ _ _ (strings_value (paymentMethods (config st))) H5)
    by (apply strings_supported || done || by intros ->).
  rewrite (kept_loaded _ _ _ _ _ (stored_prices (carCategories (config st))) H6)
    by (by apply stored_prices_supported || apply serialize_prices || by intros ->).
  rewrite (kept_loaded _ _ _ _ _ (stored_prices (extras (config st))) H7)
    by (by apply stored_prices_supported || apply serialize_prices || by intros ->).
  rewrite (kept_loaded _ _ _ _ _ (VNum (depositPercent (config st))) H8)
    by ((rewrite Hq; by exists q) || done || by intros ->).
  rewrite (kept_loaded _ _ _ _ _ (VStr (adminEmail (config st))) H9)
    by (done || by intros ->).
  reflexivity.
Qed.

(** X13. From a first visit on, whatever is done on the page, loading
    the settings anew from the store (as a reload of the page does) gives
    every setting the value that is cached in memory, except that a price
    which is not finite comes back as null; with finite prices the reload
    changes nothing. *)
Theorem reload_restores_settings (events : list event) :
  let st := app_state (run events initial_app) in
  load_settings (storage st) = reloaded (config st)
  /\ (finite_prices (carCategories (config st)) ->
      finite_prices (extras (config st)) ->
      load_settings (storage st) = settings_object (config st)).
Proof.
  cbv zeta.
  pose proof (invariant_reload _
                (run_settings_app events initial_app initial_settings_invariant)) as E.
  split; [exact E|]. intros Hf1 Hf2. rewrite E. unfold reloaded, settings_object.
  by rewrite !stored_prices_finite.
Qed.

Lemma reload_restores_settings_witness :
  let st := app_state (run [SaveSettings (visit_categories (js "Lux:120, Van:75.5"))]
                         initial_app) in
  load_settings (storage st) = settings_object (config st).
Proof.
  cbv zeta.
  apply (proj2 (reload_restores_settings
                  [SaveSettings (visit_categories (js "Lux:120, Van:75.5"))])).
  - cbn [run fold_left step app_state initial_app].
    repeat constructor.
  - repeat constructor.
Defined.

(** ** Order of the amounts of a quote *)

Lemma spec_round2_mono (x y : Qc) :
  (x <= y)%Qc -> (spec_round2 x <= spec_round2 y)%Qc.
Proof.
  intros H. unfold spec_round2, Qcdiv.
  apply Qcmult_le_mono_nonneg_r; [done|].
  apply (proj1 (Z2Qc_inj_le _ _)). apply Qfloor_resp_le.
  change (x * Qc_of_Z 100 + Q2Qc (1 # 2) <= y * Qc_of_Z 100 + Q2Qc (1 # 2))%Qc.
  apply Qcplus_le_mono_r. by apply Qcmult_le_mono_nonneg_r.
Qed.

Lemma spec_round2_0 : spec_round2 0 = 0%Qc.
Proof. apply Qc_is_canon. reflexivity. Qed.

Lemma spec_round2_nonneg (x : Qc) : (0 <= x)%Qc -> (0 <= spec_round2 x)%Qc.
Proof. intros H. rewrite <- spec_round2_0. by apply spec_round2_mono. Qed.

Lemma share_le (x p : Qc) :
  (0 <= x)%Qc -> (0 <= p)%Qc -> (p <= Qc_of_Z 100)%Qc ->
  (0 <= x * p / Qc_of_Z 100)%Qc /\ (x * p / Qc_of_Z 100 <= x)%Qc.
Proof.
  intros Hx Hp Hp'. unfold Qcdiv. split.
  - apply Qcmult_nonneg_nonneg; [by apply Qcmult_nonneg_nonneg | done].
  - replace x with (x * (Qc_of_Z 100 * / Qc_of_Z 100))%Qc at 2
      by (rewrite Qcmult_inv_r by done; apply Qcmult_1_r).
    rewrite <- Qcmult_assoc. apply Qcmult_le_mono_nonneg_l; [done|].
    by apply Qcmult_le_mono_nonneg_r.
Qed.

Lemma num_0 : num 0 = Fin 0%Qc.
Proof. unfold Num.of_Z. by rewrite Z2Qc_inj_0. Qed.

Lemma Z2Qc_nonneg (z : Z) : 0 <= z -> (0 <= Qc_of_Z z)%Qc.
Proof. intros H. rewrite <- Z2Qc_inj_0. by apply (proj1 (Z2Qc_inj_le _ _)). Qed.

Lemma obj_get_In {A : Type} (k : jsstring) (o : list (jsstring * A)) (v : A) :
  obj_get k o = Some v -> In (k, v) o.
Proof.
  induction o as [|[k' v'] o IH]; [done|]. cbn [obj_get].
  case_bool_decide as Hk; [intros [= ->]; left; by subst | intros H; right; auto].
Qed.

Lemma or_zero_nonneg (k : jsstring) (o : list (jsstring * number)) :
  nonneg_prices o -> exists q, or_zero (obj_get k o) = Fin q /\ (0 <= q)%Qc.
Proof.
  intros Ho.
  assert (exists q, num 0 = Fin q /\ (0 <= q)%Qc) as H0.
  { exists 0%Qc. split; [apply num_0 | apply Qcle_refl]. }
  destruct (obj_get k o) as [p|] eqn:E; [|exact H0].
  apply obj_get_In in E. destruct (Ho k p E) as (q & -> & Hq).
  cbn [or_zero Num.truthy]. destruct (negb _); [by exists q | exact H0].
Qed.

Section Order.

Variable cfg : Config.
Hypothesis Hcats : nonneg_prices (carCategories cfg).
Hypothesis Hextras : nonneg_prices (extras cfg).

Lemma extras_total_grows (z : Z) (l : list jsstring) (t : Qc) :
  0 <= z ->
  exists e, extras_total cfg (num z) l (Fin t) = Fin e /\ (t <= e)%Qc.
Proof.
  intros Hz. revert t. induction l as [|k l IH]; intros t; [by exists t|].
  unfold extras_total in *. cbn [fold_left].
  destruct (or_zero_nonneg k _ Hextras) as (q & -> & Hq).
  change (Num.add (Fin t) (Num.mul (Fin q) (num z)))
    with (Fin (t + q * Qc_of_Z z)).
  destruct (IH (t + q * Qc_of_Z z)%Qc) as (e & -> & He). exists e. split; [done|].
  etrans; [|exact He].
  rewrite <- (Qcplus_0_r t) at 1. apply Qcplus_le_mono_l.
  apply Qcmult_nonneg_nonneg; [done|]. by apply Z2Qc_nonneg.
Qed.

Lemma extras_total_mono (z z' : Z) (l : list jsstring) (t t' : Qc) :
  0 <= z -> z <= z' -> (t <= t')%Qc ->
  exists e e',
    extras_total cfg (num z) l (Fin t) = Fin e
    /\ extras_total cfg (num z') l (Fin t') = Fin e' /\ (e <= e')%Qc.
Proof.
  intros Hz Hzz. revert t t'. induction l as [|k l IH]; intros t t' Ht.
  - by exists t, t'.
  - unfold extras_total in *. cbn [fold_left].
    destruct (or_zero_nonneg k _ Hextras) as (q & -> & Hq).
    change (Num.add (Fin t) (Num.mul (Fin q) (num z)))
      with (Fin (t + q * Qc_of_Z z)).
    change (Num.add (Fin t') (Num.mul (Fin q) (num z')))
      with (Fin (t' + q * Qc_of_Z z')).
    apply IH. apply Qcplus_le_compat; [done|].
    apply Qcmult_le_mono_nonneg_l; [done|]. by apply (proj1 (Z2Qc_inj_le _ _)).
Qed.

(** The subtotal is finite, not negative, and grows with the day count
    and with the selection of extras. *)
Lemma subtotal_mono (z z' : Z) (category : jsstring) (l more : list jsstring) :
  0 <= z -> z <= z' ->
  exists x x',
    Num.add (pc_base (quote_components cfg (num z) category l))
      (pc_extras (quote_components cfg (num z) category l)) = Fin x
    /\ Num.add (pc_base (quote_components cfg (num z') category (l ++ more)))
         (pc_extras (quote_components cfg (num z') category (l ++ more))) = Fin x'
    /\ (0 <= x)%Qc /\ (x <= x')%Qc.
Proof.
  intros Hz Hzz. cbn [quote_components pc_base pc_extras].
  destruct (or_zero_nonneg category _ Hcats) as (q & -> & Hq).
  rewrite extras_total_app.
  destruct (extras_total_mono z z' l 0%Qc 0%Qc Hz Hzz) as (e & e' & He & He' & Hee);
    [done|].
  destruct (extras_total_grows z l 0%Qc Hz) as (e0 & He0 & Hpos).
  rewrite num_0, He, He'.
  destruct (extras_total_grows z' more e') as (e'' & -> & Hmore); [lia|].
  rewrite He in He0. injection He0 as <-.
  exists (q * Qc_of_Z z + e)%Qc, (q * Qc_of_Z z' + e'')%Qc.
  split; [done|]. split; [done|]. split.
  - apply Qcplus_nonneg_nonneg; [|done].
    apply Qcmult_nonneg_nonneg; [done|]. by apply Z2Qc_nonneg.
  - apply Qcplus_le_compat; [|by etrans].
    apply Qcmult_le_mono_nonneg_l; [done|]. by apply (proj1 (Z2Qc_inj_le _ _)).
Qed.

Hypothesis Hpercent : in_percent_range (depositPercent cfg).

(** Total and deposit of a quote with a finite subtotal. *)
Lemma quote_amounts (days : number) (category : jsstring) (l : list jsstring) (x : Qc) :
  let pc := quote_components cfg days category l in
  Num.add (pc_base pc) (pc_extras pc) = Fin x ->
  exists p,
    depositPercent cfg = Fin p /\ (0 <= p)%Qc /\ (p <= Qc_of_Z 100)%Qc
    /\ pc_total pc = Fin (spec_round2 x)
    /\ pc_deposit pc =
         Fin (if Num.Qc_ltb 0 p then spec_round2 (x * p / Qc_of_Z 100) else 0%Qc).
Proof.
  intros pc Hx. destruct Hpercent as (p & Hp & Hp0 & Hp100).
  exists p. split; [done|]. split; [done|]. split; [done|].
  destruct (quote_components_priced cfg days category l) as [Ht Hd].
  fold pc in Ht, Hd. rewrite Hx in Ht, Hd. split; [exact Ht|].
  rewrite Hd, Hp, num_0.
  change (Num.gt (Fin p) (Fin 0%Qc)) with (Num.Qc_ltb 0 p).
  destruct (Num.Qc_ltb 0 p); [|done].
  unfold Num.mul, Num.div, Num.of_Z.
  replace (Num.Qc_eqb (Qc_of_Z 100) 0%Qc) with false by reflexivity.
  reflexivity.
Qed.

Lemma deposit_le_total (z : Z) (category : jsstring) (l : list jsstring) :
  0 <= z ->
  let pc := quote_components cfg (num z) category l in
  exists d t, pc_deposit pc = Fin d /\ pc_total pc = Fin t
              /\ (0 <= d)%Qc /\ (d <= t)%Qc.
Proof.
  intros Hz pc.
  destruct (subtotal_mono z z category l [] Hz ltac:(lia)) as (x & _ & Hx & _ & Hx0 & _).
  destruct (quote_amounts (num z) category l x Hx) as (p & _ & Hp0 & Hp100 & Ht & Hd).
  fold pc in Ht, Hd. rewrite Ht, Hd.
  destruct (share_le x p Hx0 Hp0 Hp100) as [Hs0 Hs1].
  eexists _, _. split; [done|]. split; [done|].
  destruct (Num.Qc_ltb 0 p).
  - split; [by apply spec_round2_nonneg | by apply spec_round2_mono].
  - split; [done | by apply spec_round2_nonneg].
Qed.

Lemma quote_mono (z z' : Z) (category : jsstring) (l more : list jsstring) :
  0 <= z -> z <= z' ->
  let pc := quote_components cfg (num z) category l in
  let pc' := quote_components cfg (num z') category (l ++ more) in
  exists t t' d d',
    pc_total pc = Fin t /\ pc_total pc' = Fin t'
    /\ pc_deposit pc = Fin d /\ pc_deposit pc' = Fin d'
    /\ (t <= t')%Qc /\ (d <= d')%Qc.
Proof.
  intros Hz Hzz pc pc'.
  destruct (subtotal_mono z z' category l more Hz Hzz) as (x & x' & Hx & Hx' & Hx0 & Hxx).
  destruct (quote_amounts (num z) category l x Hx) as (p & Hp & Hp0 & Hp100 & Ht & Hd).
  destruct (quote_amounts (num z') category (l ++ more) x' Hx')
    as (p' & Hp' & _ & _ & Ht' & Hd').
  rewrite Hp in Hp'. injection Hp' as <-.
  fold pc in Ht, Hd. fold pc' in Ht', Hd'. rewrite Ht, Hd, Ht', Hd'.
  eexists _, _, _, _. repeat (split; [done|]).
  split; [by apply spec_round2_mono|].
  destruct (Num.Qc_ltb 0 p); [|done].
  apply spec_round2_mono. unfold Qcdiv.
  apply Qcmult_le_mono_nonneg_r; [done|]. by apply Qcmult_le_mono_nonneg_r.
Qed.

End Order.

Lemma ceil_div_mono (x x' y : Z) : 0 < y -> x <= x' -> ceil_div x y <= ceil_div x' y.
Proof.
  intros Hy Hx. unfold ceil_div.
  assert (- x' / y <= - x / y) by (apply Z.div_le_mono; lia). lia.
Qed.

Lemma spec_dayCount_mono (p : option Z) (d d' : Z) :
  d <= d' -> spec_dayCount p (Some d) <= spec_dayCount p (Some d').
Proof.
  intros Hd. destruct p as [p|]; [|done]. cbn [spec_dayCount].
  destruct (Z.ltb_spec p d) as [H|H].
  - destruct (Z.ltb_spec p d') as [H'|H']; [|lia]. apply ceil_div_mono; lia.
  - apply (spec_dayCount_pos (Some p) (Some d')).
Qed.

Lemma DEFAULTS_nonneg :
  nonneg_prices (carCategories DEFAULTS) /\ nonneg_prices (extras DEFAULTS)
  /\ in_percent_range (depositPercent DEFAULTS).
Proof.
  split; [|split].
  - intros n p Hin. cbn [carCategories DEFAULTS In] in Hin.
    repeat (destruct Hin as [[= _ <-] | Hin];
            [eexists; split; [reflexivity | by apply Z2Qc_nonneg]|]).
    destruct Hin.
  - intros n p Hin. cbn [extras DEFAULTS In] in Hin.
    repeat (destruct Hin as [[= _ <-] | Hin];
            [eexists; split; [reflexivity | by apply Z2Qc_nonneg]|]).
    destruct Hin.
  - exists (Qc_of_Z 30). split; [reflexivity|].
    split; by apply (proj1 (Z2Qc_inj_le _ _)).
Qed.

Section Quote.

Variable Date_parse : jsstring -> option Z.
Variable cfg : Config.

Lemma live_components (f : BookingForm) (s : Summary) :
  calculatePrice Date_parse cfg f = Shown s ->
  summary_components s = mail_components (handleBookingSubmit Date_parse cfg f).
Proof.
  intros Hs. apply calculatePrice_shown in Hs as (Hp & Hd & _ & Hc & _).
  rewrite Hc, handleBookingSubmit_components. unfold booking_days. by rewrite Hp, Hd.
Qed.

(** X14. With prices that are not negative and a deposit percentage from
    0 to 100, the deposit of a booking is never negative and never above
    the total, both as the booking mail states them and as the live quote
    shows them. *)
Theorem deposit_within_total (f : BookingForm) :
  nonneg_prices (carCategories cfg) -> nonneg_prices (extras cfg) ->
  in_percent_range (depositPercent cfg) ->
  let m := handleBookingSubmit Date_parse cfg f in
  exists d t,
    m_depositAmount m = Fin d /\ m_total m = Fin t
    /\ (0 <= d)%Qc /\ (d <= t)%Qc
    /\ forall s, calculatePrice Date_parse cfg f = Shown s ->
                 s_depositAmount s = Fin d /\ s_total s = Fin t.
Proof.
  intros Hc He Hp m.
  pose proof (handleBookingSubmit_components Date_parse cfg f) as Hm.
  rewrite booking_days_spec in Hm.
  destruct (deposit_le_total cfg Hc He Hp
              (spec_dayCount (parsed_date Date_parse (f_pickup f))
                 (parsed_date Date_parse (f_dropoff f)))
              (f_category f) (f_checked f)) as (d & t & Hd & Ht & Hd0 & Hdt).
  { pose proof (spec_dayCount_pos (parsed_date Date_parse (f_pickup f))
                  (parsed_date Date_parse (f_dropoff f))). lia. }
  rewrite <- Hm in Hd, Ht. cbn [mail_components pc_deposit pc_total] in Hd, Ht.
  exists d, t. split; [done|]. split; [done|]. split; [done|]. split; [done|].
  intros s Hs. apply live_components in Hs.
  split.
  - rewrite <- Hd. exact (f_equal pc_deposit Hs).
  - rewrite <- Ht. exact (f_equal pc_total Hs).
Qed.

(** X15. With prices that are not negative and a deposit percentage from
    0 to 100, a later drop-off date and further extras never make a
    booking cheaper: neither the total nor the deposit goes down, in the
    booking mail and in the live quote alike. *)
Theorem longer_rental_never_cheaper (f : BookingForm) (dropoff : jsstring)
  (more : list jsstring) (d d' : Z) :
  nonneg_prices (carCategories cfg) -> nonneg_prices (extras cfg) ->
  in_percent_range (depositPercent cfg) ->
  parsed_date Date_parse (f_dropoff f) = Some d ->
  parsed_date Date_parse dropoff = Some d' -> d <= d' ->
  let m := handleBookingSubmit Date_parse cfg f in
  let m' := handleBookingSubmit Date_parse cfg (extended dropoff more f) in
  exists t t' dep dep',
    m_total m = Fin t /\ m_total m' = Fin t'
    /\ m_depositAmount m = Fin dep /\ m_depositAmount m' = Fin dep'
    /\ (t <= t')%Qc /\ (dep <= dep')%Qc
    /\ forall s s',
         calculatePrice Date_parse cfg f = Shown s ->
         calculatePrice Date_parse cfg (extended dropoff more f) = Shown s' ->
         s_total s = Fin t /\ s_total s' = Fin t'
         /\ s_depositAmount s = Fin dep /\ s_depositAmount s' = Fin dep'.
Proof.
  intros Hc He Hp Hd Hd' Hdd m m'.
  pose proof (handleBookingSubmit_components Date_parse cfg f) as Hm.
  pose proof (handleBookingSubmit_components Date_parse cfg (extended dropoff more f))
    as Hm'.
  rewrite booking_days_spec in Hm, Hm'.
  cbn [extended f_pickup f_dropoff f_category f_checked] in Hm'.
  rewrite Hd in Hm. rewrite Hd' in Hm'.
  set (p := parsed_date Date_parse (f_pickup f)) in *.
  destruct (quote_mono cfg Hc He Hp (spec_dayCount p (Some d))
              (spec_dayCount p (Some d')) (f_category f) (f_checked f) more)
    as (t & t' & dep & dep' & Ht & Ht' & Hdep & Hdep' & Htt & Hdd').
  { pose proof (spec_dayCount_pos p (Some d)). lia. }
  { by apply spec_dayCount_mono. }
  rewrite <- Hm in Ht, Hdep. rewrite <- Hm' in Ht', Hdep'.
  cbn [mail_components pc_deposit pc_total] in Ht, Ht', Hdep, Hdep'.
  exists t, t', dep, dep'. repeat (split; [done|]).
  intros s s' Hs Hs'. apply live_components in Hs, Hs'.
  rewrite <- Ht, <- Ht', <- Hdep, <- Hdep'.
  split; [exact (f_equal pc_total Hs)|]. split; [exact (f_equal pc_total Hs')|].
  split; [exact (f_equal pc_deposit Hs) | exact (f_equal pc_deposit Hs')].
Qed.

End Quote.

Lemma deposit_within_total_witness :
  let m := handleBookingSubmit Date_parse_iso DEFAULTS
             (form_of (js "2025-06-01") (js "2025-06-04") (js "SUV") [js "GPS"]) in
  exists d t, m_depositAmount m = Fin d /\ m_total m = Fin t
              /\ (0 <= d)%Qc /\ (d <= t)%Qc.
Proof.
  cbv zeta.
  destruct (deposit_within_total Date_parse_iso DEFAULTS
              (form_of (js "2025-06-01") (js "2025-06-04") (js "SUV") [js "GPS"])
              (proj1 DEFAULTS_nonneg) (proj1 (proj2 DEFAULTS_nonneg))
              (proj2 (proj2 DEFAULTS_nonneg)))
    as (d & t & Hd & Ht & Hd0 & Hdt & _).
  exists d, t. split; [exact Hd|]. split; [exact Ht|]. split; [exact Hd0 | exact Hdt].
Defined.

Lemma longer_rental_never_cheaper_witness :
  let f := form_of (js "2025-06-01") (js "2025-06-04") (js "SUV") [js "GPS"] in
  let m := handleBookingSubmit Date_parse_iso DEFAULTS f in
  let m' := handleBookingSubmit Date_parse_iso DEFAULTS
              (extended (js "2025-06-08") [js "Παιδικό Κάθισμα"] f) in
  exists t t', m_total m = Fin t /\ m_total m' = Fin t' /\ (t <= t')%Qc.
Proof.
  cbv zeta.
  destruct (longer_rental_never_cheaper Date_parse_iso DEFAULTS
              (form_of (js "2025-06-01") (js "2025-06-04") (js "SUV") [js "GPS"])
              (js "2025-06-08") [js "Παιδικό Κάθισμα"]
              (days_from_civil 2025 6 4 * 86400000)
              (days_from_civil 2025 6 8 * 86400000)
              (proj1 DEFAULTS_nonneg) (proj1 (proj2 DEFAULTS_nonneg))
              (proj2 (proj2 DEFAULTS_nonneg)))
    as (t & t' & _ & _ & Ht & Ht' & _ & _ & Htt & _).
  - vm_compute. reflexivity.
  - vm_compute. reflexivity.
  - vm_compute. discriminate.
  - exists t, t'. split; [exact Ht|]. split; [exact Ht' | exact Htt].
Defined.

(** ** The text of a number read back by [parseFloat] *)









(** ** [split] undoes [join] *)



Lemma comma_space : js ", " = [ch ","; 32%N].
Proof. reflexivity. Qed.





(** ** The default of the payment prompt *)



(** ** The default of the price prompts *)









(** ** A visit in which every default is accepted *)

Lemma Config_ext (c c' : Config) :
  phoneNumber c = phoneNumber c' -> vipCode c = vipCode c' ->
  vipGreeting c = vipGreeting c' -> useWhatsApp c = useWhatsApp c' ->
  paymentMethods c = paymentMethods c' -> carCategories c = carCategories c' ->
  extras c = extras c' -> depositPercent c = depositPercent c' ->
  adminEmail c = adminEmail c' -> c = c'.
Proof. destruct c, c'. cbn. by intros -> -> -> -> -> -> -> -> ->. Qed.

Lemma saveSettings_carCategories (i : SettingsInput) (st : State) :
  carCategories (config (saveSettings i st).1)
  = match answered (catInput i) with
    | Some t =>
        if (0 <? length (obj_keys (parse_prices t)))%nat then parse_prices t
        else carCategories (config st)
    | None => carCategories (config st)
    end.
Proof.
  rewrite saveSettings_state. frame. unfold edit_carCategories.
  destruct (answered (catInput i)); [|by frame].
  cbv zeta. destruct (0 <? _)%nat; by frame.
Qed.

Lemma saveSettings_extras (i : SettingsInput) (st : State) :
  extras (config (saveSettings i st).1)
  = match answered (extrasInput i) with
    | Some t =>
        if (0 <? length (obj_keys (parse_prices t)))%nat then parse_prices t
        else extras (config st)
    | None => extras (config st)
    end.
Proof.
  rewrite saveSettings_state. frame. unfold edit_extras.
  destruct (answered (extrasInput i)); [|by frame].
  cbv zeta. destruct (0 <? _)%nat; by frame.
Qed.

Lemma saveSettings_depositPercent (i : SettingsInput) (st : State) :
  depositPercent (config (saveSettings i st).1)
  = match depInput i with
    | Some t =>
        if negb (Num.isNaN (parseFloat t)) && Num.ge (parseFloat t) (num 0)
           && Num.le (parseFloat t) (num 100)
        then parseFloat t else depositPercent (config st)
    | None => depositPercent (config st)
    end.
Proof.
  rewrite saveSettings_state. frame. unfold edit_depositPercent.
  destruct (depInput i); [|by frame].
  cbv zeta. destruct (_ && _); by frame.
Qed.

Lemma saveSettings_adminEmail (i : SettingsInput) (st : State) :
  adminEmail (config (saveSettings i st).1)
  = match answered (emailPrompt i) with
    | Some e => trim e
    | None => adminEmail (config st)
    end.
Proof.
  rewrite saveSettings_state. frame. unfold edit_adminEmail.
  destruct (answered (emailPrompt i)); by frame.
Qed.

Lemma saveSettings_useWhatsApp (i : SettingsInput) (st : State) :
  useWhatsApp (config (saveSettings i st).1)
  = match waInput i with
    | Some w =>
        bool_decide (trim (toLowerCase w) = js "ναι")
        || bool_decide (trim (toLowerCase w) = js "yes")
    | None => useWhatsApp (config st)
    end.
Proof.
  rewrite saveSettings_state. unfold edit_useWhatsApp. cbv zeta.
  cbn [persist config]. destruct (waInput i); [done|]. by frame.
Qed.





Lemma answered_nonempty (s : jsstring) : s <> [] -> answered (Some s) = Some s.
Proof. by destruct s. Qed.




(** ** The optional lines of the summary and of the mail *)

Section Lines.

Variable Date_parse : jsstring -> option Z.
Variable cfg : Config.

Lemma summary_lines (f : BookingForm) (s : Summary) :
  calculatePrice Date_parse cfg f = Shown s ->
  s_basePricePerDay s = or_zero (obj_get (f_category f) (carCategories cfg))
  /\ s_selectedExtras s = f_checked f
  /\ s_extrasLine s = (0 <? length (f_checked f))%nat
  /\ s_depositLine s = Num.gt (depositPercent cfg) (num 0).
Proof.
  unfold calculatePrice.
  destruct (nonempty (f_pickup f)), (nonempty (f_dropoff f)),
    (nonempty (f_category f)); try discriminate.
  rewrite fold_summary. intros [= <-]. repeat split; reflexivity.
Qed.

Lemma mail_lines (f : BookingForm) :
  let m := handleBookingSubmit Date_parse cfg f in
  m_basePerDay m = or_zero (obj_get (f_category f) (carCategories cfg))
  /\ m_extras m = f_checked f
  /\ m_extrasLine m = Num.gt (m_extrasTotal m) (num 0)
  /\ m_depositLine m = Num.gt (depositPercent cfg) (num 0)
  /\ m_to m = adminEmail cfg.
Proof. repeat split; reflexivity. Qed.

Lemma extras_total_free (days : number) (l : list jsstring) (z : Z) :
  days = num z ->
  (forall k, In k l -> or_zero (obj_get k (extras cfg)) = num 0) ->
  extras_total cfg days l (num 0) = num 0.
Proof.
  intros -> Hl. unfold extras_total. induction l as [|k l IH]; [done|].
  cbn [fold_left]. rewrite Hl by (by left). rewrite mul_zero_num.
  rewrite add_zero. apply IH. intros k' Hk'. apply Hl. by right.
Qed.

(** X17. The live quote and the booking mail show the deposit line under
    the same condition, but not the extras line: the mail has it only for
    an extras price above 0, the quote for every non-empty selection; so
    the line of the mail implies the line of the quote, while a selection
    of extras that cost nothing is listed in the quote and left out of
    the mail. *)
Theorem optional_lines (f : BookingForm) (s : Summary) :
  calculatePrice Date_parse cfg f = Shown s ->
  let m := handleBookingSubmit Date_parse cfg f in
  s_depositLine s = m_depositLine m
  /\ (m_extrasLine m = true -> s_extrasLine s = true)
  /\ (f_checked f <> [] ->
      (forall k, In k (f_checked f) -> or_zero (obj_get k (extras cfg)) = num 0) ->
      s_extrasLine s = true /\ m_extrasLine m = false).
Proof.
  intros Hs m. destruct (summary_lines f s Hs) as (_ & _ & Hl & Hd).
  destruct (mail_lines f) as (_ & _ & Hml & Hmd & _). fold m in Hml, Hmd.
  split; [by rewrite Hd, Hmd|]. split.
  - rewrite Hl, Hml. unfold m. rewrite mail_extras.
    destruct (f_checked f) as [|k l]; [|done].
    unfold extras_total. cbn [fold_left]. done.
  - intros Hne Hfree. split.
    + rewrite Hl. by destruct (f_checked f).
    + rewrite Hml. unfold m. rewrite mail_extras.
      destruct (booking_days_integral Date_parse f) as [z Hz].
      by rewrite (extras_total_free _ _ z Hz Hfree).
Qed.

End Lines.

Lemma optional_lines_witness :
  let f := form_of (js "2025-06-01") (js "2025-06-04") (js "SUV") [js "Chains"] in
  exists s, calculatePrice Date_parse_iso DEFAULTS f = Shown s
            /\ s_extrasLine s = true
            /\ m_extrasLine (handleBookingSubmit Date_parse_iso DEFAULTS f) = false.
Proof.
  cbv zeta. eexists. split; [lazy; reflexivity|].
  apply (optional_lines Date_parse_iso DEFAULTS
           (form_of (js "2025-06-01") (js "2025-06-04") (js "SUV") [js "Chains"])).
  - vm_compute. reflexivity.
  - discriminate.
  - intros k [<- | []]. vm_compute. reflexivity.
Defined.

(** ** The options of the booking form *)

Lemma obj_get_key {A : Type} (k : jsstring) (o : list (jsstring * A)) :
  In k (obj_keys o) -> exists v, obj_get k o = Some v /\ In (k, v) o.
Proof.
  induction o as [|[k' v'] o IH]; [done|]. cbn [obj_keys map fst In obj_get].
  intros H. destruct (decide (k = k')) as [-> | Hne].
  - rewrite bool_decide_eq_true_2 by done. exists v'. split; [done | by left].
  - rewrite bool_decide_eq_false_2 by done.
    destruct H as [H | H]; [congruence|].
    destruct (IH H) as (v & Hv & Hin). exists v. split; [done | by right].
Qed.

Lemma or_zero_number (p : number) : p <> NaN -> or_zero (Some p) = p.
Proof.
  intros Hp. destruct p as [| | |q]; try done. cbn [or_zero Num.truthy].
  unfold Num.Qc_eqb. destruct (q ?= 0)%Qc eqn:E; try done. cbn [negb].
  apply Qceq_alt in E. subst q. unfold Num.of_Z. by rewrite Z2Qc_inj_0.
Qed.

Lemma dash_spaces_plain (in_run : bool) (s : jsstring) (c : N) :
  In c (dash_spaces in_run s) -> is_white_space c = false.
Proof.
  revert in_run. induction s as [|d s IH]; intros in_run; [done|].
  cbn [dash_spaces]. destruct (is_white_space d) eqn:E.
  - destruct in_run; [apply IH|]. intros [<- | H]; [by vm_compute | by apply (IH true)].
  - intros [<- | H]; [done | by apply (IH false)].
Qed.

Section Offers.

Variable Date_parse : jsstring -> option Z.
Variable cfg : Config.

(** X18. With well-formed price tables, as the settings panel keeps
    them, the price written next to an offered car category is the price
    per day that the quote and the booking mail charge for it, the price
    written next to an offered extra is what one day of it adds, and the
    id of its checkbox has no white space. *)
Theorem offered_options_priced (f : BookingForm) (choice : Choice) :
  well_formed_prices (carCategories cfg) -> well_formed_prices (extras cfg) ->
  (In choice (populateBookingSelects cfg).1 -> f_category f = c_value choice ->
   let m := handleBookingSubmit Date_parse cfg f in
   c_text choice = price_label (c_value choice) (Some (m_basePerDay m))
   /\ forall s, calculatePrice Date_parse cfg f = Shown s ->
                s_basePricePerDay s = m_basePerDay m)
  /\ (In choice (populateExtras cfg) ->
      exists p,
        c_text choice = price_label (c_value choice) (Some p)
        /\ extras_total cfg (num 1) [c_value choice] (num 0) = p
        /\ forall c, In c (c_id choice) -> is_white_space c = false).
Proof.
  intros [_ Hcats] [_ Hextras]. split.
  - intros Hin Hcat m. destruct (mail_lines Date_parse cfg f) as (Hb & _).
    fold m in Hb. rewrite Hb, Hcat.
    cbn [populateBookingSelects fst] in Hin.
    apply in_map_iff in Hin as (cat & <- & Hkey). cbn [c_value c_text].
    destruct (obj_get_key cat _ Hkey) as (p & Hp & Hpin). rewrite Hp.
    destruct (Hcats cat p Hpin) as (_ & _ & _ & _ & Hnan).
    rewrite or_zero_number by done. split; [done|].
    intros s Hs. destruct (summary_lines Date_parse cfg f s Hs) as (-> & _).
    rewrite Hcat. cbn [c_value]. rewrite Hp. by apply or_zero_number.
  - intros Hin. unfold populateExtras in Hin.
    apply in_map_iff in Hin as (k & <- & Hkey). cbn [c_value c_text c_id].
    destruct (obj_get_key k _ Hkey) as (p & Hp & Hpin). rewrite Hp.
    destruct (Hextras k p Hpin) as (_ & _ & _ & _ & Hnan).
    exists p. split; [done|]. split.
    + unfold extras_total. cbn [fold_left]. rewrite Hp, or_zero_number by done.
      destruct p as [| | |q]; try done.
      change (Num.add (num 0) (Num.mul (Fin q) (num 1)))
        with (Fin (Qc_of_Z 0 + q * Qc_of_Z 1)).
      f_equal. rewrite Z2Qc_inj_0, Z2Qc_inj_1. ring.
    + intros c Hc. apply in_app_or in Hc as [Hc | Hc].
      * vm_compute in Hc. decompose [or] Hc; subst; by vm_compute.
      * by apply dash_spaces_plain in Hc.
Qed.

End Offers.

Lemma offered_options_priced_witness :
  let f := form_of (js "2025-06-01") (js "2025-06-04") (js "SUV") [] in
  m_basePerDay (handleBookingSubmit Date_parse_iso DEFAULTS f) = num 50
  /\ price_label (js "SUV") (Some (num 50)) = js "SUV (€50 / ημέρα)"
  /\ price_label (js "SUV")
       (Some (m_basePerDay (handleBookingSubmit Date_parse_iso DEFAULTS f)))
     = js "SUV (€50 / ημέρα)".
Proof.
  cbv zeta. split; [apply Fin_ext; vm_compute; reflexivity|].
  split; [vm_compute; reflexivity|].
  destruct (offered_options_priced Date_parse_iso DEFAULTS
              (form_of (js "2025-06-01") (js "2025-06-04") (js "SUV") [])
              {| c_id := []; c_value := js "SUV"; c_text := js "SUV (€50 / ημέρα)" |}
              (proj1 DEFAULTS_well_formed) (proj2 DEFAULTS_well_formed))
    as [Hcat _].
  destruct Hcat as [Hlabel _].
  - vm_compute. right. left. reflexivity.
  - reflexivity.
  - symmetry. exact Hlabel.
Defined.

(** ** The chat button after a visit to the panel *)

Lemma strip_non_digits_digits (s : jsstring) :
  Forall (fun c => is_digit c = true) (strip_non_digits s).
Proof.
  unfold strip_non_digits. apply Forall_forall. intros c Hc.
  by apply list_elem_of_filter in Hc as [Hc _].
Qed.

Lemma strip_non_digits_kept (s : jsstring) :
  Forall (fun c => is_digit c = true) s -> strip_non_digits s = s.
Proof.
  unfold strip_non_digits. induction 1 as [|c s Hc _ IH]; [done|].
  by rewrite filter_cons, decide_True, IH.
Qed.

(** X19. After a visit to the settings panel the chat button opens
    WhatsApp exactly when the answer to the WhatsApp prompt, lowercased
    and trimmed, is ναι or yes (or the prompt was cancelled and WhatsApp
    was on before), and dials otherwise; in both cases the link carries
    the digits of the phone number alone, which is the trimmed phone
    input, or the built-in number when that input is blank. *)
Theorem chat_after_settings (i : SettingsInput) (st : State) :
  let cfg := config (saveSettings i st).1 in
  let phone := if nonempty (trim (phone_input i)) then trim (phone_input i)
               else phoneNumber DEFAULTS in
  let whatsapp :=
    match waInput i with
    | Some w => bool_decide (trim (toLowerCase w) = js "ναι")
                || bool_decide (trim (toLowerCase w) = js "yes")
    | None => useWhatsApp (config st)
    end in
  exists digits,
    digits = strip_non_digits phone
    /\ Forall (fun c => is_digit c = true) digits
    /\ (Forall (fun c => is_digit c = true) phone -> digits = phone)
    /\ openChat cfg =
       if whatsapp then OpenWindow (js "https://wa.me/" ++ digits ++ WHATSAPP_TEXT)
       else Navigate (js "tel:" ++ digits).
Proof.
  cbv zeta. eexists. split; [reflexivity|].
  split; [apply strip_non_digits_digits|]. split; [apply strip_non_digits_kept|].
  unfold openChat. cbv zeta.
  by rewrite saveSettings_useWhatsApp, saveSettings_phoneNumber.
Qed.

Lemma chat_after_settings_witness :
  openChat (config (saveSettings visit_phone initial_state).1)
  = OpenWindow (js "https://wa.me/" ++ js "306900000000" ++ WHATSAPP_TEXT).
Proof.
  destruct (chat_after_settings visit_phone initial_state)
    as (digits & -> & _ & _ & ->).
  vm_compute. reflexivity.
Defined.

(** ** Becoming admin *)

(** X20. Nobody becomes admin except through the login modal: a user
    action that logs in is the biometric button of the login form, or the
    submission of the first-time form with a password of at least four
    code units, or the submission of the login form with the stored
    password; the settings panel, the VIP prompt and the cookie button
    never log anybody in. *)
Theorem login_needs_the_form (a : App) (e : event) :
  isAdminLoggedIn (storage (app_state a)) = false ->
  isAdminLoggedIn (storage (app_state (step a e))) = true ->
  (e = BioClick /\ login_modal a = Some PasswordForm)
  \/ exists value,
       e = LoginSubmit value
       /\ ((login_modal a = Some SetupForm /\ (4 <= length (trim value))%nat)
           \/ (login_modal a = Some PasswordForm
               /\ getAdminPassword (storage (app_state a)) = Some value)).
Proof.
  intros Hout Hin.
  assert (~ In (js "isAdmin") (footprint e) -> False) as Hfoot.
  { intros Hno.
    rewrite (isAdminLoggedIn_same _ _ (step_other_keys a e _ Hno)) in Hin. congruence. }
  destruct e as [|value| | |i|target answer|];
    try (exfalso; apply Hfoot; vm_compute; intuition discriminate).
  - exfalso. cbn [step app_state with_storage storage] in Hin.
    unfold toggleAuth in Hin. rewrite Hout in Hin. cbn [fst] in Hin. congruence.
  - right. exists value. split; [done|]. cbn [step] in Hin.
    destruct (login_modal a) as [[]|]; [| |congruence].
    + left. split; [done|].
      unfold run_login, setup_submit in Hin. cbn [app_state with_storage storage] in Hin.
      destruct (Nat.ltb_spec (length (trim value)) 4); [|done].
      cbn [fst] in Hin. congruence.
    + right. split; [done|].
      unfold run_login, login_submit in Hin. cbn [app_state with_storage storage] in Hin.
      case_bool_decide as Hd; [done|]. cbn [fst] in Hin. congruence.
  - left. split; [done|]. cbn [step] in Hin.
    destruct (login_modal a) as [[]|]; [congruence | done | congruence].
Qed.

Lemma login_needs_the_form_witness :
  exists value,
    LoginSubmit (js "secret") = LoginSubmit value
    /\ (4 <= length (trim value))%nat.
Proof.
  destruct (login_needs_the_form (run [ToggleAuth] initial_app)
              (LoginSubmit (js "secret")))
    as [[H _] | (value & He & [[_ Hlen] | [Hm _]])].
  - vm_compute. reflexivity.
  - vm_compute. reflexivity.
  - discriminate H.
  - exists value. split; [exact He | exact Hlen].
  - vm_compute in Hm. discriminate Hm.
Defined.

(** ** Saving twice *)

Section Twice.

Variable i : SettingsInput.
Variable st : State.

Lemma stored_paymentMethods :
  storage (saveSettings i st).1 !! js "paymentMethods"
  = match answered (pay i) with
    | Some p =>
        Some (Json.serialize
                (strings_value
                   (filter (fun m => nonempty m = true) (map trim (split (ch ",") p)))))
    | None => storage st !! js "paymentMethods"
    end.
Proof.
  rewrite saveSettings_state. frame. unfold edit_paymentMethods.
  destruct (answered (pay i)); [|by frame].
  cbv zeta. by rewrite persist_lookup.
Qed.

Lemma stored_carCategories :
  storage (saveSettings i st).1 !! js "carCategories"
  = match answered (catInput i) with
    | Some t =>
        if (0 <? length (obj_keys (parse_prices t)))%nat
        then Some (Json.serialize (prices_value (parse_prices t)))
        else storage st !! js "carCategories"
    | None => storage st !! js "carCategories"
    end.
Proof.
  rewrite saveSettings_state. frame. unfold edit_carCategories.
  destruct (answered (catInput i)); [|by frame].
  cbv zeta. destruct (0 <? _)%nat; [|by frame]. by rewrite persist_lookup.
Qed.

Lemma stored_extras :
  storage (saveSettings i st).1 !! js "extras"
  = match answered (extrasInput i) with
    | Some t =>
        if (0 <? length (obj_keys (parse_prices t)))%nat
        then Some (Json.serialize (prices_value (parse_prices t)))
        else storage st !! js "extras"
    | None => storage st !! js "extras"
    end.
Proof.
  rewrite saveSettings_state. frame. unfold edit_extras.
  destruct (answered (extrasInput i)); [|by frame].
  cbv zeta. destruct (0 <? _)%nat; [|by frame]. by rewrite persist_lookup.
Qed.

Lemma stored_depositPercent :
  storage (saveSettings i st).1 !! js "depositPercent"
  = match depInput i with
    | Some t =>
        if negb (Num.isNaN (parseFloat t)) && Num.ge (parseFloat t) (num 0)
           && Num.le (parseFloat t) (num 100)
        then Some (Json.serialize (VNum (parseFloat t)))
        else storage st !! js "depositPercent"
    | None => storage st !! js "depositPercent"
    end.
Proof.
  rewrite saveSettings_state. frame. unfold edit_depositPercent.
  destruct (depInput i); [|by frame].
  cbv zeta. destruct (_ && _); [|by frame]. by rewrite persist_lookup.
Qed.

Lemma stored_adminEmail :
  storage (saveSettings i st).1 !! js "adminEmail"
  = match answered (emailPrompt i) with
    | Some e => Some (Json.serialize (VStr (trim e)))
    | None => storage st !! js "adminEmail"
    end.
Proof.
  rewrite saveSettings_state. frame. unfold edit_adminEmail.
  destruct (answered (emailPrompt i)); [|by frame].
  cbv zeta. by rewrite persist_lookup.
Qed.

End Twice.

Lemma saveSettings_twice_config (i : SettingsInput) (st : State) :
  config (saveSettings i (saveSettings i st).1).1 = config (saveSettings i st).1.
Proof.
  apply Config_ext.
  - by rewrite !saveSettings_phoneNumber.
  - by rewrite !saveSettings_vipCode.
  - by rewrite !saveSettings_vipGreeting.
  - rewrite (saveSettings_useWhatsApp i (saveSettings i st).1).
    rewrite (saveSettings_useWhatsApp i st). by destruct (waInput i).
  - rewrite (saveSettings_paymentMethods i (saveSettings i st).1).
    rewrite (saveSettings_paymentMethods i st). by destruct (answered (pay i)).
  - rewrite (saveSettings_carCategories i (saveSettings i st).1).
    rewrite (saveSettings_carCategories i st).
    destruct (answered (catInput i)); [|done]. by destruct (0 <? _)%nat.
  - rewrite (saveSettings_extras i (saveSettings i st).1).
    rewrite (saveSettings_extras i st).
    destruct (answered (extrasInput i)); [|done]. by destruct (0 <? _)%nat.
  - rewrite (saveSettings_depositPercent i (saveSettings i st).1).
    rewrite (saveSettings_depositPercent i st).
    destruct (depInput i); [|done]. by destruct (_ && _).
  - rewrite (saveSettings_adminEmail i (saveSettings i st).1).
    rewrite (saveSettings_adminEmail i st). by destruct (answered (emailPrompt i)).
Qed.

Lemma saveSettings_events (i : SettingsInput) (st : State) :
  saveSettings i st
  = ((saveSettings i st).1,
     [RefreshBooking; Alert (js "Οι ρυθμίσεις αποθηκεύτηκαν."); CloseSettings]).
Proof. reflexivity. Qed.

Lemma State_ext (s s' : State) :
  config s = config s' -> storage s = storage s' -> s = s'.
Proof. destruct s, s'. cbn. by intros -> ->. Qed.

(** X21. Saving the settings is idempotent: a second visit to the panel
    with the same inputs and the same answers leaves the cached settings
    and the whole store exactly as the first visit left them. *)
Theorem saveSettings_idempotent (i : SettingsInput) (st : State) :
  saveSettings i (saveSettings i st).1 = saveSettings i st.
Proof.
  assert ((saveSettings i (saveSettings i st).1).1 = (saveSettings i st).1) as E.
  { apply State_ext; [apply saveSettings_twice_config|].
    apply map_eq. intros K.
    pose proof (saveSettings_twice_config i st) as Hc.
    destruct (decide (K = js "phoneNumber")) as [-> | N1].
    { by rewrite !saved_phoneNumber, Hc. }
    destruct (decide (K = js "vipCode")) as [-> | N2].
    { by rewrite !saved_vipCode, Hc. }
    destruct (decide (K = js "vipGreeting")) as [-> | N3].
    { by rewrite !saved_vipGreeting, Hc. }
    destruct (decide (K = js "useWhatsApp")) as [-> | N4].
    { by rewrite !saved_useWhatsApp, Hc. }
    destruct (decide (K = js "paymentMethods")) as [-> | N5].
    { rewrite (stored_paymentMethods i (saveSettings i st).1).
      rewrite (stored_paymentMethods i st). by destruct (answered (pay i)). }
    destruct (decide (K = js "carCategories")) as [-> | N6].
    { rewrite (stored_carCategories i (saveSettings i st).1).
      rewrite (stored_carCategories i st).
      destruct (answered (catInput i)); [|done]. by destruct (0 <? _)%nat. }
    destruct (decide (K = js "extras")) as [-> | N7].
    { rewrite (stored_extras i (saveSettings i st).1).
      rewrite (stored_extras i st).
      destruct (answered (extrasInput i)); [|done]. by destruct (0 <? _)%nat. }
    destruct (decide (K = js "depositPercent")) as [-> | N8].
    { rewrite (stored_depositPercent i (saveSettings i st).1).
      rewrite (stored_depositPercent i st).
      destruct (depInput i); [|done]. by destruct (_ && _). }
    destruct (decide (K = js "adminEmail")) as [-> | N9].
    { rewrite (stored_adminEmail i (saveSettings i st).1).
      rewrite (stored_adminEmail i st). by destruct (answered (emailPrompt i)). }
    apply saveSettings_other_keys. cbn [footprint In]. intros H.
    repeat (destruct H as [<- | H]; [congruence|]). destruct H. }
  rewrite (saveSettings_events i (saveSettings i st).1), E.
  symmetry. apply saveSettings_events.
Qed.

(** ** The recipient of the booking mail *)

(** X22. A booking goes to the address given in the last answered email
    prompt, trimmed, and to the previous address after a cancelled or
    empty prompt; the answer is not checked, so an answer of white space
    alone leaves the booking mail without a recipient. *)
Theorem booking_recipient (Date_parse : jsstring -> option Z) (i : SettingsInput)
  (st : State) (f : BookingForm) (e : jsstring) :
  let m := handleBookingSubmit Date_parse (config (saveSettings i st).1) f in
  (emailPrompt i = None \/ emailPrompt i = Some [] ->
   m_to m = adminEmail (config st))
  /\ (emailPrompt i = Some e -> e <> [] ->
      m_to m = trim e
      /\ ((forall c, In c e -> is_white_space c = true) -> m_to m = [])).
Proof.
  cbv zeta.
  destruct (mail_lines Date_parse (config (saveSettings i st).1) f)
    as (_ & _ & _ & _ & ->).
  rewrite saveSettings_adminEmail. split.
  - intros H. by rewrite (answered_None _ H).
  - intros -> Hne. rewrite answered_nonempty by done. split; [done|].
    intros Hws. destruct (trim_split e) as (_ & _ & _ & _ & _ & Hhead & _).
    destruct (trim e) as [|c t] eqn:E; [done|].
    assert (In c e) as Hc by (apply trim_subset; rewrite E; by left).
    pose proof (Hws c Hc) as Hw. by rewrite (Hhead c t eq_refl) in Hw.
Qed.

Lemma booking_recipient_witness :
  m_to (handleBookingSubmit Date_parse_iso
          (config (saveSettings (visit_email (js " ")) initial_state).1)
          (form_of (js "2025-06-01") (js "2025-06-04") (js "SUV") []))
  = [].
Proof.
  destruct (booking_recipient Date_parse_iso (visit_email (js " ")) initial_state
              (form_of (js "2025-06-01") (js "2025-06-04") (js "SUV") []) (js " "))
    as [_ H].
  destruct H as [_ Hblank]; [reflexivity | vm_compute; discriminate |].
  apply Hblank. intros c Hc. vm_compute in Hc. destruct Hc as [<- | []].
  reflexivity.
Defined.
